(** * web2apk: build orchestration core

    A shallow embedding of the concurrency governor
    ([src/utils/buildQueue.js]), the process supervisor and build pipeline
    ([src/builder/zipBuilder.js]) and the two build handlers
    ([src/handlers/callbackHandler.js]), with the properties the
    specification states about them; then the templated build
    ([src/builder/apkBuilder.js]), the name step of the wizard
    ([src/handlers/messageHandler.js]) and the messages of
    [src/utils/progressUI.js], with further properties of the code. *)

From Stdlib Require Import ZArith NArith List Bool String Ascii Lia.
From Stdlib Require Import Floats Uint63.
From stdpp Require Import gmap list fin_maps.
Import ListNotations.

Local Open Scope Z_scope.

(** ** JavaScript values used by the sources *)

Module JS.

(** A JavaScript string is a sequence of UTF-16 code units. *)
Definition jsstring : Type := list N.

(** String literals of the sources, written as Rocq strings. *)
Definition js (s : string) : jsstring :=
  List.map N_of_ascii (list_ascii_of_string s).

Definition cu_eqb (a b : N) : bool := N.eqb a b.

Fixpoint str_eqb (s t : jsstring) : bool :=
  match s, t with
  | [], [] => true
  | a :: s', b :: t' => cu_eqb a b && str_eqb s' t'
  | _, _ => false
  end.

(** [s.startsWith(p)], comparing code units with [eqb]. *)
Fixpoint startsWithBy (eqb : N -> N -> bool) (p s : jsstring) : bool :=
  match p, s with
  | [], _ => true
  | _ :: _, [] => false
  | a :: p', b :: s' => eqb a b && startsWithBy eqb p' s'
  end.

Definition startsWith (s p : jsstring) : bool := startsWithBy cu_eqb p s.

(** [s.includes(p)]. *)
Fixpoint includesBy (eqb : N -> N -> bool) (p s : jsstring) : bool :=
  startsWithBy eqb p s ||
  match s with
  | [] => false
  | _ :: s' => includesBy eqb p s'
  end.

Definition includes (s p : jsstring) : bool := includesBy cu_eqb p s.

(** [s.endsWith(p)]. *)
Definition endsWith (s p : jsstring) : bool :=
  startsWith (rev s) (rev p).

(** [s.substring(0, n)]. *)
Definition substring0 (n : nat) (s : jsstring) : jsstring := firstn n s.

(** WhiteSpace and LineTerminator code units, the ones [trim] and
    [parseInt] strip. *)
Definition isLineTerminator (c : N) : bool :=
  (N.eqb c 10 || N.eqb c 13 || N.eqb c 8232 || N.eqb c 8233)%N.

Definition isWhiteSpace (c : N) : bool :=
  ((N.leb 9 c && N.leb c 13) || N.eqb c 32 || N.eqb c 160 || N.eqb c 5760
   || (N.leb 8192 c && N.leb c 8202) || N.eqb c 8232 || N.eqb c 8233
   || N.eqb c 8239 || N.eqb c 8287 || N.eqb c 12288 || N.eqb c 65279)%N.

(** The truth value of [l.trim()]: a string is truthy when not empty. *)
Definition nonBlank (l : jsstring) : bool :=
  existsb (fun c => negb (isWhiteSpace c)) l.

(** ASCII case folding, which is what the [i] flag of a regular
    expression amounts to for the ASCII literals of the sources. *)
Definition lowerAscii (c : N) : N :=
  if (N.leb 65 c && N.leb c 90)%N then (c + 32)%N else c.

Definition cu_eqb_ci (a b : N) : bool :=
  N.eqb (lowerAscii a) (lowerAscii b).

(** [s.split('\n')]. *)
Fixpoint splitLines (s : jsstring) : list jsstring :=
  match s with
  | [] => [[]]
  | c :: s' =>
      if N.eqb c 10 then [] :: splitLines s'
      else match splitLines s' with
           | [] => [[c]]
           | l :: ls => (c :: l) :: ls
           end
  end.

(** [a.join('\n')]. *)
Fixpoint joinLines (ls : list jsstring) : jsstring :=
  match ls with
  | [] => []
  | [l] => l
  | l :: ls' => l ++ 10%N :: joinLines ls'
  end.

(** [a.slice(-n)]: the last [n] elements. *)
Definition sliceLast {A} (n : nat) (l : list A) : list A :=
  skipn (length l - n) l.

(** A number as [parseInt] returns it. The two zeros are not told apart
    (both are falsy), and an integer is kept exact rather than rounded to
    a double: rounding is monotone and fixes the integers 1 to 4, so the
    clamp applied to the result is not affected. *)
Inductive number := NaN | Num (z : Z).

Definition digitValue (c : N) : option Z :=
  if (N.leb 48 c && N.leb c 57)%N then Some (Z.of_N c - 48)
  else if (N.leb 97 c && N.leb c 122)%N then Some (Z.of_N c - 87)
  else if (N.leb 65 c && N.leb c 90)%N then Some (Z.of_N c - 55)
  else None.

(** The longest prefix of digits of radix [R], as an integer. *)
Fixpoint parseDigits (R : Z) (s : jsstring) (acc : option Z) : option Z :=
  match s with
  | [] => acc
  | c :: s' =>
      match digitValue c with
      | Some d =>
          if d <? R
          then parseDigits R s' (Some (R * default 0 acc + d))
          else acc
      | None => acc
      end
  end.

Fixpoint trimStart (s : jsstring) : jsstring :=
  match s with
  | c :: s' => if isWhiteSpace c then trimStart s' else s
  | [] => []
  end.

(** [parseInt(s)] with no radix argument. *)
Definition parseInt (input : jsstring) : number :=
  let s := trimStart input in
  let '(sign, s) :=
    match s with
    | c :: s' =>
        if N.eqb c 45 then (-1, s')
        else if N.eqb c 43 then (1, s')
        else (1, s)
    | [] => (1, s)
    end in
  let '(R, s) :=
    match s with
    | c0 :: c1 :: s' =>
        if (N.eqb c0 48 && (N.eqb c1 120 || N.eqb c1 88))%bool
        then (16, s') else (10, s)
    | _ => (10, s)
    end in
  match parseDigits R s None with
  | None => NaN
  | Some m => Num (sign * m)
  end.

(** [x || d] on numbers: [NaN] and zero are falsy. *)
Definition orElse (x : number) (d : Z) : Z :=
  match x with
  | NaN => d
  | Num z => if z =? 0 then d else z
  end.

(** Decimal rendering of an integer in a template literal. *)
Fixpoint digitsOf (fuel : nat) (n : N) (acc : jsstring) : jsstring :=
  match fuel with
  | O => acc
  | S fuel' =>
      let acc' := (48 + n mod 10)%N :: acc in
      if (n / 10 =? 0)%N then acc' else digitsOf fuel' (n / 10)%N acc'
  end.

Definition showZ (z : Z) : jsstring :=
  let n := Z.to_N (Z.abs z) in
  let ds := digitsOf (S (N.to_nat (N.log2 n))) n [] in
  if z <? 0 then 45%N :: ds else ds.

(** The signals [child.kill] is called with: [SIGTERM], the default, asks
    the process to end; [SIGKILL] ends it. *)
Inductive Signal := SIGTERM | SIGKILL.

(** [a.findIndex(f)]. *)
Fixpoint findIndex {A} (f : A -> bool) (l : list A) : Z :=
  match l with
  | [] => -1
  | x :: l' =>
      if f x then 0
      else let i := findIndex f l' in if i <? 0 then -1 else i + 1
  end.

End JS.

Import JS.

(** ** The concurrency governor: [class BuildQueue] *)

Module Queue.

(** A slot of [activeBuilds]: [{ startTime, lastActivity }]. *)
Record BuildSlot := mkSlot { startTime : Z; lastActivity : Z }.

(** The instance state. [activeBuilds] is a [Map] keyed by the chat id; its
    insertion order is only read by [getCurrentBuild], which is not
    modelled. [MAX_BUILD_TIME] and [INACTIVITY_TIMEOUT] are assigned once
    by the constructor and never again. *)
Record BuildQueue := mkQueue {
  maxConcurrent : Z;
  activeBuilds : gmap Z BuildSlot
}.

Definition MAX_BUILD_TIME : Z := 45 * 60 * 1000.
Definition INACTIVITY_TIMEOUT : Z := 10 * 60 * 1000.

(** [process.env.MAX_CONCURRENT_BUILDS]: a string, or [undefined] when the
    variable is not set; [parseInt] converts its argument to a string. *)
Definition envString (v : option jsstring) : jsstring :=
  match v with
  | Some s => s
  | None => js "undefined"
  end.

Definition constructor (env : option jsstring) : BuildQueue :=
  let m := orElse (parseInt (envString env)) 1 in
  {| maxConcurrent := Z.max 1 (Z.min m 4); activeBuilds := ∅ |}.

(** The optional argument [chatId = null] of [updateActivity] and
    [forceRelease]: [None] when omitted. [if (chatId)] holds for a number
    other than zero. *)
Definition truthy (chatId : option Z) : bool :=
  match chatId with
  | Some z => negb (z =? 0)
  | None => false
  end.

Definition has (q : BuildQueue) (chatId : Z) : bool :=
  match activeBuilds q !! chatId with
  | Some _ => true
  | None => false
  end.

Definition withBuilds (q : BuildQueue) (m : gmap Z BuildSlot) : BuildQueue :=
  {| maxConcurrent := maxConcurrent q; activeBuilds := m |}.

Definition acquire (chatId now : Z) (q : BuildQueue) : bool * BuildQueue :=
  if has q chatId then (false, q)
  else if Z.of_nat (size (activeBuilds q)) >=? maxConcurrent q then (false, q)
  else (true, withBuilds q (<[chatId := mkSlot now now]> (activeBuilds q))).

Definition release (chatId : Z) (q : BuildQueue) : BuildQueue :=
  match activeBuilds q !! chatId with
  | None => q
  | Some _ => withBuilds q (delete chatId (activeBuilds q))
  end.

Definition forceRelease (chatId : option Z) (q : BuildQueue) : BuildQueue :=
  if truthy chatId then
    match chatId with
    | Some id =>
        if has q id then withBuilds q (delete id (activeBuilds q)) else q
    | None => q
    end
  else withBuilds q ∅.

Definition touch (now : Z) (b : BuildSlot) : BuildSlot :=
  {| startTime := startTime b; lastActivity := now |}.

(** The broadcast loop reads the clock once per slot; the model stamps
    every slot of one call with the same reading. *)
Definition updateActivity (chatId : option Z) (now : Z) (q : BuildQueue)
  : BuildQueue :=
  match chatId with
  | Some id =>
      if truthy chatId && has q id
      then withBuilds q (alter (touch now) id (activeBuilds q))
      else withBuilds q (touch now <$> activeBuilds q)
  | None => withBuilds q (touch now <$> activeBuilds q)
  end.

(** [build.lastActivity || build.startTime]. *)
Definition activityOf (b : BuildSlot) : Z :=
  if lastActivity b =? 0 then startTime b else lastActivity b.

(** The two tests of the watchdog loop; the first one [continue]s. *)
Definition isStuck (now : Z) (b : BuildSlot) : bool :=
  if now - startTime b >? MAX_BUILD_TIME then true
  else now - activityOf b >? INACTIVITY_TIMEOUT.

Definition toRelease (now : Z) (q : BuildQueue) : list Z :=
  (List.filter (fun kb => isStuck now (snd kb))
     (map_to_list (activeBuilds q))).*1.

Definition checkStuckBuilds (now : Z) (q : BuildQueue) : BuildQueue :=
  if (size (activeBuilds q) =? 0)%nat then q
  else fold_left (fun q' id => forceRelease (Some id) q') (toRelease now q) q.

Definition isBusy (q : BuildQueue) : bool :=
  Z.of_nat (size (activeBuilds q)) >=? maxConcurrent q.

(** The calls that reach a queue, with the clock reading of each. *)
Inductive Op :=
| Acquire (chatId now : Z)
| Release (chatId : Z)
| ForceRelease (chatId : option Z)
| UpdateActivity (chatId : option Z) (now : Z)
| Watchdog (now : Z).

Definition step (q : BuildQueue) (op : Op) : BuildQueue :=
  match op with
  | Acquire id now => snd (acquire id now q)
  | Release id => release id q
  | ForceRelease id => forceRelease id q
  | UpdateActivity id now => updateActivity id now q
  | Watchdog now => checkStuckBuilds now q
  end.

Definition run (ops : list Op) (q : BuildQueue) : BuildQueue :=
  fold_left step ops q.

End Queue.

(** ** The process supervisor: [runCommand] of [zipBuilder.js] *)

Module Supervisor.

(** The regular expressions of [errorPatterns]. All but one have the shape
    [/lit.*$/gm], some with the [i] flag; the remaining one is the
    "What went wrong" block with its lazy body and lookahead. *)
Inductive Pattern :=
| RestOfLine (lit : jsstring) (ignoreCase : bool)
| WhatWentWrong.

Definition errorPatterns : list Pattern :=
  [ RestOfLine (js "FAILURE:") false;
    RestOfLine (js "error:") true;
    RestOfLine (js "Error:") false;
    RestOfLine (js "Exception:") false;
    WhatWentWrong;
    RestOfLine (js "Could not") true;
    RestOfLine (js "Cannot") true;
    RestOfLine (js "failed") true;
    RestOfLine (js "not found") true ].

Definition literalOf (p : Pattern) : jsstring :=
  match p with
  | RestOfLine lit _ => lit
  | WhatWentWrong => js "* What went wrong:"
  end.

Definition eqbOf (p : Pattern) : N -> N -> bool :=
  match p with
  | RestOfLine _ true => cu_eqb_ci
  | _ => cu_eqb
  end.

(** [.*] followed by [$] under the [m] flag: up to the next line
    terminator or the end of the input. *)
Fixpoint restOfLine (s : jsstring) : jsstring :=
  match s with
  | [] => []
  | c :: s' => if isLineTerminator c then [] else c :: restOfLine s'
  end.

(** [$] under the [m] flag. *)
Definition atLineEnd (s : jsstring) : bool :=
  match s with
  | [] => true
  | c :: _ => isLineTerminator c
  end.

(** The lazy [[\s\S]*?] stops at the first position where the lookahead
    [(?=\* Try:|\* Get more help|$)] holds. *)
Fixpoint lazyBody (s : jsstring) : jsstring :=
  if startsWith s (js "* Try:") || startsWith s (js "* Get more help")
     || atLineEnd s
  then []
  else match s with
       | [] => []
       | c :: s' => c :: lazyBody s'
       end.

Definition tailOf (p : Pattern) (s : jsstring) : jsstring :=
  match p with
  | RestOfLine _ _ => restOfLine s
  | WhatWentWrong => lazyBody s
  end.

(** The text matched when pattern [p] matches at the head of [s]. *)
Definition matchHere (p : Pattern) (s : jsstring) : option jsstring :=
  let lit := literalOf p in
  if startsWithBy (eqbOf p) lit s
  then Some (firstn (length lit) s ++ tailOf p (skipn (length lit) s))
  else None.

(** [s.match(p)] for a global pattern: the matches from left to right, the
    scan resuming where the previous match ended ([skip] counts the code
    units of the current match still to pass over). The empty list stands
    for [null]. *)
Fixpoint matchAll (p : Pattern) (s : jsstring) (skip : nat)
  : list jsstring :=
  match s with
  | [] => []
  | _ :: s' =>
      match skip with
      | S k => matchAll p s' k
      | O =>
          match matchHere p s with
          | Some m => m :: matchAll p s' (length m - 1)
          | None => matchAll p s' 0
          end
      end
  end.

(** The loop over [errorPatterns] pushing every match. *)
Definition collectMatches (allOutput : jsstring) : list jsstring :=
  flat_map (fun p => matchAll p allOutput 0) errorPatterns.

(** [[...new Set(a)]]: first occurrences, in order. *)
Fixpoint unique (l : list jsstring) : list jsstring :=
  match l with
  | [] => []
  | x :: l' => x :: List.filter (fun y => negb (str_eqb x y)) (unique l')
  end.

(** The exit code of the [close] event: a number, or [null] when the
    process was ended by a signal. *)
Definition showCode (code : option Z) : jsstring :=
  match code with
  | Some c => showZ c
  | None => js "null"
  end.

Definition isEmpty (s : jsstring) : bool :=
  match s with [] => true | _ => false end.

(** The last 20 non-blank lines, joined. *)
Definition lastLines (allOutput : jsstring) : list jsstring :=
  sliceLast 20 (List.filter nonBlank (splitLines allOutput)).

(** The message of the rejection built by the [close] listener. *)
Definition errorMessage (logFile stdout stderr : jsstring) (code : option Z)
  : jsstring :=
  let allOutput := stdout ++ 10%N :: stderr in
  let errorLines := firstn 10 (unique (collectMatches allOutput)) in
  let errorMsg :=
    if (0 <? length errorLines)%nat then joinLines errorLines
    else
      let joined := joinLines (lastLines allOutput) in
      if isEmpty joined then js "Build failed with code " ++ showCode code
      else joined in
  substring0 1500 errorMsg
    ++ 10%N :: 10%N :: js "[Debug log: " ++ logFile ++ js ".error]".

Inductive Promise :=
| Pending
| Resolved (value : jsstring)
| Rejected (message : jsstring).

(** The closure of one [runCommand] call. [forwarded] lists the arguments
    of the calls to [onOutput] so far; [logged] is the content of the log
    file and [errorLog] that of its [.error] sibling. *)
Record Proc := mkProc {
  stdout : jsstring;
  stderr : jsstring;
  lastActivity : Z;
  logged : jsstring;
  errorLog : option jsstring;
  forwarded : list jsstring;
  promise : Promise;
  timeoutCheck : bool;
  killed : option Signal
}.

(** What a call is given: whether [onOutput] was passed, and the name of
    the log file (which embeds the clock reading at the call). *)
Record Call := mkCall { onOutput : bool; logFile : jsstring }.

Definition TIMEOUT_MS : Z := 30 * 60 * 1000.

Definition spawn (now : Z) : Proc :=
  {| stdout := []; stderr := []; lastActivity := now; logged := [];
     errorLog := None; forwarded := []; promise := Pending;
     timeoutCheck := true; killed := None |}.

(** A promise settles once: later [resolve] and [reject] calls do
    nothing. *)
Definition settle (v : Promise) (p : Proc) : Proc :=
  match promise p with
  | Pending =>
      {| stdout := stdout p; stderr := stderr p;
         lastActivity := lastActivity p; logged := logged p;
         errorLog := errorLog p; forwarded := forwarded p; promise := v;
         timeoutCheck := timeoutCheck p; killed := killed p |}
  | _ => p
  end.

Definition lastOf (ls : list jsstring) : jsstring := List.last ls [].

Definition onStdout (c : Call) (now : Z) (text : jsstring) (p : Proc)
  : Proc :=
  let lines := List.filter nonBlank (splitLines text) in
  {| stdout := stdout p ++ text; stderr := stderr p; lastActivity := now;
     logged := logged p ++ text; errorLog := errorLog p;
     forwarded :=
       if onOutput c && (0 <? length lines)%nat
       then forwarded p ++ [substring0 150 (lastOf lines)]
       else forwarded p;
     promise := promise p; timeoutCheck := timeoutCheck p;
     killed := killed p |}.

(** The test guarding the forwarding of a stderr chunk. *)
Definition importantStderr (text : jsstring) : bool :=
  includes text (js "error") || includes text (js "Error")
  || includes text (js "Exception").

Definition onStderr (c : Call) (now : Z) (text : jsstring) (p : Proc)
  : Proc :=
  {| stdout := stdout p; stderr := stderr p ++ text; lastActivity := now;
     logged := logged p ++ js "[STDERR] " ++ text; errorLog := errorLog p;
     forwarded :=
       if onOutput c && importantStderr text
       then forwarded p ++ [js "[!] " ++ substring0 150 text]
       else forwarded p;
     promise := promise p; timeoutCheck := timeoutCheck p;
     killed := killed p |}.

Definition clearTimer (p : Proc) : Proc :=
  {| stdout := stdout p; stderr := stderr p; lastActivity := lastActivity p;
     logged := logged p; errorLog := errorLog p; forwarded := forwarded p;
     promise := promise p; timeoutCheck := false; killed := killed p |}.

(** The two [close] listeners, in registration order. *)
Definition onClose (c : Call) (code : option Z) (p : Proc) : Proc :=
  let p' :=
    match code with
    | Some 0 => settle (Resolved (stdout p)) p
    | _ =>
        let p1 :=
          {| stdout := stdout p; stderr := stderr p;
             lastActivity := lastActivity p; logged := logged p;
             errorLog := Some (stdout p ++ 10%N :: stderr p);
             forwarded := forwarded p; promise := promise p;
             timeoutCheck := timeoutCheck p; killed := killed p |} in
        settle (Rejected (errorMessage (logFile c) (stdout p) (stderr p) code))
          p1
    end in
  clearTimer p'.

Definition onError (err : jsstring) (p : Proc) : Proc :=
  settle (Rejected err) p.

(** One firing of the [setInterval] callback, if the timer is still
    set. [proc.kill()] sends the default signal. *)
Definition onTimer (now : Z) (p : Proc) : Proc :=
  if timeoutCheck p then
    if now - lastActivity p >? TIMEOUT_MS then
      let p1 := clearTimer p in
      let p2 :=
        {| stdout := stdout p1; stderr := stderr p1;
           lastActivity := lastActivity p1; logged := logged p1;
           errorLog := errorLog p1; forwarded := forwarded p1;
           promise := promise p1; timeoutCheck := timeoutCheck p1;
           killed := Some SIGTERM |} in
      settle (Rejected (js "Build timeout (30 minutes of inactivity)")) p2
    else p
  else p.

Inductive Event :=
| StdoutData (now : Z) (text : jsstring)
| StderrData (now : Z) (text : jsstring)
| Close (code : option Z)
| SpawnError (err : jsstring)
| TimerTick (now : Z).

Definition handle (c : Call) (p : Proc) (e : Event) : Proc :=
  match e with
  | StdoutData now text => onStdout c now text p
  | StderrData now text => onStderr c now text p
  | Close code => onClose c code p
  | SpawnError err => onError err p
  | TimerTick now => onTimer now p
  end.

(** A call started at [start] and the events delivered to it. *)
Definition runCommand (c : Call) (start : Z) (events : list Event) : Proc :=
  fold_left (handle c) events (spawn start).

(** Following the specification's words: a stderr chunk is forwarded when
    it contains "error" or "exception", compared without regard to
    case. *)
Definition specForwardsStderr (text : jsstring) : bool :=
  includesBy cu_eqb_ci (js "error") text
  || includesBy cu_eqb_ci (js "exception") text.

(** Following the specification's words: the lines [kept] joined by
    newlines, cut to 1500 characters, then the pointer to the [.error]
    file. Which lines are kept is said in [last20NonBlank] below. *)
Definition specFallbackMessage (logFile : jsstring) (kept : list jsstring)
  : jsstring :=
  substring0 1500 (joinLines kept)
    ++ 10%N :: 10%N :: js "[Debug log: " ++ logFile ++ js ".error]".

End Supervisor.

(** ** The supervisor of the templated build: [runGradle] of
    [apkBuilder.js] *)

Module Gradle.

(** What the promise resolves with: [{ success: true }] or
    [{ success: false, error }]. It is never rejected. *)
Inductive GradleResult :=
| Built
| Failed (error : jsstring).

(** The closure of one [runGradle] call, from the [spawn] on.
    [progressed] lists the arguments of the calls to [onProgress]. *)
Record Proc := mkProc {
  stdout : jsstring;
  stderr : jsstring;
  buildStartTime : Z;
  progressed : list jsstring;
  promise : option GradleResult;
  timeoutCheck : bool;
  killed : option Signal
}.

Definition TIMEOUT_MS : Z := 30 * 60 * 1000.

Definition spawn (now : Z) : Proc :=
  {| stdout := []; stderr := []; buildStartTime := now; progressed := [];
     promise := None; timeoutCheck := true; killed := None |}.

Definition resolve (v : GradleResult) (p : Proc) : Proc :=
  match promise p with
  | None =>
      {| stdout := stdout p; stderr := stderr p;
         buildStartTime := buildStartTime p; progressed := progressed p;
         promise := Some v; timeoutCheck := timeoutCheck p;
         killed := killed p |}
  | Some _ => p
  end.

(** The progress text, which starts with the hammer emoji (two code
    units). *)
Definition buildingText : jsstring :=
  55357%N :: 56616%N :: js " Building...".

Definition onStdout (text : jsstring) (p : Proc) : Proc :=
  {| stdout := stdout p ++ text; stderr := stderr p;
     buildStartTime := buildStartTime p;
     progressed :=
       if includes text (js "BUILD") then progressed p ++ [buildingText]
       else progressed p;
     promise := promise p; timeoutCheck := timeoutCheck p;
     killed := killed p |}.

Definition onStderr (text : jsstring) (p : Proc) : Proc :=
  {| stdout := stdout p; stderr := stderr p ++ text;
     buildStartTime := buildStartTime p; progressed := progressed p;
     promise := promise p; timeoutCheck := timeoutCheck p;
     killed := killed p |}.

(** [x || d] on strings: the empty string and [undefined] are falsy. *)
Definition orText (x : option jsstring) (d : jsstring) : jsstring :=
  match x with
  | Some (c :: l) => c :: l
  | _ => d
  end.

(** [lines[i]], [undefined] out of range. *)
Definition at_ (lines : list jsstring) (i : Z) : option jsstring :=
  if i <? 0 then None else nth_error lines (Z.to_nat i).

(** The message the [close] listener derives from the output. *)
Definition errorMessage (stdout stderr : jsstring) : jsstring :=
  let allOutput := stdout ++ stderr in
  if includes allOutput (js "SDK location not found") then
    js "Android SDK tidak ditemukan. Pastikan ANDROID_HOME sudah diset."
  else if includes allOutput (js "JAVA_HOME") then
    js "Java tidak ditemukan. Pastikan JAVA_HOME sudah diset."
  else if includes allOutput (js "Could not find com.android.tools") then
    js "Android Gradle Plugin tidak ditemukan. Periksa koneksi internet."
  else if includes allOutput (js "error:") then
    let errorLines :=
      List.filter (fun l => includes l (js "error:")) (splitLines allOutput) in
    orText (at_ errorLines 0) (js "Build gagal dengan error")
  else
    let lines := List.filter nonBlank (splitLines allOutput) in
    let failedIndex :=
      findIndex (fun l => includes l (js "BUILD FAILED")) lines in
    if failedIndex >? 0 then
      (* both lines exist and are not blank; [[]] stands for [undefined] *)
      orText (at_ lines (failedIndex - 1))
        (orText (at_ lines failedIndex) [])
    else
      orText (at_ lines (Z.of_nat (length lines) - 1)) (js "Build gagal").

Definition clearTimer (p : Proc) : Proc :=
  {| stdout := stdout p; stderr := stderr p;
     buildStartTime := buildStartTime p; progressed := progressed p;
     promise := promise p; timeoutCheck := false; killed := killed p |}.

(** The two [close] listeners, in registration order. *)
Definition onClose (code : option Z) (p : Proc) : Proc :=
  let p' :=
    match code with
    | Some 0 => resolve Built p
    | _ => resolve (Failed (errorMessage (stdout p) (stderr p))) p
    end in
  clearTimer p'.

Definition onError (message : jsstring) (p : Proc) : Proc :=
  resolve (Failed message) p.

Definition timeoutText : jsstring :=
  js "Build timeout (exceeded 30 minutes). "
    ++ js "Server mungkin overloaded, coba lagi nanti.".

(** One firing of the [setInterval] callback, if the timer is still
    set. *)
Definition onTimer (now : Z) (p : Proc) : Proc :=
  if timeoutCheck p then
    let elapsed := now - buildStartTime p in
    if elapsed >? TIMEOUT_MS then
      let p1 := clearTimer p in
      let p2 :=
        {| stdout := stdout p1; stderr := stderr p1;
           buildStartTime := buildStartTime p1; progressed := progressed p1;
           promise := promise p1; timeoutCheck := timeoutCheck p1;
           killed := Some SIGKILL |} in
      resolve (Failed timeoutText) p2
    else p
  else p.

Inductive Event :=
| StdoutData (text : jsstring)
| StderrData (text : jsstring)
| Close (code : option Z)
| SpawnError (message : jsstring)
| TimerTick (now : Z).

Definition handle (p : Proc) (e : Event) : Proc :=
  match e with
  | StdoutData text => onStdout text p
  | StderrData text => onStderr text p
  | Close code => onClose code p
  | SpawnError message => onError message p
  | TimerTick now => onTimer now p
  end.

(** A process spawned at [start] and the events delivered to the call. *)
Definition runGradle (start : Z) (events : list Event) : Proc :=
  fold_left handle events (spawn start).

End Gradle.

(** ** Control flow of the asynchronous functions

    An [async] function body is run to completion here: every [await] is
    given its outcome by the environment. A computation ends normally,
    by a [return] statement, or by a thrown error (a rejected promise
    under [await]); [S] is the state it works on. *)

Module Eff.

Inductive completion (R A : Type) :=
| Normal (a : A)
| Return (r : R)
| Throw (message : jsstring).

Arguments Normal {R A} a.
Arguments Return {R A} r.
Arguments Throw {R A} message.

Definition M (S R A : Type) : Type := S -> completion R A * S.

Definition ret {S R A} (a : A) : M S R A := fun s => (Normal a, s).

Definition bind {S R A B} (c : M S R A) (k : A -> M S R B) : M S R B :=
  fun s =>
    match c s with
    | (Normal a, s') => k a s'
    | (Return r, s') => (Return r, s')
    | (Throw e, s') => (Throw e, s')
    end.

Definition throw {S R A} (e : jsstring) : M S R A := fun s => (Throw e, s).

Definition returnWith {S R A} (r : R) : M S R A := fun s => (Return r, s).

Definition get {S R} : M S R S := fun s => (Normal s, s).

Definition modify {S R} (f : S -> S) : M S R unit :=
  fun s => (Normal tt, f s).

(** [try { body } catch (error) { handler }], [error.message] being what
    the handlers read. *)
Definition tryCatch {S R A} (body : M S R A) (handler : jsstring -> M S R A)
  : M S R A :=
  fun s =>
    match body s with
    | (Throw e, s') => handler e s'
    | other => other
    end.

(** [try { body } finally { fin }]: the completion of [fin] replaces that
    of [body] unless it is normal. *)
Definition tryFinally {S R A} (body : M S R A) (fin : M S R unit)
  : M S R A :=
  fun s =>
    let '(c, s') := body s in
    match fin s' with
    | (Normal _, s'') => (c, s'')
    | (Return r, s'') => (Return r, s'')
    | (Throw e, s'') => (Throw e, s'')
    end.

(** [promise.catch(() => { })] under [await]. *)
Definition swallow {S R} (c : M S R unit) : M S R unit :=
  tryCatch c (fun _ => ret tt).

(** A call of a function whose body is [body]: the value of its [return]
    statement, or the value it ends with. *)
Definition call {S R R' : Type} (body : M S R' R') : M S R R' :=
  fun s =>
    match body s with
    | (Normal a, s') => (Normal a, s')
    | (Return r, s') => (Normal r, s')
    | (Throw e, s') => (Throw e, s')
    end.

(** A computation on a part [T] of the state. *)
Definition zoom {S T R A} (proj : S -> T) (inj : T -> S -> S) (c : M T R A)
  : M S R A :=
  fun s => let '(r, t) := c (proj s) in (r, inj t s).

(** An awaited external call whose outcome the environment fixes: a value,
    or the message of the error it throws. *)
Definition outcome (A : Type) : Type := A + jsstring.

Definition await {S R A} (o : outcome A) : M S R A :=
  fun s =>
    match o with
    | inl a => (Normal a, s)
    | inr e => (Throw e, s)
    end.

End Eff.

Import Eff.

Notation "'let!' x ':=' c 'in' k" := (Eff.bind c (fun x => k))
  (at level 10, x name, c at level 100, k at level 200).
Notation "c ;;; k" := (Eff.bind c (fun _ => k))
  (at level 100, k at level 200, right associativity).

(** ** The uploaded-ZIP pipeline: [zipBuilder.js] *)

Module Pipeline.

(** An entry of the file system as the search sees it: [fs.stat] may throw
    on it, and [fs.readdir] may throw on a directory. *)
#[warnings="-register-all"]
Inductive Node :=
| File
| Other
| StatFails
| Dir (readable : bool) (items : list (jsstring * Node)).

(** [path.join(dir, item)]: a path is the list of its components. *)
Definition Path : Type := list jsstring.

Definition pathJoin (dir : Path) (item : jsstring) : Path := dir ++ [item].

(** The test guarding the recursive call. *)
Definition descends (item : jsstring) : bool :=
  negb (startsWith item (js ".")) && negb (str_eqb item (js "node_modules")).

(** [findFileRecursive(dir, ext, maxDepth, depth)], [n] being what [dir]
    names. The [catch] around the loop ends the scan of the directory at
    the first entry whose [stat] throws. *)
Fixpoint findFileRecursive (dir : Path) (n : Node) (ext : jsstring)
  (maxDepth depth : nat) {struct n} : option Path :=
  if (maxDepth <? depth)%nat then None
  else
    match n with
    | Dir true items =>
        (fix loop (items : list (jsstring * Node)) : option Path :=
           match items with
           | [] => None
           | (item, child) :: rest =>
               let itemPath := pathJoin dir item in
               match child with
               | StatFails => None
               | File =>
                   if endsWith item ext then Some itemPath else loop rest
               | Other => loop rest
               | Dir _ _ =>
                   if descends item then
                     match findFileRecursive itemPath child ext maxDepth
                             (S depth) with
                     | Some found => Some found
                     | None => loop rest
                     end
                   else loop rest
               end
           end) items
    | _ => None
    end.

(** [fs.pathExists(p)] for [p] relative to the node. *)
Fixpoint pathExists (n : Node) (p : Path) {struct p} : bool :=
  match p with
  | [] => match n with StatFails => false | _ => true end
  | item :: p' =>
      match n with
      | Dir _ items =>
          match List.find (fun kv => str_eqb (fst kv) item) items with
          | Some (_, child) => pathExists child p'
          | None => false
          end
      | _ => false
      end
  end.

Definition possiblePaths (buildType : jsstring) : list Path :=
  let named := js "app-" ++ buildType ++ js ".apk" in
  [ [js "app"; js "build"; js "outputs"; js "apk"; buildType; named];
    [js "build"; js "outputs"; js "apk"; buildType; named];
    [js "app"; js "build"; js "outputs"; js "apk"; buildType;
     js "app-debug.apk"];
    [js "build"; js "outputs"; js "apk"; buildType; js "app-debug.apk"] ].

(** [findApk(projectDir, buildType)]. *)
Definition findApk (projectDir : Path) (n : Node) (buildType : jsstring)
  : option Path :=
  match List.find (pathExists n) (possiblePaths buildType) with
  | Some p => Some (projectDir ++ p)
  | None => findFileRecursive projectDir n (js ".apk") 5 0
  end.

(** The result object of [buildFromZip]. *)
Inductive BuildResult :=
| Success (apkPath buildDir : jsstring)
| Failure (error : jsstring).

(** What the run of one [buildFromZip] call meets: the outcome of each
    awaited step and, for [fs.remove], whether it rejects. [extracting]
    stands for the first progress callback, [ensureDir] and the
    extraction; [detected] for the second progress callback. *)
Record ZipRun := mkZipRun {
  tempDir : jsstring;
  extracting : outcome unit;
  findProjectRoot : outcome (option jsstring);
  detected : outcome unit;
  buildFlutter : outcome jsstring;
  buildAndroid : outcome jsstring;
  removeRejects : jsstring -> bool
}.

(** The file-system removals attempted, oldest first. *)
Inductive FsCall := Remove (path : jsstring).

Definition fsRemove {R} (w : ZipRun) (path : jsstring)
  : M (list FsCall) R unit :=
  fun log =>
    (if removeRejects w path then Throw (js "remove failed") else Normal tt,
     log ++ [Remove path]).

Definition buildFromZip (w : ZipRun) (zipPath projectType : jsstring)
  : M (list FsCall) BuildResult BuildResult :=
  tryCatch
    (await (extracting w) ;;;
     let! projectRoot := await (findProjectRoot w) in
     match projectRoot with
     | None =>
         throw (js "Invalid " ++ projectType
                ++ js " project. Required files not found.")
     | Some _ =>
         await (detected w) ;;;
         let! apkPath := (if str_eqb projectType (js "flutter")
                          then await (buildFlutter w)
                          else await (buildAndroid w)) in
         swallow (fsRemove w zipPath) ;;;
         returnWith (Success apkPath (tempDir w))
     end)
    (fun error =>
       swallow (fsRemove w (tempDir w)) ;;;
       swallow (fsRemove w zipPath) ;;;
       returnWith (Failure error)).

End Pipeline.

(** ** The build handlers: [callbackHandler.js] *)

Module Handlers.

(** An entry of [global.sessions]. *)
Record Session := mkSession {
  step : jsstring;
  projectType : jsstring;
  iconPath : option jsstring
}.

(** The state the handlers work on: the queue singleton, the sessions and
    the removals attempted on the file system. *)
Record World := mkWorld {
  buildQueue : Queue.BuildQueue;
  sessions : gmap Z Session;
  removed : list Pipeline.FsCall
}.

Definition setQueue (q : Queue.BuildQueue) (s : World) : World :=
  {| buildQueue := q; sessions := sessions s; removed := removed s |}.

Definition setRemoved (l : list Pipeline.FsCall) (s : World) : World :=
  {| buildQueue := buildQueue s; sessions := sessions s; removed := l |}.

Definition deleteSession (chatId : Z) (s : World) : World :=
  {| buildQueue := buildQueue s; sessions := delete chatId (sessions s);
     removed := removed s |}.

Definition acquire {R} (chatId now : Z) : M World R bool :=
  fun s =>
    let '(ok, q) := Queue.acquire chatId now (buildQueue s) in
    (Normal ok, setQueue q s).

Definition release {R} (chatId : Z) : M World R unit :=
  modify (fun s => setQueue (Queue.release chatId (buildQueue s)) s).

Definition updateActivity {R} (now : Z) : M World R unit :=
  modify (fun s => setQueue (Queue.updateActivity None now (buildQueue s)) s).

(** [await fs.remove(path).catch(() => { })]. *)
Definition removeQuietly {R} (path : jsstring) : M World R unit :=
  modify (fun s => setRemoved (removed s ++ [Pipeline.Remove path]) s).

Definition removeIfSet {R} (path : option jsstring) : M World R unit :=
  match path with
  | Some p => removeQuietly p
  | None => ret tt
  end.

Fixpoint forEach {R A} (f : A -> M World R unit) (l : list A)
  : M World R unit :=
  match l with
  | [] => ret tt
  | x :: l' => f x ;;; forEach f l'
  end.

(** What one [confirmBuild] call meets. [progress] holds the clock
    readings at which [buildApk] fires its progress callback before it
    settles; the other fields are the outcomes of the awaited calls, in
    source order. *)
Record UrlRun := mkUrlRun {
  urlClock : Z;
  urlBusyNotice : outcome unit;
  startNotice : outcome unit;
  progress : list Z;
  buildApk : outcome Pipeline.BuildResult;
  successNotice : outcome unit;
  urlSendDocument : outcome unit;
  againNotice : outcome unit;
  sendBuildReport : outcome unit;
  urlErrorNotice : outcome unit
}.

Definition apkPathOf (r : outcome Pipeline.BuildResult) : option jsstring :=
  match r with
  | inl (Pipeline.Success apk _) => Some apk
  | _ => None
  end.

Definition buildDirOf (r : outcome Pipeline.BuildResult) : option jsstring :=
  match r with
  | inl (Pipeline.Success _ dir) => Some dir
  | _ => None
  end.

Definition confirmBuild (w : UrlRun) (chatId : Z) : M World unit unit :=
  let! s := get in
  match sessions s !! chatId with
  | None => returnWith tt
  | Some session =>
      let! granted := acquire chatId (urlClock w) in
      if negb granted then
        await (urlBusyNotice w) ;;;
        removeIfSet (iconPath session) ;;;
        modify (deleteSession chatId) ;;;
        returnWith tt
      else
        await (startNotice w) ;;;
        tryFinally
          (tryCatch
             (forEach updateActivity (progress w) ;;;
              let! buildResult := await (buildApk w) in
              match buildResult with
              | Pipeline.Success _ _ =>
                  await (successNotice w) ;;;
                  await (urlSendDocument w) ;;;
                  await (againNotice w) ;;;
                  await (sendBuildReport w)
              | Pipeline.Failure error => throw error
              end)
             (fun _ => await (urlErrorNotice w)))
          (removeIfSet (apkPathOf (buildApk w)) ;;;
           removeIfSet (buildDirOf (buildApk w)) ;;;
           removeIfSet (iconPath session) ;;;
           release chatId ;;;
           modify (deleteSession chatId))
  end.

(** What one [handleZipUpload] call meets. [localApi] tells whether
    [LOCAL_API_URL] is set; [apkSize] is what [fs.stat] reports. *)
Record ZipUpload := mkZipUpload {
  zipClock : Z;
  zipBusyNotice : outcome unit;
  statusNotice : outcome unit;
  zipRun : Pipeline.ZipRun;
  localApi : bool;
  apkSize : outcome Z;
  registerBuildForDownload : outcome unit;
  linkNotice : outcome unit;
  sendingNotice : outcome unit;
  zipSendDocument : outcome unit;
  doneNotice : outcome unit;
  zipErrorNotice : outcome unit
}.

Definition MAX_FILE_SIZE (w : ZipUpload) : Z :=
  if localApi w then 2 * 1024 * 1024 * 1024 else 50 * 1024 * 1024.

Definition handleZipUpload (w : ZipUpload) (chatId : Z) (filePath : jsstring)
  : M World bool bool :=
  let! s := get in
  match sessions s !! chatId with
  | None => returnWith false
  | Some session =>
      if negb (str_eqb (step session) (js "zip_upload")) then returnWith false
      else
        let! granted := acquire chatId (zipClock w) in
        if negb granted then
          await (zipBusyNotice w) ;;;
          removeQuietly filePath ;;;
          modify (deleteSession chatId) ;;;
          returnWith true
        else
          await (statusNotice w) ;;;
          tryCatch
            (let! result :=
               call (zoom removed setRemoved
                       (Pipeline.buildFromZip (zipRun w) filePath
                          (projectType session))) in
             match result with
             | Pipeline.Success apkPath buildDir =>
                 let! size := await (apkSize w) in
                 if size >? MAX_FILE_SIZE w then
                   await (registerBuildForDownload w) ;;;
                   await (linkNotice w) ;;;
                   returnWith true
                 else
                   await (sendingNotice w) ;;;
                   await (zipSendDocument w) ;;;
                   removeQuietly apkPath ;;;
                   removeQuietly buildDir ;;;
                   await (doneNotice w)
             | Pipeline.Failure error => throw error
             end)
            (fun _ => await (zipErrorNotice w)) ;;;
          release chatId ;;;
          modify (deleteSession chatId) ;;;
          returnWith true
  end.

(** The state a handler leaves behind when run from [s]. *)
Definition after {R A} (c : M World R A) (s : World) : World := snd (c s).

Definition holdsSlot (chatId : Z) (s : World) : bool :=
  Queue.has (buildQueue s) chatId.

End Handlers.

(** ** Statements and scenarios *)

Section QueueStatements.
Import Queue.

(** The capacity bound of a queue state. *)
Definition within (q : BuildQueue) : Prop :=
  Z.of_nat (size (activeBuilds q)) <= maxConcurrent q.

(** The calls that may come between two [acquire] of [id]: any but
    [release(id)] and [forceRelease]. A watchdog pass is one of them when
    it finds no stuck build in the queue [q] it runs on, since it then
    calls no [forceRelease]; a pass that reclaims a slot calls it. *)
Definition keepsSlot (id : Z) (q : BuildQueue) (op : Op) : bool :=
  match op with
  | Acquire _ _ => true
  | UpdateActivity _ _ => true
  | Release id' => negb (id' =? id)
  | ForceRelease _ => false
  | Watchdog now =>
      match toRelease now q with
      | [] => true
      | _ :: _ => false
      end
  end.

(** [keepsSlot] for every call of a series, each at the queue it finds. *)
Fixpoint keepSlot (id : Z) (ops : list Op) (q : BuildQueue) : bool :=
  match ops with
  | [] => true
  | op :: rest => keepsSlot id q op && keepSlot id rest (step q op)
  end.

(** The calls as the bot makes them: a chat id is a Telegram chat id,
    never 0, and a clock reading is a value of [Date.now()], never 0. *)
Definition validCall (op : Op) : bool :=
  match op with
  | Acquire id now => negb (id =? 0) && negb (now =? 0)
  | UpdateActivity _ now => negb (now =? 0)
  | _ => true
  end.

(** What such calls keep true of the slots of a queue. *)
Definition chatSlots (q : BuildQueue) : Prop :=
  map_Forall (fun id b => id <> 0 /\ lastActivity b <> 0) (activeBuilds q).

(** The loop of [checkStuckBuilds] over [toRelease]. *)
Definition releaseAll (l : list Z) (q : BuildQueue) : BuildQueue :=
  fold_left (fun q' id => forceRelease (Some id) q') l q.

(** Following the specification's words: one watchdog pass removes a slot
    older than 45 minutes, removes a slot idle for more than 10 minutes,
    and leaves every other slot as it is. Here for every queue whatever,
    also those no call of the bot builds: a slot under the id 0, a stamp
    that is 0. *)
Definition watchdog_as_stated : Prop :=
  forall (now : Z) (q : BuildQueue) (id : Z) (b : BuildSlot),
    activeBuilds q !! id = Some b ->
    (now - startTime b > MAX_BUILD_TIME ->
     activeBuilds (checkStuckBuilds now q) !! id = None) /\
    (now - lastActivity b > INACTIVITY_TIMEOUT ->
     now - startTime b <= MAX_BUILD_TIME ->
     activeBuilds (checkStuckBuilds now q) !! id = None) /\
    (~ now - startTime b > MAX_BUILD_TIME ->
     ~ now - lastActivity b > INACTIVITY_TIMEOUT ->
     activeBuilds (checkStuckBuilds now q) !! id = Some b).

(** Following the specification's words: [updateActivity(id)] is the
    broadcast form when [id] holds no slot, and touches the slot of [id]
    alone when it holds one. Here for every integer [id], 0 included,
    which is no chat id. *)
Definition updateActivity_as_stated : Prop :=
  forall (id now : Z) (q : BuildQueue),
    (has q id = false ->
     updateActivity (Some id) now q = updateActivity None now q) /\
    (has q id = true ->
     activeBuilds (updateActivity (Some id) now q) !! id
       = touch now <$> activeBuilds q !! id /\
     forall other, other <> id ->
       activeBuilds (updateActivity (Some id) now q) !! other
       = activeBuilds q !! other).

(** Two builds on a queue of capacity 2, the first one under chat id 0,
    started long before the second. *)
Definition stuckAndFresh : BuildQueue :=
  run [Acquire 0 1000; Acquire 7 9999000] (constructor (Some (js "2"))).

(** The same with non-zero chat ids. *)
Definition oldAndFresh : BuildQueue :=
  run [Acquire 3 1000; Acquire 7 9999000] (constructor (Some (js "2"))).

End QueueStatements.

Section SupervisorStatements.
Import Supervisor.

Definition isData (e : Event) : bool :=
  match e with
  | StdoutData _ _ | StderrData _ _ => true
  | _ => false
  end.

(** The clock reading of the last chunk among [events], or [start]. *)
Definition lastData (start : Z) (events : list Event) : Z :=
  fold_left (fun t e => match e with
                        | StdoutData now _ | StderrData now _ => now
                        | _ => t
                        end) events start.

(** Following the specification's words: under some configuration with an
    absolute duration, a process still running (only output events so
    far) is killed at the first poll after that duration has elapsed since
    the spawn. *)
Definition absolute_timeout_as_stated : Prop :=
  exists (c : Call) (duration : Z),
    forall (start : Z) (events : list Event) (now : Z),
      forallb isData events = true ->
      now - start > duration ->
      is_Some (killed (runCommand c start (events ++ [TimerTick now]))).

(** A call whose promise is not settled and whose timer still runs. *)
Definition quiet (p : Proc) : Prop :=
  promise p = Pending /\ timeoutCheck p = true /\ killed p = None.

(** [text] contains one of [words] as a substring. *)
Definition hasWord (words : list jsstring) (text : jsstring) : Prop :=
  exists pre word post, In word words /\ text = pre ++ word ++ post.

(** Following the specification's words: a stderr chunk is forwarded
    exactly when it contains "error" or "exception" in any case. *)
Definition stderr_forwarding_as_stated : Prop :=
  forall (c : Call) (now : Z) (text : jsstring) (p : Proc),
    onOutput c = true ->
    forwarded (onStderr c now text p)
    = if specForwardsStderr text
      then forwarded p ++ [js "[!] " ++ substring0 150 text]
      else forwarded p.

(** [allOutput.match(p)] is [null] for every pattern. *)
Definition noPatternMatches (allOutput : jsstring) : Prop :=
  forall p, In p errorPatterns -> matchAll p allOutput 0 = [].

(** The last 20 non-blank lines of a text, said without the functions of
    the code. [ls] are the lines of [s]: the pieces which, put together
    again with a newline between two of them, give [s], none of them
    holding a newline. *)
Definition linesOf (s : jsstring) (ls : list jsstring) : Prop :=
  ls <> [] /\ joinLines ls = s /\ Forall (fun l => ~ In 10%N l) ls.

(** A blank line holds nothing but white space. *)
Definition blank (l : jsstring) : Prop :=
  Forall (fun c => isWhiteSpace c = true) l.

(** [nb] are the lines of [ls] that are not blank, in their order. *)
Inductive nonBlankOf : list jsstring -> list jsstring -> Prop :=
| nonBlankOf_nil : nonBlankOf [] []
| nonBlankOf_skip l ls nb :
    blank l -> nonBlankOf ls nb -> nonBlankOf (l :: ls) nb
| nonBlankOf_keep l ls nb :
    ~ blank l -> nonBlankOf ls nb -> nonBlankOf (l :: ls) (l :: nb).

(** [kept] are the last [n] elements of [l], or all of them when there
    are fewer. *)
Definition lastOnes {A} (n : nat) (l kept : list A) : Prop :=
  exists dropped,
    l = dropped ++ kept
    /\ (length kept = n \/ (dropped = [] /\ (length kept < n)%nat)).

Definition last20NonBlank (allOutput : jsstring) (kept : list jsstring)
  : Prop :=
  exists ls nb,
    linesOf allOutput ls /\ nonBlankOf ls nb /\ lastOnes 20 nb kept.

(** Following the specification's words: when a command exits with a
    code other than 0 and no pattern matches, the rejection carries the
    last 20 non-blank lines. *)
Definition fallback_as_stated : Prop :=
  forall (c : Call) (code : option Z) (p : Proc) (kept : list jsstring),
    code <> Some 0 ->
    noPatternMatches (stdout p ++ 10%N :: stderr p) ->
    last20NonBlank (stdout p ++ 10%N :: stderr p) kept ->
    promise (onClose c code p)
    = Rejected (specFallbackMessage (logFile c) kept).

(** A call that wrote one line, then nothing for more than 30 minutes,
    and was ended by the poll. *)
Definition timedOut : Proc :=
  runCommand (mkCall false (js "logs/build_2.log")) 0
    [StdoutData 10 (js "Resolving dependencies"); TimerTick 1900000].

(** A call that was given a callback, after two lines of output. *)
Definition twoLines : Proc :=
  runCommand (mkCall true (js "logs/build_1.log")) 0
    [StdoutData 10 (js "Downloading dependencies"); StderrData 20 (js "boom")].

(** The output events of [runGradle]. *)
Definition isGradleData (e : Gradle.Event) : bool :=
  match e with
  | Gradle.StdoutData _ | Gradle.StderrData _ => true
  | _ => false
  end.

Definition gradleQuiet (p : Gradle.Proc) : Prop :=
  Gradle.promise p = None /\ Gradle.timeoutCheck p = true
  /\ Gradle.killed p = None.

End SupervisorStatements.

Section PipelineStatements.
Import Pipeline.

(** [rel] leads from the directory [n], through readable directories, to a
    regular file. *)
Inductive fileAt : Node -> Path -> Prop :=
| fileAt_here items item :
    In (item, File) items -> fileAt (Dir true items) [item]
| fileAt_sub items item child rest :
    In (item, child) items -> fileAt child rest ->
    fileAt (Dir true items) (item :: rest).


(** A directory name the search enters. *)
Definition allowedDir (d : jsstring) : Prop :=
  startsWith d (js ".") = false /\ d <> js "node_modules".

(** Induction on a tree, with the hypothesis for every entry of a
    directory. *)
Fixpoint Node_nested_ind (P : Node -> Prop)
  (HF : P File) (HO : P Other) (HS : P StatFails)
  (HD : forall r items, Forall (fun kv => P (snd kv)) items -> P (Dir r items))
  (n : Node) {struct n} : P n :=
  match n with
  | File => HF
  | Other => HO
  | StatFails => HS
  | Dir r items =>
      HD r items
        ((fix go (l : list (jsstring * Node))
            : Forall (fun kv => P (snd kv)) l :=
            match l with
            | [] => List.Forall_nil _
            | kv :: l' =>
                List.Forall_cons _ kv l'
                  (Node_nested_ind P HF HO HS HD (snd kv)) (go l')
            end) items)
  end.


(** [names] nested one inside the other, [leaf] in the innermost. *)
Fixpoint nest (names : list jsstring) (leaf : list (jsstring * Node))
  : list (jsstring * Node) :=
  match names with
  | [] => leaf
  | d :: names' => [(d, Dir true (nest names' leaf))]
  end.

(** A project whose only APK lies three directories down, outside the
    paths [findApk] probes first. *)
Definition threeDeep : Node :=
  Dir true
    ((js "README.md", File)
     :: nest [js "module"; js "out"; js "bin"] [(js "custom.apk", File)]).

(** A project whose only APK lies six directories down. *)
Definition sixDeep : Node :=
  Dir true
    (nest [js "a"; js "b"; js "c"; js "d"; js "e"; js "f"]
       [(js "deep.apk", File)]).

(** A project whose APKs lie under a dot directory and under
    [node_modules]. *)
Definition onlyExcluded : Node :=
  Dir true
    [ (js ".gradle", Dir true [(js "cached.apk", File)]);
      (js "node_modules", Dir true [(js "vendored.apk", File)]) ].



Definition withRemoveRejects (f : jsstring -> bool) (w : ZipRun) : ZipRun :=
  {| tempDir := tempDir w; extracting := extracting w;
     findProjectRoot := findProjectRoot w; detected := detected w;
     buildFlutter := buildFlutter w; buildAndroid := buildAndroid w;
     removeRejects := f |}.

(** A run in which every step succeeds. *)
Definition smoothRun : ZipRun :=
  {| tempDir := js "temp/job-1"; extracting := inl tt;
     findProjectRoot := inl (Some (js "temp/job-1/app"));
     detected := inl tt;
     buildFlutter := inl (js "output/flutter_1.apk");
     buildAndroid := inl (js "output/android_1.apk");
     removeRejects := fun _ => false |}.


End PipelineStatements.

Section HandlerStatements.
Import Handlers.

(** An upload whose build succeeds with an artifact of [size] bytes, every
    message to the chat going through; [noticeAfterFailure] is the outcome
    of the message sent by the [catch] block. *)
Definition uploadOf (size : Z) (run : Pipeline.ZipRun)
    (noticeAfterFailure : outcome unit) : ZipUpload :=
  {| zipClock := 1700000000000; zipBusyNotice := inl tt;
     statusNotice := inl tt; zipRun := run; localApi := false;
     apkSize := inl size; registerBuildForDownload := inl tt;
     linkNotice := inl tt; sendingNotice := inl tt;
     zipSendDocument := inl tt; doneNotice := inl tt;
     zipErrorNotice := noticeAfterFailure |}.

(** A run whose extraction throws. *)
Definition brokenArchive : Pipeline.ZipRun :=
  withRemoveRejects (fun _ => false)
    {| Pipeline.tempDir := js "temp/job-2";
       Pipeline.extracting := inr (js "Invalid or unsupported zip format");
       Pipeline.findProjectRoot := inl None; Pipeline.detected := inl tt;
       Pipeline.buildFlutter := inr (js "unreached");
       Pipeline.buildAndroid := inr (js "unreached");
       Pipeline.removeRejects := fun _ => false |}.

(** A fresh queue of capacity 1 and chat 42 waiting to upload. *)
Definition uploadWorld : World :=
  {| buildQueue := Queue.constructor None;
     sessions := {[ 42 := mkSession (js "zip_upload") (js "flutter") None ]};
     removed := [] |}.

(** A templated build whose first message to the chat fails. *)
Definition startFails : UrlRun :=
  {| urlClock := 1700000000000; urlBusyNotice := inl tt;
     startNotice := inr (js "ETELEGRAM: 429 Too Many Requests");
     progress := []; buildApk := inr (js "unreached");
     successNotice := inl tt; urlSendDocument := inl tt;
     againNotice := inl tt; sendBuildReport := inl tt;
     urlErrorNotice := inl tt |}.

End HandlerStatements.

(** ** Further statements and scenarios *)

Section MoreQueueStatements.
Import Queue.

(** The answers to a series of [acquire] calls, each with its chat id and
    clock reading. *)
Fixpoint grants (requests : list (Z * Z)) (q : BuildQueue) : list bool :=
  match requests with
  | [] => []
  | (id, now) :: rest =>
      fst (acquire id now q) :: grants rest (snd (acquire id now q))
  end.

End MoreQueueStatements.

Section MoreSupervisorStatements.
Import Supervisor.

(** The stdout chunks among [events], concatenated in arrival order. *)
Definition stdoutOf (events : list Event) : jsstring :=
  flat_map (fun e => match e with
                     | StdoutData _ text => text
                     | _ => []
                     end) events.

(** The events of a process that no poll finds idle: chunks, and polls
    that come at most 30 minutes after the chunk before them, or after
    the spawn when there is none; [last] is the clock reading of that
    chunk or spawn. *)
Fixpoint neverIdle (last : Z) (events : list Event) : bool :=
  match events with
  | [] => true
  | StdoutData now _ :: rest | StderrData now _ :: rest =>
      neverIdle now rest
  | TimerTick now :: rest =>
      (now - last <=? TIMEOUT_MS) && neverIdle last rest
  | _ => false
  end.

Definition isTick (e : Event) : bool :=
  match e with
  | TimerTick _ => true
  | _ => false
  end.

Definition isGradleTick (e : Gradle.Event) : bool :=
  match e with
  | Gradle.TimerTick _ => true
  | _ => false
  end.

(** [errorLines] after the removal of duplicates and the cut to 10. *)
Definition reportedLines (allOutput : jsstring) : list jsstring :=
  firstn 10 (unique (collectMatches allOutput)).

(** No line terminator among the code units of [m]. *)
Definition lineFree (m : jsstring) : bool :=
  forallb (fun c => negb (isLineTerminator c)) m.

(** A literal whose code units cannot be matched by a line terminator,
    with or without the [i] flag. *)
Definition safeLiteral (lit : jsstring) : bool :=
  forallb (fun l => negb (isLineTerminator l)
                    && negb (isLineTerminator (lowerAscii l))) lit.

(** What [handle] keeps true of the calls to [onOutput]. *)
Definition boundedForward (c : Call) (p : Proc) : Prop :=
  Forall (fun s => (length s <= 154)%nat) (forwarded p)
  /\ (onOutput c = false -> forwarded p = []).

End MoreSupervisorStatements.

(** ** The templated build: [buildApk] and [findApk] of [apkBuilder.js] *)

Module Apk.
Import Pipeline.

(** The entry a relative path names. *)
Fixpoint resolve (n : Node) (p : Path) {struct p} : option Node :=
  match p with
  | [] => Some n
  | item :: p' =>
      match n with
      | Dir _ items =>
          match List.find (fun kv => str_eqb (fst kv) item) items with
          | Some (_, child) => resolve child p'
          | None => None
          end
      | _ => None
      end
  end.

(** [fs.readdir(dir)]: the names in the directory, or the error thrown
    when there is no readable directory under that name. *)
Definition readdir (n : Node) (dir : Path) : outcome (list jsstring) :=
  match resolve n dir with
  | Some (Dir true items) => inl (List.map fst items)
  | _ => inr (js "ENOTDIR: not a directory, scandir")
  end.

Definition releaseDir : Path :=
  [js "app"; js "build"; js "outputs"; js "apk"; js "release"].

Definition debugDir : Path :=
  [js "app"; js "build"; js "outputs"; js "apk"; js "debug"].

(** [files.find(f => f.endsWith('.apk'))], then the truth test on the
    name found. *)
Definition firstApk (files : list jsstring) : option jsstring :=
  match List.find (fun f => endsWith f (js ".apk")) files with
  | Some (c :: name) => Some (c :: name)
  | _ => None
  end.

(** [findApk(projectDir)], [n] being what [projectDir] names. *)
Definition findApk (projectDir : Path) (n : Node) : outcome (option Path) :=
  if negb (pathExists n releaseDir) then
    if pathExists n debugDir then
      match readdir n debugDir with
      | inl files =>
          match firstApk files with
          | Some apk => inl (Some (projectDir ++ debugDir ++ [apk]))
          | None => inl None
          end
      | inr e => inr e
      end
    else inl None
  else
    match readdir n releaseDir with
    | inl files =>
        match firstApk files with
        | Some apk => inl (Some (projectDir ++ releaseDir ++ [apk]))
        | None => inl None
        end
    | inr e => inr e
    end.

(** What the run of one [buildApk] call meets, in source order:
    [preparing] stands for the first progress callback and
    [generateProject], [compiling] for the second callback, [gradle] for
    what [runGradle] resolves with, [located] for [findApk], [copied] for
    [ensureDir] and [copy] (its value is the final path), [finished] for
    the last callback. *)
Record ApkRun := mkApkRun {
  buildDir : jsstring;
  preparing : outcome unit;
  compiling : outcome unit;
  gradle : Gradle.GradleResult;
  located : outcome (option jsstring);
  copied : outcome jsstring;
  finished : outcome unit;
  removeRejects : bool
}.

Definition fsRemove {R} (w : ApkRun) (path : jsstring)
  : M (list FsCall) R unit :=
  fun log =>
    (if removeRejects w then Throw (js "remove failed") else Normal tt,
     log ++ [Remove path]).

Definition buildApk (w : ApkRun) : M (list FsCall) BuildResult BuildResult :=
  tryCatch
    (await (preparing w) ;;;
     await (compiling w) ;;;
     match gradle w with
     | Gradle.Failed error => throw error
     | Gradle.Built =>
         let! apkPath := await (located w) in
         match apkPath with
         | None => throw (js "APK tidak ditemukan setelah build")
         | Some _ =>
             let! finalApkPath := await (copied w) in
             await (finished w) ;;;
             returnWith (Success finalApkPath (buildDir w))
         end
     end)
    (fun error =>
       swallow (fsRemove w (buildDir w)) ;;;
       returnWith (Failure error)).

End Apk.

(** ** Project detection: [findProjectRoot] of [zipBuilder.js] *)

Module Detect.
Import Pipeline.

Definition targetFile (projectType : jsstring) : jsstring :=
  if str_eqb projectType (js "flutter") then js "pubspec.yaml"
  else js "build.gradle".

(** The loop over the entries of the extraction directory; [fs.stat]
    throwing ends the call with that error. *)
Fixpoint scanSubdirs (dir : Path) (target : jsstring)
  (items : list (jsstring * Node)) : outcome (option Path) :=
  match items with
  | [] => inl None
  | (item, child) :: rest =>
      match child with
      | StatFails => inr (js "ENOENT: no such file or directory, stat")
      | Dir _ _ =>
          if pathExists child [target] then inl (Some (pathJoin dir item))
          else scanSubdirs dir target rest
      | _ => scanSubdirs dir target rest
      end
  end.

(** [findProjectRoot(dir, projectType)], [n] being what [dir] names. *)
Definition findProjectRoot (dir : Path) (n : Node) (projectType : jsstring)
  : outcome (option Path) :=
  if pathExists n [targetFile projectType] then inl (Some dir)
  else
    match n with
    | Dir true items => scanSubdirs dir (targetFile projectType) items
    | _ => inr (js "ENOTDIR: not a directory, scandir")
    end.

(** A path as one string. *)
Definition render (p : Path) : jsstring :=
  flat_map (fun item => 47%N :: item) p.

(** A run of [buildFromZip] in which [findProjectRoot] works on the
    extracted tree [n]. *)
Definition onTree (w : ZipRun) (n : Node) (projectType : jsstring) : ZipRun :=
  {| tempDir := tempDir w; extracting := extracting w;
     Pipeline.findProjectRoot :=
       match findProjectRoot [tempDir w] n projectType with
       | inl found => inl (option_map render found)
       | inr e => inr e
       end;
     detected := detected w; buildFlutter := buildFlutter w;
     buildAndroid := buildAndroid w; removeRejects := removeRejects w |}.

End Detect.

Section MorePipelineStatements.
Import Pipeline.

(** A Flutter project zipped with two enclosing folders. *)
Definition nestedTwice : Node :=
  Dir true
    (nest [js "export"; js "my_app"] [(js "pubspec.yaml", File)]).

(** A build tree with an empty release directory and an APK in the debug
    one. *)
Definition staleRelease : Node :=
  Dir true
    (nest [js "app"; js "build"; js "outputs"; js "apk"]
       [ (js "release", Dir true [(js "output-metadata.json", File)]);
         (js "debug", Dir true [(js "app-debug.apk", File)]) ]).

(** A build tree with the debug output only. *)
Definition debugOnly : Node :=
  Dir true
    (nest [js "app"; js "build"; js "outputs"; js "apk"; js "debug"]
       [ (js "output-metadata.json", File); (js "app-debug.apk", File) ]).

(** A templated build whose Gradle run fails, and whose build directory
    cannot be removed. *)
Definition gradleFailed : Apk.ApkRun :=
  {| Apk.buildDir := js "temp/4f1c"; Apk.preparing := inl tt;
     Apk.compiling := inl tt;
     Apk.gradle := Gradle.Failed (js "Build gagal");
     Apk.located := inl None; Apk.copied := inr (js "unreached");
     Apk.finished := inl tt; Apk.removeRejects := true |}.

End MorePipelineStatements.

(** ** Messages and progress: [progressUI.js] and the handlers' progress
    callbacks *)

Module Progress.

(** [s.trim()]. *)
Definition trim (s : jsstring) : jsstring :=
  rev (trimStart (rev (trimStart s))).

(** [error.length > 500 ? error.substring(0, 500) + '...' : error]. *)
Definition truncatedError (error : jsstring) : jsstring :=
  if (500 <? length error)%nat then substring0 500 error ++ js "..."
  else error.

(** The text before the error in the template of [formatErrorMessage],
    from the cross mark on, and the text after it, up to the last tag. *)
Definition errorHead : jsstring :=
  10060%N :: js " <b>Build Gagal</b>" ++ 10%N :: repeat 9473%N 18
    ++ 10%N :: 10%N :: js "<b>Error:</b>" ++ 10%N :: js "<code>".

Definition errorTail : jsstring :=
  js "</code>" ++ 10%N :: 10%N :: 55357%N :: 56481%N
    :: js " <i>Periksa project Anda dan coba lagi.</i>".

(** [formatErrorMessage(error)]: the template literal, which starts with a
    newline and ends with a newline and four spaces, then [trim]. *)
Definition formatErrorMessage (error : jsstring) : jsstring :=
  trim (10%N :: errorHead ++ truncatedError error ++ errorTail
          ++ 10%N :: js "    ").

(** The progress callback of [confirmBuild]: [currentProgress] after a
    status text. *)
Definition urlProgress (currentProgress : Z) (status : jsstring) : Z :=
  if includes status (js "Preparing") then 10
  else if includes status (js "Generating") then 25
  else if includes status (js "Copying") then 40
  else if includes status (js "Configuring") then 55
  else if includes status (js "Building") || includes status (js "Gradle")
  then 70
  else if includes status (js "Packaging") then 85
  else if includes status (js "Complete") || includes status (js "Success")
  then 100
  else Z.min (currentProgress + 5) 95.

(** The progress callback of [handleZipUpload]. *)
Definition zipProgress (currentProgress : Z) (status : jsstring) : Z :=
  if includes status (js "Extracting") then 10
  else if includes status (js "Cleaning") then 20
  else if includes status (js "dependencies") || includes status (js "Getting")
  then 35
  else if includes status (js "Building") || includes status (js "Gradle")
  then 60
  else if includes status (js "Locating") || includes status (js "APK")
  then 90
  else Z.min (currentProgress + 5) 95.

End Progress.

Section MoreHandlerStatements.
Import Handlers.

(** The queue of capacity 1 taken by chat 7, and chat 42 waiting to
    upload. *)
Definition fullWorld : World :=
  {| buildQueue :=
       snd (Queue.acquire 7 1699999990000 (Queue.constructor None));
     sessions := {[ 42 := mkSession (js "zip_upload") (js "flutter") None ]};
     removed := [] |}.

End MoreHandlerStatements.

(** ** The Flutter pipeline: [buildFlutter] of [zipBuilder.js] *)

Module Flutter.

(** [propsToSet], in the order [Object.entries] lists it. *)
Definition propsToSet : list (jsstring * jsstring) :=
  [ (js "org.gradle.jvmargs",
     js "-Xmx2048m -XX:MaxMetaspaceSize=512m -Dfile.encoding=UTF-8");
    (js "android.useAndroidX", js "true");
    (js "android.enableJetifier", js "false");
    (js "org.gradle.daemon", js "false");
    (js "org.gradle.parallel", js "true");
    (js "org.gradle.caching", js "false") ].

(** The key as the source of a regular expression, matched at the head of
    [s]: a dot of the key matches any code unit but a line terminator,
    every other code unit of these keys matches itself. The result is
    what follows the match. *)
Fixpoint matchKey (key s : jsstring) : option jsstring :=
  match key with
  | [] => Some s
  | k :: key' =>
      match s with
      | [] => None
      | c :: s' =>
          if (if N.eqb k 46 then negb (isLineTerminator c) else N.eqb c k)
          then matchKey key' s'
          else None
      end
  end.

(** What follows [.*] up to [$] under the [m] flag. *)
Fixpoint lineEnd (s : jsstring) : jsstring :=
  match s with
  | [] => []
  | c :: s' => if isLineTerminator c then s else lineEnd s'
  end.

(** [key=.*$] matched at the head of [s]: what follows the match. *)
Definition matchLine (key s : jsstring) : option jsstring :=
  match matchKey key s with
  | Some (c :: r) => if N.eqb c 61 then Some (lineEnd r) else None
  | _ => None
  end.

(** [props.replace(regex, line)] for [regex = new RegExp(`^${key}=.*$`,
    'm')], or [None] when [regex.test(props)] is false. [lineStart] tells
    whether [^] holds at the head of [s]; the leftmost match is the one
    replaced. The lines written hold no [$], so the replacement text is
    taken as it is. *)
Fixpoint replaceFirst (key line : jsstring) (lineStart : bool) (s : jsstring)
  : option jsstring :=
  match (if lineStart then matchLine key s else None) with
  | Some rest => Some (line ++ rest)
  | None =>
      match s with
      | [] => None
      | c :: s' =>
          option_map (cons c) (replaceFirst key line (isLineTerminator c) s')
      end
  end.

Definition lineOf (kv : jsstring * jsstring) : jsstring :=
  fst kv ++ 61%N :: snd kv.

(** One turn of the loop over [propsToSet]. *)
Definition setProp (gradleProps : jsstring) (kv : jsstring * jsstring)
  : jsstring :=
  match replaceFirst (fst kv) (lineOf kv) true gradleProps with
  | Some replaced => replaced
  | None => gradleProps ++ 10%N :: lineOf kv
  end.

(** The text written to [android/gradle.properties], from the text read
    there ([None] when the file does not exist). *)
Definition gradleProperties (existing : option jsstring) : jsstring :=
  Progress.trim (fold_left setProp propsToSet (default [] existing))
    ++ [10%N].

End Flutter.

Section FlutterStatements.
Import Flutter.

(** [l] sits at the head of [s] and ends where the line ends. *)
Definition lineAt (l s : jsstring) : bool :=
  startsWith s l && Supervisor.atLineEnd (skipn (length l) s).

(** [l] is one of the lines of [s], [lineStart] telling whether a line
    starts at the head of [s]. *)
Fixpoint hasLineFrom (l : jsstring) (lineStart : bool) (s : jsstring)
  : bool :=
  (lineStart && lineAt l s)
  || match s with
     | [] => false
     | c :: s' => hasLineFrom l (isLineTerminator c) s'
     end.

Definition hasLine (l s : jsstring) : bool := hasLineFrom l true s.

(** The same as a decomposition of [s]. *)
Definition isLineOf (l s : jsstring) : Prop :=
  exists pre post,
    s = pre ++ l ++ post
    /\ (pre = [] \/ exists pre' c, pre = pre' ++ [c]
                                   /\ isLineTerminator c = true)
    /\ Supervisor.atLineEnd post = true.

(** A line that can be found again after [trim]: no line terminator in
    it, and no white space at either end. *)
Definition solid (l : jsstring) : bool :=
  lineFree l
  && match l with
     | c :: _ => negb (isWhiteSpace c)
     | [] => false
     end
  && negb (isWhiteSpace (List.last l 32%N)).

Definition wellFormed (kv : jsstring * jsstring) : bool :=
  solid (lineOf kv).

(** No setting's key, taken as a pattern, matches the line [l]. *)
Definition untouched (ps : list (jsstring * jsstring)) (l : jsstring)
  : bool :=
  forallb (fun kv => match matchLine (fst kv) l with
                     | None => true
                     | Some _ => false
                     end) ps.

(** No key, taken as a pattern, matches the line of an earlier setting. *)
Fixpoint compatible (ps : list (jsstring * jsstring)) : bool :=
  match ps with
  | [] => true
  | kv :: rest =>
      wellFormed kv && untouched rest (lineOf kv) && compatible rest
  end.

(** A [gradle.properties] that sets Jetifier twice. *)
Definition userProperties : jsstring :=
  joinLines
    [ js "# Project-wide Gradle settings.";
      js "android.enableJetifier=true";
      js "kotlin.code.style=official";
      js "android.enableJetifier=true";
      [] ].

End FlutterStatements.

Section HandlerRuns.
Import Handlers.

(** A templated build that reports progress twice, fails in Gradle, and
    whose error message to the chat fails as well. *)
Definition gradleBreaks : UrlRun :=
  {| urlClock := 1700000000000; urlBusyNotice := inl tt;
     startNotice := inl tt;
     progress := [1700000001000; 1700000031000];
     buildApk := inl (Pipeline.Failure (js "Build gagal"));
     successNotice := inl tt; urlSendDocument := inl tt;
     againNotice := inl tt; sendBuildReport := inl tt;
     urlErrorNotice := inr (js "ETELEGRAM: 400 Bad Request") |}.

End HandlerRuns.

Section PipelinesInHandlers.
Import Handlers.

(** What [await buildApk(...)] gives [confirmBuild] when [buildApk] runs
    as [a] tells. *)
Definition resultOf (a : Apk.ApkRun) : outcome Pipeline.BuildResult :=
  match fst (Apk.buildApk a []) with
  | Normal r | Return r => inl r
  | Throw e => inr e
  end.

Definition withBuild (w : UrlRun) (a : Apk.ApkRun) : UrlRun :=
  {| urlClock := urlClock w; urlBusyNotice := urlBusyNotice w;
     startNotice := startNotice w; progress := progress w;
     buildApk := resultOf a;
     successNotice := successNotice w; urlSendDocument := urlSendDocument w;
     againNotice := againNotice w; sendBuildReport := sendBuildReport w;
     urlErrorNotice := urlErrorNotice w |}.

(** The removal of the uploaded icon, when the session has one. *)
Definition iconRemoval (session : Session) : list Pipeline.FsCall :=
  match iconPath session with
  | Some icon => [Pipeline.Remove icon]
  | None => []
  end.

(** Whether [handleZipUpload] gets as far as sending the APK and
    [sendDocument] goes through. *)
Definition delivered (w : ZipUpload) : bool :=
  match apkSize w, sendingNotice w, zipSendDocument w with
  | inl size, inl _, inl _ => negb (size >? MAX_FILE_SIZE w)
  | _, _, _ => false
  end.

(** A templated build that succeeds. *)
Definition apkBuilt : Apk.ApkRun :=
  {| Apk.buildDir := js "temp/4f1c"; Apk.preparing := inl tt;
     Apk.compiling := inl tt; Apk.gradle := Gradle.Built;
     Apk.located :=
       inl (Some (js "temp/4f1c/app/build/outputs/apk/release/app.apk"));
     Apk.copied := inl (js "output/My_App_1700000000000.apk");
     Apk.finished := inl tt; Apk.removeRejects := false |}.

(** An upload whose build succeeds and whose APK cannot be sent. *)
Definition sendFails : ZipUpload :=
  {| zipClock := 1700000000000; zipBusyNotice := inl tt;
     statusNotice := inl tt; zipRun := smoothRun; localApi := false;
     apkSize := inl (10 * 1024 * 1024); registerBuildForDownload := inl tt;
     linkNotice := inl tt; sendingNotice := inl tt;
     zipSendDocument := inr (js "ETELEGRAM: 413 Request Entity Too Large");
     doneNotice := inl tt; zipErrorNotice := inl tt |}.

End PipelinesInHandlers.

(** ** The progress bar: [progressBar] of [progressUI.js] *)

Module Bar.

(** A count as [Math.round] returns it. *)
Inductive Count :=
| Int (n : Z)
| NotANumber
| Infinite (negative : bool).

(** The double of an integer; exact below 2^53. *)
Definition toNumber (z : Z) : float :=
  if z <? 0 then PrimFloat.opp (PrimFloat.of_uint63 (Uint63.of_Z (- z)))
  else PrimFloat.of_uint63 (Uint63.of_Z z).

(** [Math.round(x)]: the integer closest to [x], the larger one on a
    tie. *)
Definition round (x : float) : Count :=
  match Prim2SF x with
  | S754_zero _ => Int 0
  | S754_finite s m e =>
      let n := if s then Z.neg m else Z.pos m in
      if 0 <=? e then Int (n * 2 ^ e)
      else Int ((2 * n + 2 ^ (- e)) / 2 ^ (- e + 1))
  | S754_nan => NotANumber
  | S754_infinity s => Infinite s
  end.

(** [length - filled]. *)
Definition minus (length : Z) (filled : Count) : Count :=
  match filled with
  | Int n => Int (length - n)
  | NotANumber => NotANumber
  | Infinite s => Infinite (negb s)
  end.

(** [c.repeat(count)] for a string [c] of one code unit: a negative or
    infinite count throws a [RangeError], [NaN] counts as 0. *)
Definition strRepeat (c : N) (count : Count) : outcome jsstring :=
  match count with
  | Int n =>
      if n <? 0 then inr (js "RangeError: Invalid count value")
      else inl (repeat c (Z.to_nat n))
  | NotANumber => inl []
  | Infinite _ => inr (js "RangeError: Invalid count value")
  end.

Definition filledCells (percent length : Z) : Count :=
  round (PrimFloat.mul (PrimFloat.div (toNumber percent) (toNumber 100))
           (toNumber length)).

(** [progressBar(percent, length)]. *)
Definition progressBar (percent length : Z) : outcome jsstring :=
  let filled := filledCells percent length in
  let empty := minus length filled in
  match strRepeat 9608 filled with
  | inl a =>
      match strRepeat 9617 empty with
      | inl b => inl (a ++ b)
      | inr e => inr e
      end
  | inr e => inr e
  end.

End Bar.

Section BarStatements.

(** The percentages the progress callbacks can reach. *)
Definition steps : list Z :=
  List.map (fun k => 5 * Z.of_nat k) (seq 0 21).

End BarStatements.

Section FindApkStatements.
Import Pipeline.

(** The first place [findApk] looks at. *)
Definition standardApk (buildType : jsstring) : Path :=
  [js "app"; js "build"; js "outputs"; js "apk"; buildType;
   js "app-" ++ buildType ++ js ".apk"].

(** A project with a stray APK at its root and the one Gradle built. *)
Definition strayAndBuilt : Node :=
  Dir true
    ((js "old.apk", File)
     :: nest [js "app"; js "build"; js "outputs"; js "apk"; js "release"]
          [(js "app-release.apk", File)]).

End FindApkStatements.

(** ** The name of the application: [handleNameInput] of
    [messageHandler.js] and the file name [buildApk] derives from it *)

Module Wizard.

(** [session.data] and [session.step] of the wizard. *)
Record Data := mkData {
  url : option jsstring;
  appName : option jsstring;
  iconPath : option jsstring
}.

Record Session := mkSession {
  step : jsstring;
  data : Data
}.

(** The message sent back. *)
Inductive Reply :=
| InvalidName
| AskIcon (url : option jsstring) (name : jsstring).

(** [handleNameInput], [text] being [msg.text]: the session it leaves in
    [global.sessions] and the message it sends. *)
Definition handleNameInput (text : option jsstring) (session : Session)
  : Session * Reply :=
  match option_map Progress.trim text with
  | Some (c :: rest) =>
      let name := c :: rest in
      if (length name <? 2)%nat || (30 <? length name)%nat
      then (session, InvalidName)
      else
        ({| step := js "icon";
            data := {| url := url (data session); appName := Some name;
                       iconPath := iconPath (data session) |} |},
         AskIcon (url (data session)) name)
  | _ => (session, InvalidName)
  end.

(** The class [[a-zA-Z0-9]]. *)
Definition isAlnum (c : N) : bool :=
  ((N.leb 48 c && N.leb c 57) || (N.leb 65 c && N.leb c 90)
   || (N.leb 97 c && N.leb c 122))%N.

(** [config.appName.replace(/[^a-zA-Z0-9]/g, '_')]. *)
Definition sanitizedName (appName : jsstring) : jsstring :=
  List.map (fun c => if isAlnum c then c else 95%N) appName.

End Wizard.

(** ** The concurrency governor *)

Section QueueFacts.
Import Queue.

Lemma constructor_clamped (env : option jsstring) :
  1 <= maxConcurrent (constructor env) <= 4.
Proof. unfold constructor; simpl; lia. Qed.

Lemma has_true (q : BuildQueue) (id : Z) :
  has q id = true <-> is_Some (activeBuilds q !! id).
Proof. unfold has. by destruct (activeBuilds q !! id); split. Qed.

Lemma forceRelease_max (id : option Z) (q : BuildQueue) :
  maxConcurrent (forceRelease id q) = maxConcurrent q.
Proof.
  unfold forceRelease. destruct (truthy id); [|done].
  destruct id as [i|]; [|done]. by destruct (has q i).
Qed.

Lemma forceRelease_size (id : option Z) (q : BuildQueue) :
  (size (activeBuilds (forceRelease id q)) <= size (activeBuilds q))%nat.
Proof.
  unfold forceRelease. destruct id as [i|]; simpl.
  - destruct (negb (i =? 0)); simpl; [|rewrite map_size_empty; lia].
    unfold has. destruct (activeBuilds q !! i) eqn:E; simpl; [|done].
    rewrite map_size_delete_Some by eauto. lia.
  - rewrite map_size_empty. lia.
Qed.

Lemma releaseAll_max (l : list Z) (q : BuildQueue) :
  maxConcurrent (releaseAll l q) = maxConcurrent q.
Proof.
  unfold releaseAll. revert q.
  induction l as [|i l IH]; intros q; simpl; [done|].
  rewrite IH. apply forceRelease_max.
Qed.

Lemma releaseAll_size (l : list Z) (q : BuildQueue) :
  (size (activeBuilds (releaseAll l q)) <= size (activeBuilds q))%nat.
Proof.
  unfold releaseAll. revert q.
  induction l as [|i l IH]; intros q; simpl; [done|].
  etrans; [apply IH|]. apply forceRelease_size.
Qed.

Lemma step_max (q : BuildQueue) (op : Op) :
  maxConcurrent (step q op) = maxConcurrent q.
Proof.
  destruct op as [id now|id|id|id now|now]; simpl.
  - unfold acquire. destruct (has q id); [done|].
    by destruct (_ >=? _).
  - unfold release. by destruct (activeBuilds q !! id).
  - apply forceRelease_max.
  - unfold updateActivity. destruct id as [i|]; [|done].
    by destruct (truthy (Some i) && has q i).
  - unfold checkStuckBuilds. destruct (_ =? _)%nat; [done|].
    apply releaseAll_max.
Qed.

Lemma step_within (q : BuildQueue) (op : Op) :
  within q -> within (step q op).
Proof.
  unfold within. intros H. rewrite step_max.
  destruct op as [id now|id|id|id now|now]; simpl.
  - unfold acquire, has. destruct (activeBuilds q !! id) eqn:E; [done|].
    destruct (_ >=? _) eqn:G; [done|]. simpl.
    rewrite map_size_insert_None by done. lia.
  - unfold release. destruct (activeBuilds q !! id) eqn:E; [|done]. simpl.
    rewrite map_size_delete_Some by eauto. lia.
  - pose proof (forceRelease_size id q). lia.
  - unfold updateActivity. destruct id as [i|].
    + destruct (truthy (Some i) && has q i); simpl.
      * rewrite <- (size_dom (D := gset Z)), dom_alter_L, size_dom. lia.
      * rewrite map_size_fmap. lia.
    + simpl. rewrite map_size_fmap. lia.
  - unfold checkStuckBuilds. destruct (_ =? _)%nat; [done|].
    pose proof (releaseAll_size (toRelease now q) q) as Hs.
    unfold releaseAll in Hs. lia.
Qed.

Lemma run_max (ops : list Op) (q : BuildQueue) :
  maxConcurrent (run ops q) = maxConcurrent q.
Proof.
  revert q. induction ops as [|op ops IH]; intros q; simpl; [done|].
  unfold run in IH. rewrite IH. apply step_max.
Qed.

Lemma run_within (ops : list Op) (q : BuildQueue) :
  within q -> within (run ops q).
Proof.
  revert q. induction ops as [|op ops IH]; intros q H; simpl; [done|].
  apply IH, step_within, H.
Qed.

(** C2: whatever [MAX_CONCURRENT_BUILDS] holds (a number, any other text,
    or nothing), after every sequence of [acquire], [release],
    [forceRelease], [updateActivity] and watchdog passes on the queue the
    constructor builds, the number of active slots is at most
    [maxConcurrent], and [maxConcurrent] is an integer between 1 and 4. *)
Theorem capacity_never_exceeded (env : option jsstring) (ops : list Op) :
  Z.of_nat (size (activeBuilds (run ops (constructor env))))
    <= maxConcurrent (run ops (constructor env))
  /\ 1 <= maxConcurrent (run ops (constructor env)) <= 4.
Proof.
  split.
  - apply run_within. unfold within, constructor. simpl.
    rewrite map_size_empty. lia.
  - rewrite run_max. apply constructor_clamped.
Qed.

Lemma acquire_granted_has (id now : Z) (q q' : BuildQueue) :
  acquire id now q = (true, q') -> has q' id = true.
Proof.
  unfold acquire. destruct (has q id); [done|].
  destruct (_ >=? _); [done|]. intros [= <-]. unfold has. simpl.
  by rewrite lookup_insert_eq.
Qed.

Lemma step_keeps_slot (id : Z) (op : Op) (q : BuildQueue) :
  keepsSlot id q op = true -> has q id = true -> has (step q op) id = true.
Proof.
  intros Hop. rewrite !has_true. intros Hin.
  destruct op as [i now|i|i|i now|now]; simpl in *; try done;
    [| | |unfold checkStuckBuilds; destruct (toRelease now q); [|done];
          by destruct (_ =? _)%nat].
  - unfold acquire. destruct (has q i) eqn:Hi; [done|].
    destruct (_ >=? _); [done|]. simpl.
    rewrite lookup_insert_is_Some. destruct (decide (i = id)); auto.
  - unfold release. destruct (activeBuilds q !! i); [|done]. simpl.
    rewrite lookup_delete_ne; [done|]. lia.
  - unfold updateActivity. destruct i as [i|].
    + destruct (truthy (Some i) && has q i); simpl.
      * by rewrite lookup_alter_is_Some.
      * rewrite lookup_fmap. by apply fmap_is_Some.
    + simpl. rewrite lookup_fmap. by apply fmap_is_Some.
Qed.

Lemma run_keeps_slot (id : Z) (ops : list Op) (q : BuildQueue) :
  keepSlot id ops q = true -> has q id = true ->
  has (run ops q) id = true.
Proof.
  revert q. induction ops as [|op ops IH]; intros q Hops Hin; [done|].
  simpl in Hops. apply andb_prop in Hops as [Hop Hops].
  apply IH; [done|]. by apply step_keeps_slot.
Qed.

(** C7: once [acquire(id)] has succeeded, and whatever calls come in
    between other than [release(id)] and [forceRelease] (further
    [acquire], [release] of other chats, [updateActivity], and the
    watchdog passes that find nothing to reclaim and so call no
    [forceRelease]), a second [acquire(id)] returns [false] and leaves the
    queue, hence the slot of [id] with its [startTime] and [lastActivity],
    as it was. *)
Theorem second_acquire_refused (id now now' : Z) (ops : list Op)
    (q q' : BuildQueue) :
  acquire id now q = (true, q') ->
  keepSlot id ops q' = true ->
  acquire id now' (run ops q') = (false, run ops q').
Proof.
  intros Hacq Hops. unfold acquire.
  by rewrite (run_keeps_slot id ops q' Hops
                (acquire_granted_has _ _ _ _ Hacq)).
Qed.

(** C7 at a queue of capacity 2: chat 7 is granted a slot at 100 ms, the
    watchdog passes twice, a minute and two minutes later, another chat
    comes and goes, and chat 7 asks again. *)
Lemma second_acquire_refused_witness :
  acquire 7 130000
    (run [UpdateActivity None 150; Watchdog 60100; Acquire 8 70000;
          Release 8; Watchdog 120100]
       (snd (acquire 7 100 (constructor (Some (js "2"))))))
  = (false,
     run [UpdateActivity None 150; Watchdog 60100; Acquire 8 70000;
          Release 8; Watchdog 120100]
       (snd (acquire 7 100 (constructor (Some (js "2")))))).
Proof.
  apply (second_acquire_refused 7 100 130000 _
           (constructor (Some (js "2")))).
  - reflexivity.
  - vm_compute. reflexivity.
Defined.

(** Outside the chat ids: 0 is falsy, so [updateActivity(0)] takes the
    broadcast branch even when a slot is held under 0, and the slot of
    chat 5 is touched too. The statement does not extend to the id 0. *)
Lemma updateActivity_zero_id_broadcasts : ~ updateActivity_as_stated.
Proof.
  intros H.
  destruct (H 0 9000 (run [Acquire 0 1000; Acquire 5 2000]
                        (constructor (Some (js "2"))))) as [_ Hin].
  destruct Hin as [_ Hframe]; [reflexivity|].
  specialize (Hframe 5 ltac:(lia)). vm_compute in Hframe. discriminate.
Qed.

(** The two branches of [updateActivity(id)]: with an [id] that holds no
    slot, or with the falsy [id] 0, it is the broadcast form and touches
    every slot; with a non-zero [id] that holds a slot it sets the
    [lastActivity] of that slot and leaves every other slot as it was. *)
Lemma updateActivity_targets_or_broadcasts (id now : Z) (q : BuildQueue) :
  (has q id = false \/ id = 0 ->
   updateActivity (Some id) now q = updateActivity None now q
   /\ forall i, activeBuilds (updateActivity (Some id) now q) !! i
               = touch now <$> activeBuilds q !! i) /\
  (has q id = true -> id <> 0 ->
   activeBuilds (updateActivity (Some id) now q) !! id
     = touch now <$> activeBuilds q !! id /\
   forall other, other <> id ->
     activeBuilds (updateActivity (Some id) now q) !! other
     = activeBuilds q !! other).
Proof.
  split.
  - intros H. assert (truthy (Some id) && has q id = false) as E.
    { destruct H as [-> | ->]; [apply andb_false_r | reflexivity]. }
    unfold updateActivity. rewrite E. split; [done|].
    intros i. simpl. apply lookup_fmap.
  - intros Hin Hid. unfold updateActivity. rewrite Hin. simpl.
    destruct (Z.eqb_spec id 0) as [|_]; [done|]. simpl. split.
    + apply lookup_alter_eq.
    + intros other Hne. by apply lookup_alter_ne.
Qed.

(** On the queue holding chats 3 and 7: an update for the absent chat 9
    touches chat 7, an update for chat 3 does not. *)
Lemma updateActivity_targets_or_broadcasts_witness :
  activeBuilds (updateActivity (Some 9) 9999500 oldAndFresh) !! 7
    = Some (mkSlot 9999000 9999500)
  /\ activeBuilds (updateActivity (Some 3) 9999500 oldAndFresh) !! 7
     = Some (mkSlot 9999000 9999000).
Proof.
  split.
  - destruct (updateActivity_targets_or_broadcasts 9 9999500 oldAndFresh)
      as [Habsent _].
    destruct Habsent as [_ Hall]; [left; reflexivity|].
    rewrite Hall. reflexivity.
  - destruct (updateActivity_targets_or_broadcasts 3 9999500 oldAndFresh)
      as [_ Hpresent].
    destruct Hpresent as [_ Hothers]; [reflexivity | lia |].
    rewrite Hothers by lia. reflexivity.
Defined.

(** C10: for a chat id, which is never 0, [updateActivity(id)] with an
    [id] that holds no slot is the no-argument broadcast form, which
    stamps every slot, rather than a no-op; with an [id] that holds a
    slot, it sets the [lastActivity] of that slot and leaves every other
    slot as it was. *)
Theorem updateActivity_on_chat_id (id now : Z) (q : BuildQueue) :
  id <> 0 ->
  (has q id = false ->
   updateActivity (Some id) now q = updateActivity None now q
   /\ forall i, activeBuilds (updateActivity (Some id) now q) !! i
               = touch now <$> activeBuilds q !! i) /\
  (has q id = true ->
   activeBuilds (updateActivity (Some id) now q) !! id
     = touch now <$> activeBuilds q !! id /\
   forall other, other <> id ->
     activeBuilds (updateActivity (Some id) now q) !! other
     = activeBuilds q !! other).
Proof.
  intros Hid.
  destruct (updateActivity_targets_or_broadcasts id now q) as [Hout Hin].
  split; [intros H; apply Hout; by left | intros H; by apply Hin].
Qed.

(** C10 on the queue holding chats 3 and 7: an update for the absent chat
    9 stamps the slot of chat 7, an update for chat 3 leaves it alone. *)
Lemma updateActivity_on_chat_id_witness :
  activeBuilds (updateActivity (Some 9) 9999500 oldAndFresh) !! 7
    = Some (mkSlot 9999000 9999500)
  /\ activeBuilds (updateActivity (Some 3) 9999500 oldAndFresh) !! 7
     = Some (mkSlot 9999000 9999000).
Proof.
  split.
  - destruct (updateActivity_on_chat_id 9 9999500 oldAndFresh)
      as [Habsent _]; [lia|].
    destruct Habsent as [_ Hall]; [reflexivity|].
    rewrite Hall. reflexivity.
  - destruct (updateActivity_on_chat_id 3 9999500 oldAndFresh)
      as [_ Hpresent]; [lia|].
    destruct Hpresent as [_ Hothers]; [reflexivity|].
    rewrite Hothers by lia. reflexivity.
Defined.

Lemma forceRelease_builds (i : Z) (q : BuildQueue) :
  activeBuilds (forceRelease (Some i) q)
  = if i =? 0 then ∅ else delete i (activeBuilds q).
Proof.
  unfold forceRelease, has. simpl. destruct (i =? 0); simpl; [done|].
  destruct (activeBuilds q !! i) eqn:E; simpl; [done|].
  symmetry. by apply delete_id.
Qed.

Lemma releaseAll_lookup (l : list Z) (q : BuildQueue) (id : Z) :
  activeBuilds (releaseAll l q) !! id
  = if existsb (Z.eqb 0) l then None
    else if existsb (Z.eqb id) l then None
    else activeBuilds q !! id.
Proof.
  unfold releaseAll.
  revert q. induction l as [|i l IH]; intros q; cbn [existsb fold_left];
    [done|].
  rewrite IH, forceRelease_builds, (Z.eqb_sym 0 i).
  destruct (i =? 0) eqn:E0; cbn [orb].
  - rewrite lookup_empty. by repeat destruct (existsb _ _).
  - destruct (existsb (Z.eqb 0) l); [done|].
    destruct (Z.eqb_spec id i) as [->|Hne]; cbn [orb].
    + rewrite lookup_delete_eq. by destruct (existsb _ _).
    + rewrite lookup_delete_ne by done. done.
Qed.

Lemma existsb_toRelease (now : Z) (q : BuildQueue) (id : Z) :
  existsb (Z.eqb id) (toRelease now q) = true <->
  exists b, activeBuilds q !! id = Some b /\ isStuck now b = true.
Proof.
  rewrite existsb_exists. unfold toRelease. split.
  - intros (i & Hin & Heq). apply Z.eqb_eq in Heq as <-.
    apply list_elem_of_In, list_elem_of_fmap in Hin as ([i b] & -> & Hin).
    apply list_elem_of_In, filter_In in Hin as [Hin Hst].
    apply list_elem_of_In, elem_of_map_to_list in Hin. eauto.
  - intros (b & Hb & Hst). exists id. split; [|apply Z.eqb_refl].
    apply list_elem_of_In, list_elem_of_fmap. exists (id, b). split; [done|].
    apply list_elem_of_In, filter_In. split; [|done].
    by apply list_elem_of_In, elem_of_map_to_list.
Qed.

Lemma checkStuckBuilds_builds (now : Z) (q : BuildQueue) :
  activeBuilds (checkStuckBuilds now q)
  = activeBuilds (releaseAll (toRelease now q) q).
Proof.
  unfold checkStuckBuilds, releaseAll.
  destruct (Nat.eqb_spec (size (activeBuilds q)) 0) as [E|_]; [|done].
  apply map_size_empty_inv in E. unfold toRelease. rewrite E.
  by rewrite map_to_list_empty.
Qed.

Lemma isStuck_true (now : Z) (b : BuildSlot) :
  lastActivity b <> 0 ->
  isStuck now b = true <->
  now - startTime b > MAX_BUILD_TIME
  \/ now - lastActivity b > INACTIVITY_TIMEOUT.
Proof.
  intros Hl. unfold isStuck, activityOf.
  destruct (Z.eqb_spec (lastActivity b) 0) as [|_]; [done|].
  destruct (Z.gtb_spec (now - startTime b) MAX_BUILD_TIME);
    destruct (Z.gtb_spec (now - lastActivity b) INACTIVITY_TIMEOUT);
    split; intros Hs; first [done | lia | by auto | destruct Hs; lia].
Qed.

(** Outside the chat ids: were a slot held under the falsy id 0 and
    overdue, the watchdog would call [forceRelease(0)], which takes the
    clear-all branch, and the fresh slot of chat 7 would go with it. The
    statement does not extend to queues with a slot under 0. *)
Lemma watchdog_zero_id_clears_all : ~ watchdog_as_stated.
Proof.
  intros H.
  destruct (H 10000000 stuckAndFresh 7 (mkSlot 9999000 9999000))
    as (_ & _ & Hkeep); [reflexivity|].
  assert (activeBuilds (checkStuckBuilds 10000000 stuckAndFresh) !! 7 = None)
    as E by (vm_compute; reflexivity).
  rewrite E in Hkeep.
  discriminate Hkeep; simpl; unfold MAX_BUILD_TIME, INACTIVITY_TIMEOUT; lia.
Qed.

(** One watchdog pass at [now] on any queue: a slot with
    [now - startTime] above 45 minutes is gone, whatever its
    [lastActivity]; a slot with a non-zero [lastActivity] more than 10
    minutes old is gone; and a slot with a non-zero [lastActivity] that
    meets neither condition is still there, unchanged, provided the pass
    reclaims no slot held under the falsy id 0. *)
Lemma watchdog_pass (now : Z) (q : BuildQueue) (id : Z) (b : BuildSlot) :
  activeBuilds q !! id = Some b ->
  (now - startTime b > MAX_BUILD_TIME ->
   activeBuilds (checkStuckBuilds now q) !! id = None) /\
  (lastActivity b <> 0 ->
   now - lastActivity b > INACTIVITY_TIMEOUT ->
   now - startTime b <= MAX_BUILD_TIME ->
   activeBuilds (checkStuckBuilds now q) !! id = None) /\
  (lastActivity b <> 0 ->
   ~ now - startTime b > MAX_BUILD_TIME ->
   ~ now - lastActivity b > INACTIVITY_TIMEOUT ->
   (forall b0, activeBuilds q !! 0 = Some b0 -> isStuck now b0 = false) ->
   activeBuilds (checkStuckBuilds now q) !! id = Some b).
Proof.
  intros Hb. rewrite checkStuckBuilds_builds, releaseAll_lookup.
  split; [|split].
  - intros Hmax.
    assert (existsb (Z.eqb id) (toRelease now q) = true) as ->.
    { apply existsb_toRelease. exists b. split; [done|]. unfold isStuck.
      destruct (Z.gtb_spec (now - startTime b) MAX_BUILD_TIME); [done|lia]. }
    by destruct (existsb _ _).
  - intros Hl Hin _.
    assert (existsb (Z.eqb id) (toRelease now q) = true) as ->.
    { apply existsb_toRelease. exists b. split; [done|].
      apply isStuck_true; auto. }
    by destruct (existsb _ _).
  - intros Hl Hmax Hin H0.
    destruct (existsb (Z.eqb 0) _) eqn:E0.
    { apply existsb_toRelease in E0 as (b0 & Hb0 & Hst).
      rewrite (H0 b0 Hb0) in Hst. done. }
    destruct (existsb (Z.eqb id) _) eqn:E; [|done].
    apply existsb_toRelease in E as (b' & Hb' & Hst).
    rewrite Hb in Hb'. injection Hb' as <-.
    apply isStuck_true in Hst; [|done]. tauto.
Qed.

(** On the queue holding chats 3 and 7: the overdue slot of chat 3 is
    reclaimed and the fresh slot of chat 7 stays. *)
Lemma watchdog_pass_witness :
  activeBuilds (checkStuckBuilds 10000000 oldAndFresh) !! 3 = None
  /\ activeBuilds (checkStuckBuilds 10000000 oldAndFresh) !! 7
     = Some (mkSlot 9999000 9999000).
Proof.
  split.
  - destruct (watchdog_pass 10000000 oldAndFresh 3 (mkSlot 1000 1000))
      as [Hold _]; [reflexivity|].
    apply Hold. unfold MAX_BUILD_TIME. simpl. lia.
  - destruct (watchdog_pass 10000000 oldAndFresh 7 (mkSlot 9999000 9999000))
      as (_ & _ & Hfresh); [reflexivity|].
    apply Hfresh.
    + simpl. lia.
    + unfold MAX_BUILD_TIME. simpl. lia.
    + unfold INACTIVITY_TIMEOUT. simpl. lia.
    + intros b0 Hb0. vm_compute in Hb0. discriminate Hb0.
Defined.

Lemma forceRelease_chatSlots (id : option Z) (q : BuildQueue) :
  chatSlots q -> chatSlots (forceRelease id q).
Proof.
  unfold chatSlots, forceRelease. intros H.
  destruct (truthy id); [|apply map_Forall_empty].
  destruct id as [i|]; [|done].
  destruct (has q i); [|done]. by apply map_Forall_delete.
Qed.

Lemma releaseAll_chatSlots (l : list Z) (q : BuildQueue) :
  chatSlots q -> chatSlots (releaseAll l q).
Proof.
  unfold releaseAll. revert q.
  induction l as [|i l IH]; intros q H; [done|].
  simpl. by apply IH, forceRelease_chatSlots.
Qed.

Lemma step_chatSlots (q : BuildQueue) (op : Op) :
  validCall op = true -> chatSlots q -> chatSlots (step q op).
Proof.
  intros Hop H. destruct op as [id now|id|id|id now|now]; simpl in *.
  - apply andb_prop in Hop as [Hid Hnow].
    apply negb_true_iff, Z.eqb_neq in Hid, Hnow.
    unfold acquire. destruct (has q id); [done|].
    destruct (_ >=? _); [done|]. by apply map_Forall_insert_2.
  - unfold release. destruct (activeBuilds q !! id); [|done].
    by apply map_Forall_delete.
  - by apply forceRelease_chatSlots.
  - apply negb_true_iff, Z.eqb_neq in Hop.
    assert (chatSlots (withBuilds q (touch now <$> activeBuilds q)))
      as Hall.
    { intros i b. simpl. rewrite lookup_fmap.
      destruct (activeBuilds q !! i) as [b0|] eqn:E; [|done].
      intros [= <-]. split; [|done]. by destruct (H i b0 E). }
    unfold updateActivity. destruct id as [i|]; [|done].
    destruct (truthy (Some i) && has q i); [|done].
    intros j b. simpl. destruct (decide (j = i)) as [->|Hne].
    + rewrite lookup_alter_eq.
      destruct (activeBuilds q !! i) as [b0|] eqn:E; [|done].
      intros [= <-]. split; [|done]. by destruct (H i b0 E).
    + rewrite lookup_alter_ne by done. apply H.
  - unfold checkStuckBuilds. destruct (_ =? _)%nat; [done|].
    by apply (releaseAll_chatSlots (toRelease now q) q).
Qed.

Lemma run_chatSlots (env : option jsstring) (ops : list Op) :
  forallb validCall ops = true -> chatSlots (run ops (constructor env)).
Proof.
  assert (chatSlots (constructor env)) as H0 by apply map_Forall_empty.
  revert H0. generalize (constructor env) as q.
  induction ops as [|op ops IH]; intros q Hq Hops; [done|].
  simpl in Hops. apply andb_prop in Hops as [Hop Hops].
  apply IH; [|done]. by apply step_chatSlots.
Qed.

(** C4: on a queue as the calls of the bot build it, chat ids and clock
    readings being never 0, after one watchdog pass at [now] every slot
    with [now - startTime] above 45 minutes is gone, whatever its
    [lastActivity]; every slot with [now - lastActivity] above 10 minutes
    and [now - startTime] at most 45 minutes is gone; and every slot that
    meets neither condition is still in the map, unchanged. *)
Theorem watchdog_pass_on_chat_slots (env : option jsstring) (ops : list Op)
    (now id : Z) (b : BuildSlot) :
  forallb validCall ops = true ->
  activeBuilds (run ops (constructor env)) !! id = Some b ->
  (now - startTime b > MAX_BUILD_TIME ->
   activeBuilds (checkStuckBuilds now (run ops (constructor env))) !! id
   = None) /\
  (now - lastActivity b > INACTIVITY_TIMEOUT ->
   now - startTime b <= MAX_BUILD_TIME ->
   activeBuilds (checkStuckBuilds now (run ops (constructor env))) !! id
   = None) /\
  (~ now - startTime b > MAX_BUILD_TIME ->
   ~ now - lastActivity b > INACTIVITY_TIMEOUT ->
   activeBuilds (checkStuckBuilds now (run ops (constructor env))) !! id
   = Some b).
Proof.
  intros Hops Hb. pose proof (run_chatSlots env ops Hops) as Hq.
  destruct (Hq id b Hb) as [_ Hl].
  destruct (watchdog_pass now _ id b Hb) as (Hold & Hidle & Hfresh).
  split; [done|]. split; [by apply Hidle|].
  intros Hmax Hin. apply Hfresh; try done.
  intros b0 Hb0. by destruct (Hq 0 b0 Hb0).
Qed.

(** C4 on the queue holding chats 3 and 7, at 10000 s: the slot of chat 3,
    started at 1 s, is reclaimed, and the slot of chat 7, started a
    second before the pass, stays as it is. *)
Lemma watchdog_pass_on_chat_slots_witness :
  activeBuilds (checkStuckBuilds 10000000 oldAndFresh) !! 3 = None
  /\ activeBuilds (checkStuckBuilds 10000000 oldAndFresh) !! 7
     = Some (mkSlot 9999000 9999000).
Proof.
  split.
  - destruct (watchdog_pass_on_chat_slots (Some (js "2"))
                [Acquire 3 1000; Acquire 7 9999000] 10000000 3
                (mkSlot 1000 1000)) as [Hold _]; [reflexivity..|].
    apply Hold. unfold MAX_BUILD_TIME. simpl. lia.
  - destruct (watchdog_pass_on_chat_slots (Some (js "2"))
                [Acquire 3 1000; Acquire 7 9999000] 10000000 7
                (mkSlot 9999000 9999000)) as (_ & _ & Hfresh);
      [reflexivity..|].
    apply Hfresh.
    + unfold MAX_BUILD_TIME. simpl. lia.
    + unfold INACTIVITY_TIMEOUT. simpl. lia.
Defined.

End QueueFacts.

(** ** The process supervisor *)

Section SupervisorFacts.
Import Supervisor.

(** C3 as stated fails: [runCommand] takes no timeout configuration and
    compares the clock with the time of the last output only, so for any
    would-be absolute duration a process that has just written a chunk
    passes the poll, however long ago it was spawned. *)
Lemma chatty_process_outlives_any_deadline : ~ absolute_timeout_as_stated.
Proof.
  intros (c & duration & H).
  specialize (H 0 [StdoutData (Z.max duration 0 + 1) (js "tick")]
                (Z.max duration 0 + 1) eq_refl ltac:(lia)).
  unfold runCommand in H. cbn [fold_left app handle] in H.
  unfold onTimer in H. cbn [onStdout timeoutCheck spawn lastActivity] in H.
  rewrite Z.sub_diag in H. by destruct H.
Qed.

Lemma data_events_state (c : Call) (events : list Event) (p : Proc) :
  forallb isData events = true -> quiet p ->
  quiet (fold_left (handle c) events p)
  /\ lastActivity (fold_left (handle c) events p)
     = lastData (lastActivity p) events.
Proof.
  revert p. induction events as [|e events IH]; intros p Hd Hq; [done|].
  simpl in Hd. apply andb_prop in Hd as [He Hd].
  destruct e as [t text|t text| | |]; try done.
  - exact (IH (onStdout c t text p) Hd Hq).
  - exact (IH (onStderr c t text p) Hd Hq).
Qed.

Lemma gradle_data_events_state (events : list Gradle.Event)
    (p : Gradle.Proc) :
  forallb isGradleData events = true -> gradleQuiet p ->
  gradleQuiet (fold_left Gradle.handle events p)
  /\ Gradle.buildStartTime (fold_left Gradle.handle events p)
     = Gradle.buildStartTime p.
Proof.
  revert p. induction events as [|e events IH]; intros p Hd Hq; [done|].
  simpl in Hd. apply andb_prop in Hd as [He Hd].
  destruct e as [text|text| | |]; try done.
  - exact (IH (Gradle.onStdout text p) Hd Hq).
  - exact (IH (Gradle.onStderr text p) Hd Hq).
Qed.

(** C3, amended: the absolute-from-start policy is the one of [runGradle],
    the supervisor of the templated build, with a fixed duration of 30
    minutes: at a poll of a process that has only produced output so far,
    if more than 30 minutes have passed since the spawn the process is
    sent [SIGKILL], the timer is cleared and the call resolves with a
    failure carrying the timeout message, and a later [close] changes
    nothing; before that the poll does nothing. [runCommand] enforces an
    inactivity window of 30 minutes instead, the same for every call: at a
    poll, if more than 30 minutes have passed since the last chunk (since
    the spawn when there is none) the process is sent [SIGTERM], the timer
    is cleared and the call rejects with the timeout message; otherwise
    nothing happens, whatever the time since the spawn. *)
Theorem timeout_policies (c : Call) (start now : Z) (events : list Event)
    (gradleEvents : list Gradle.Event) (code : option Z) :
  forallb isData events = true ->
  forallb isGradleData gradleEvents = true ->
  ((now - start > Gradle.TIMEOUT_MS ->
    Gradle.killed
      (Gradle.runGradle start (gradleEvents ++ [Gradle.TimerTick now]))
    = Some SIGKILL
    /\ Gradle.promise
         (Gradle.runGradle start (gradleEvents ++ [Gradle.TimerTick now]))
       = Some (Gradle.Failed Gradle.timeoutText)
    /\ Gradle.timeoutCheck
         (Gradle.runGradle start (gradleEvents ++ [Gradle.TimerTick now]))
       = false
    /\ Gradle.promise
         (Gradle.runGradle start
            (gradleEvents ++ [Gradle.TimerTick now; Gradle.Close code]))
       = Some (Gradle.Failed Gradle.timeoutText))
   /\ (now - start <= Gradle.TIMEOUT_MS ->
       Gradle.runGradle start (gradleEvents ++ [Gradle.TimerTick now])
       = Gradle.runGradle start gradleEvents))
  /\
  ((now - lastData start events > TIMEOUT_MS ->
    killed (runCommand c start (events ++ [TimerTick now])) = Some SIGTERM
    /\ promise (runCommand c start (events ++ [TimerTick now]))
       = Rejected (js "Build timeout (30 minutes of inactivity)")
    /\ timeoutCheck (runCommand c start (events ++ [TimerTick now])) = false)
   /\ (now - lastData start events <= TIMEOUT_MS ->
       runCommand c start (events ++ [TimerTick now])
       = runCommand c start events)).
Proof.
  intros Hd Hg. split.
  - unfold Gradle.runGradle. rewrite !fold_left_app.
    cbn [fold_left Gradle.handle].
    destruct (gradle_data_events_state gradleEvents (Gradle.spawn start) Hg)
      as [(Hp & Ht & Hk) Hs]; [done|].
    cbn [Gradle.spawn Gradle.buildStartTime] in Hs.
    unfold Gradle.onTimer. rewrite Ht, Hs.
    split; intros Hnow.
    + destruct (Z.gtb_spec (now - start) Gradle.TIMEOUT_MS); [|lia].
      unfold Gradle.onClose, Gradle.clearTimer, Gradle.resolve. cbn.
      rewrite Hp. by destruct code as [[| |]|].
    + by destruct (Z.gtb_spec (now - start) Gradle.TIMEOUT_MS); [lia|].
  - unfold runCommand. rewrite fold_left_app. cbn [fold_left handle].
    destruct (data_events_state c events (spawn start) Hd)
      as [(Hp & Ht & Hk) Hl]; [done|].
    cbn [spawn lastActivity] in Hl. unfold onTimer. rewrite Ht, Hl.
    split; intros Hnow.
    + destruct (Z.gtb_spec (now - lastData start events) TIMEOUT_MS); [|lia].
      unfold settle. cbn. rewrite Hp. done.
    + by destruct (Z.gtb_spec (now - lastData start events) TIMEOUT_MS);
        [lia|].
Qed.

(** C3, amended, 100 minutes after the spawn of two processes that wrote
    a chunk a minute before the poll: the one under [runGradle] is sent
    [SIGKILL], the one under [runCommand] is left alone; the latter is
    sent [SIGTERM] at a poll 31 minutes after its last chunk. *)
Lemma timeout_policies_witness :
  Gradle.killed
    (Gradle.runGradle 0
       ([Gradle.StdoutData (js "> Task :app:compile")]
          ++ [Gradle.TimerTick 6000000])) = Some SIGKILL
  /\ killed (runCommand (mkCall false (js "logs/build_1.log")) 0
               ([StdoutData 5940000 (js "Compiling")] ++ [TimerTick 6000000]))
     = None
  /\ killed (runCommand (mkCall false (js "logs/build_1.log")) 0
               ([StdoutData 60000 (js "Resolving")] ++ [TimerTick 1920000]))
     = Some SIGTERM.
Proof.
  split; [|split].
  - destruct (timeout_policies (mkCall false (js "logs/build_1.log"))
                0 6000000 [StdoutData 5940000 (js "Compiling")]
                [Gradle.StdoutData (js "> Task :app:compile")] None
                eq_refl eq_refl) as [[Hover _] _].
    destruct Hover as [Hk _]; [unfold Gradle.TIMEOUT_MS; simpl; lia|].
    exact Hk.
  - destruct (timeout_policies (mkCall false (js "logs/build_1.log"))
                0 6000000 [StdoutData 5940000 (js "Compiling")]
                [Gradle.StdoutData (js "> Task :app:compile")] None
                eq_refl eq_refl) as [_ [_ Hrecent]].
    rewrite Hrecent; [reflexivity | unfold TIMEOUT_MS; simpl; lia].
  - destruct (timeout_policies (mkCall false (js "logs/build_1.log"))
                0 1920000 [StdoutData 60000 (js "Resolving")]
                [] None eq_refl eq_refl) as [_ [Hsilent _]].
    destruct Hsilent as [Hk _]; [unfold TIMEOUT_MS; simpl; lia|].
    exact Hk.
Defined.

Lemma startsWith_spec (p s : jsstring) :
  startsWithBy cu_eqb p s = true <-> exists post, s = p ++ post.
Proof.
  revert s. induction p as [|a p IH]; intros s; simpl.
  - split; [intros _; by exists s | done].
  - destruct s as [|b s]; simpl.
    + split; [done | intros [post H]; discriminate].
    + unfold cu_eqb at 1. rewrite andb_true_iff, N.eqb_eq, IH. split.
      * intros [-> [post ->]]. by exists post.
      * intros [post [= -> ->]]. split; [done | by exists post].
Qed.

Lemma includes_spec (s p : jsstring) :
  includes s p = true <-> exists pre post, s = pre ++ p ++ post.
Proof.
  unfold includes. induction s as [|b s IH]; simpl.
  - rewrite orb_false_r, startsWith_spec. split.
    + intros [post H]. by exists [], post.
    + intros (pre & post & H). destruct pre; [by exists post|discriminate].
  - rewrite orb_true_iff, startsWith_spec, IH. split.
    + intros [[post H] | (pre & post & H)].
      * by exists [], post.
      * exists (b :: pre), post. by rewrite H.
    + intros (pre & post & H). destruct pre as [|b' pre].
      * left. by exists post.
      * right. injection H as -> ->. by exists pre, post.
Qed.

Lemma importantStderr_spec (text : jsstring) :
  importantStderr text = true
  <-> hasWord [js "error"; js "Error"; js "Exception"] text.
Proof.
  unfold importantStderr, hasWord.
  rewrite !orb_true_iff, !includes_spec. split.
  - intros [[(pre & post & H) | (pre & post & H)] | (pre & post & H)];
      eexists pre, _, post; (split; [|exact H]); simpl; auto.
  - intros (pre & word & post & Hin & H). simpl in Hin.
    destruct Hin as [<- | [<- | [<- | []]]]; eauto.
Qed.

Lemma startsWith_ci_weaken (p s : jsstring) :
  startsWithBy cu_eqb p s = true -> startsWithBy cu_eqb_ci p s = true.
Proof.
  revert s. induction p as [|a p IH]; intros [|b s]; simpl; try done.
  rewrite !andb_true_iff. intros [Hab Hps]. split; [|by apply IH].
  apply N.eqb_eq in Hab as ->. apply N.eqb_refl.
Qed.

Lemma startsWith_ci_fold (p p' s : jsstring) :
  List.map lowerAscii p = List.map lowerAscii p' ->
  startsWithBy cu_eqb_ci p s = startsWithBy cu_eqb_ci p' s.
Proof.
  revert p' s. induction p as [|a p IH]; intros [|a' p'] s; simpl; try done.
  intros [= Ha Hp]. destruct s as [|b s]; [done|].
  unfold cu_eqb_ci at 1 3. rewrite Ha. f_equal. by apply IH.
Qed.

Lemma includes_ci_weaken (p s : jsstring) :
  includesBy cu_eqb p s = true -> includesBy cu_eqb_ci p s = true.
Proof.
  induction s as [|b s IH]; simpl; rewrite !orb_true_iff.
  - intros [H | H]; [left; by apply startsWith_ci_weaken | done].
  - intros [H | H]; [left; by apply startsWith_ci_weaken | right; auto].
Qed.

Lemma includes_ci_fold (p p' s : jsstring) :
  List.map lowerAscii p = List.map lowerAscii p' ->
  includesBy cu_eqb_ci p s = includesBy cu_eqb_ci p' s.
Proof.
  intros H. induction s as [|b s IH]; simpl.
  - by rewrite (startsWith_ci_fold p p').
  - by rewrite (startsWith_ci_fold p p'), IH.
Qed.

Lemma important_within_spec (text : jsstring) :
  importantStderr text = true -> specForwardsStderr text = true.
Proof.
  unfold importantStderr, specForwardsStderr, includes.
  rewrite !orb_true_iff. intros [[H | H] | H].
  - left. by apply includes_ci_weaken.
  - left. rewrite (includes_ci_fold (js "error") (js "Error")) by reflexivity.
    by apply includes_ci_weaken.
  - right.
    rewrite (includes_ci_fold (js "exception") (js "Exception"))
      by reflexivity.
    by apply includes_ci_weaken.
Qed.

(** C5 as stated fails: the chunk "ERROR: disk full" contains "error" when
    case is ignored, yet none of the three literals the code looks for, and
    it is not forwarded. *)
Lemma uppercase_error_not_forwarded : ~ stderr_forwarding_as_stated.
Proof.
  intros H.
  specialize (H (mkCall true (js "logs/build_1.log")) 5
                (js "ERROR: disk full") (spawn 0) eq_refl).
  vm_compute in H. discriminate H.
Qed.

(** C5, amended: with a callback supplied, a stderr chunk is forwarded, as
    "[!] " followed by its first 150 code units, exactly when it contains
    one of the substrings "error", "Error" or "Exception" in that very
    case; in particular a chunk with no "error" and no "exception" in any
    case is never forwarded. *)
Theorem stderr_forwarded_on_exact_words (c : Call) (now : Z)
    (text : jsstring) (p : Proc) :
  onOutput c = true ->
  (hasWord [js "error"; js "Error"; js "Exception"] text ->
   forwarded (onStderr c now text p)
   = forwarded p ++ [js "[!] " ++ substring0 150 text])
  /\ (~ hasWord [js "error"; js "Error"; js "Exception"] text ->
      forwarded (onStderr c now text p) = forwarded p)
  /\ (specForwardsStderr text = false ->
      forwarded (onStderr c now text p) = forwarded p).
Proof.
  intros Hc. unfold onStderr. cbn [forwarded]. rewrite Hc. cbn [andb].
  split; [|split].
  - intros H. apply importantStderr_spec in H. by rewrite H.
  - intros H. destruct (importantStderr text) eqn:E; [|done].
    by apply importantStderr_spec in E.
  - intros H. destruct (importantStderr text) eqn:E; [|done].
    apply important_within_spec in E. congruence.
Qed.

(** C5, amended, on two chunks: one naming an "Error" is forwarded, a
    deprecation warning is not. *)
Lemma stderr_forwarded_on_exact_words_witness :
  forwarded (onStderr (mkCall true (js "logs/build_1.log")) 30
               (js "Gradle Error: daemon disappeared") twoLines)
    = [js "Downloading dependencies";
       js "[!] Gradle Error: daemon disappeared"]
  /\ forwarded (onStderr (mkCall true (js "logs/build_1.log")) 30
                  (js "warning: API is deprecated") twoLines)
     = [js "Downloading dependencies"].
Proof.
  split.
  - destruct (stderr_forwarded_on_exact_words
                (mkCall true (js "logs/build_1.log")) 30
                (js "Gradle Error: daemon disappeared") twoLines eq_refl)
      as [Hword _].
    rewrite Hword; [reflexivity|].
    exists (js "Gradle "), (js "Error"), (js ": daemon disappeared").
    split; [right; left; reflexivity | reflexivity].
  - destruct (stderr_forwarded_on_exact_words
                (mkCall true (js "logs/build_1.log")) 30
                (js "warning: API is deprecated") twoLines eq_refl)
      as (_ & _ & Hnone).
    rewrite Hnone; reflexivity.
Defined.

Lemma matchAll_none (p : Pattern) (s : jsstring) :
  literalOf p <> [] ->
  matchAll p s 0 = [] <-> includesBy (eqbOf p) (literalOf p) s = false.
Proof.
  intros Hlit. induction s as [|b s IH]; cbn [matchAll includesBy].
  - destruct (literalOf p); [done|]. by simpl.
  - unfold matchHere.
    destruct (startsWithBy (eqbOf p) (literalOf p) (b :: s)); simpl; [done|].
    exact IH.
Qed.

Lemma collectMatches_none (allOutput : jsstring) :
  noPatternMatches allOutput -> collectMatches allOutput = [].
Proof.
  unfold noPatternMatches, collectMatches.
  induction errorPatterns as [|p ps IH]; intros H; simpl; [done|].
  rewrite (H p) by (by left). apply IH. intros q Hq. apply H. by right.
Qed.

Lemma sliceLast_nonempty {A} (n : nat) (l : list A) :
  l <> [] -> (0 < n)%nat -> sliceLast n l <> [].
Proof.
  intros Hl Hn Hs. apply (f_equal (@length A)) in Hs.
  unfold sliceLast in Hs. rewrite length_skipn in Hs. simpl in Hs.
  destruct l; [done|]. simpl in Hs. lia.
Qed.

Lemma sliceLast_incl {A} (n : nat) (l : list A) (x : A) :
  In x (sliceLast n l) -> In x l.
Proof.
  unfold sliceLast. intros H. rewrite <- (firstn_skipn (length l - n) l).
  apply in_or_app. by right.
Qed.

Lemma nonBlank_nonempty (l : jsstring) : nonBlank l = true -> l <> [].
Proof. by destruct l. Qed.

Lemma joinLines_nonempty (ls : list jsstring) :
  ls <> [] -> (forall l, In l ls -> l <> []) -> joinLines ls <> [].
Proof.
  destruct ls as [|l ls]; [done|]. intros _ H.
  assert (l <> []) as Hl by (apply H; by left).
  destruct l as [|c l]; [done|]. by destruct ls.
Qed.

Lemma splitLines_line (l : jsstring) : ~ In 10%N l -> splitLines l = [l].
Proof.
  induction l as [|c l IH]; [done|]. intros H. cbn [splitLines].
  destruct (N.eqb_spec c 10) as [->|_]; [destruct H; by left|].
  rewrite IH; [done|]. intros Hin. apply H. by right.
Qed.

Lemma splitLines_app_line (l t : jsstring) :
  ~ In 10%N l -> splitLines (l ++ 10%N :: t) = l :: splitLines t.
Proof.
  induction l as [|c l IH]; [done|]. intros H. cbn [app splitLines].
  destruct (N.eqb_spec c 10) as [->|_]; [destruct H; by left|].
  rewrite IH; [done|]. intros Hin. apply H. by right.
Qed.

Lemma splitLines_joinLines (ls : list jsstring) :
  ls <> [] -> Forall (fun l => ~ In 10%N l) ls ->
  splitLines (joinLines ls) = ls.
Proof.
  induction ls as [|l ls IH]; [done|]. intros _ H.
  apply Forall_cons in H as [Hl Hls]. destruct ls as [|l' ls].
  - by apply splitLines_line.
  - change (joinLines (l :: l' :: ls))
      with (l ++ 10%N :: joinLines (l' :: ls)).
    rewrite splitLines_app_line by done. f_equal. by apply IH.
Qed.

Lemma splitLines_nonempty (s : jsstring) : splitLines s <> [].
Proof.
  induction s as [|c s IH]; [done|]. cbn [splitLines].
  destruct (c =? 10)%N; [done|]. by destruct (splitLines s).
Qed.

Lemma joinLines_splitLines (s : jsstring) : joinLines (splitLines s) = s.
Proof.
  induction s as [|c s IH]; [done|]. cbn [splitLines].
  pose proof (splitLines_nonempty s) as Hne.
  destruct (N.eqb_spec c 10) as [->|_];
    destruct (splitLines s) as [|l ls]; try done.
  - cbn [joinLines app]. destruct ls; by rewrite <- IH.
  - rewrite <- IH. by destruct ls.
Qed.

Lemma splitLines_no_newline (s : jsstring) :
  Forall (fun l => ~ In 10%N l) (splitLines s).
Proof.
  induction s as [|c s IH]; cbn [splitLines].
  - apply Forall_cons. split; [by intros []|]. apply List.Forall_nil.
  - destruct (N.eqb_spec c 10) as [->|Hc].
    + apply Forall_cons. split; [by intros []|done].
    + destruct (splitLines s) as [|l ls].
      * apply Forall_cons. split; [|apply List.Forall_nil].
        intros [H | []]. by symmetry in H.
      * apply Forall_cons in IH as [Hl Hls]. apply Forall_cons.
        split; [|done]. intros [H | H]; [by symmetry in H | done].
Qed.

Lemma blank_nonBlank (l : jsstring) : blank l <-> nonBlank l = false.
Proof.
  unfold blank, nonBlank. induction l as [|c l IH]; simpl.
  - split; [done|]. intros _. apply List.Forall_nil.
  - rewrite Forall_cons, IH, orb_false_iff, negb_false_iff. done.
Qed.

Lemma nonBlankOf_filter (ls nb : list jsstring) :
  nonBlankOf ls nb -> nb = List.filter nonBlank ls.
Proof.
  induction 1 as [|l ls nb Hb _ IH|l ls nb Hb _ IH]; [done| |]; simpl.
  - apply blank_nonBlank in Hb. by rewrite Hb.
  - destruct (nonBlank l) eqn:E; [by f_equal|].
    destruct Hb. by apply blank_nonBlank.
Qed.

Lemma nonBlankOf_total (ls : list jsstring) :
  nonBlankOf ls (List.filter nonBlank ls).
Proof.
  induction ls as [|l ls IH]; [constructor|]. simpl.
  destruct (nonBlank l) eqn:E.
  - apply nonBlankOf_keep; [|done]. rewrite blank_nonBlank. congruence.
  - apply nonBlankOf_skip; [|done]. by apply blank_nonBlank.
Qed.

Lemma lastOnes_sliceLast {A} (n : nat) (l kept : list A) :
  lastOnes n l kept -> kept = sliceLast n l.
Proof.
  intros (dropped & -> & [Hn | [-> Hn]]); unfold sliceLast.
  - rewrite length_app, Hn, Nat.add_sub.
    by rewrite skipn_app, skipn_all, Nat.sub_diag.
  - simpl. by replace (length kept - n)%nat with 0%nat by lia.
Qed.

Lemma lastOnes_total {A} (n : nat) (l : list A) :
  lastOnes n l (sliceLast n l).
Proof.
  unfold sliceLast. exists (firstn (length l - n) l).
  split; [by rewrite firstn_skipn|]. rewrite length_skipn.
  destruct (Nat.le_gt_cases n (length l)) as [H|H]; [left; lia|].
  right. replace (length l - n)%nat with 0%nat by lia. split; [done|lia].
Qed.

Lemma last20NonBlank_lastLines (s : jsstring) (kept : list jsstring) :
  last20NonBlank s kept -> kept = lastLines s.
Proof.
  intros (ls & nb & (Hne & <- & Hls) & Hnb & Hlast). unfold lastLines.
  rewrite splitLines_joinLines by done.
  apply nonBlankOf_filter in Hnb as ->. by apply lastOnes_sliceLast.
Qed.

Lemma last20NonBlank_total (s : jsstring) : last20NonBlank s (lastLines s).
Proof.
  exists (splitLines s), (List.filter nonBlank (splitLines s)).
  split; [|split].
  - split; [apply splitLines_nonempty|]. split.
    + apply joinLines_splitLines.
    + apply splitLines_no_newline.
  - apply nonBlankOf_total.
  - apply lastOnes_total.
Qed.

Lemma lastLines_joined (allOutput : jsstring) :
  lastLines allOutput <> [] ->
  isEmpty (joinLines (lastLines allOutput)) = false.
Proof.
  intros Hne.
  assert (joinLines (lastLines allOutput) <> []) as H.
  { apply joinLines_nonempty; [done|].
    intros l' Hl'. apply sliceLast_incl, filter_In in Hl' as [_ Hl'].
    by apply nonBlank_nonempty. }
  by destruct (joinLines _).
Qed.

Lemma close_settles (c : Call) (code : option Z) (p : Proc) :
  code <> Some 0 ->
  promise (onClose c code p)
  = match promise p with
    | Pending =>
        Rejected (errorMessage (logFile c) (stdout p) (stderr p) code)
    | settled => settled
    end.
Proof.
  intros Hcode. unfold onClose, clearTimer, settle. cbn [promise].
  destruct code as [[| |]|]; try done; cbn [promise];
    by destruct (promise p).
Qed.

Lemma no_pattern_on (allOutput : jsstring) :
  Forall (fun p => matchAll p allOutput 0 = []) errorPatterns ->
  noPatternMatches allOutput.
Proof. intros H p Hp. by apply (proj1 (List.Forall_forall _ _) H). Qed.

(** C8 as stated fails, in two ways. A command that exits with code 1
    without having written anything has no non-blank line to report, and
    the rejection reads "Build failed with code 1" before the pointer to
    the log. And a command that the poll has ended for inactivity has its
    promise rejected already: when it then closes, with code 143 say, the
    rejection keeps the text of the timeout, although no pattern matches
    its output and its last non-blank line is there to report. *)
Lemma fallback_fails_when_silent_or_settled :
  ~ fallback_as_stated
  /\ (noPatternMatches (stdout timedOut ++ 10%N :: stderr timedOut)
      /\ last20NonBlank (stdout timedOut ++ 10%N :: stderr timedOut)
           [js "Resolving dependencies"]
      /\ promise (onClose (mkCall false (js "logs/build_2.log")) (Some 143)
                    timedOut)
         = Rejected (js "Build timeout (30 minutes of inactivity)")).
Proof.
  split; [|split; [|split]].
  - intros H.
    specialize (H (mkCall false (js "logs/build_1.log")) (Some 1) (spawn 0)
                  (lastLines [10%N]) ltac:(done)).
    assert (noPatternMatches (stdout (spawn 0) ++ 10%N :: stderr (spawn 0)))
      as Hno.
    { apply no_pattern_on;
      repeat (apply List.Forall_cons; [vm_compute; reflexivity|]);
      apply List.Forall_nil. }
    specialize (H Hno (last20NonBlank_total _)).
    vm_compute in H. discriminate H.
  - apply no_pattern_on;
    repeat (apply List.Forall_cons; [vm_compute; reflexivity|]);
    apply List.Forall_nil.
  - assert (lastLines (stdout timedOut ++ 10%N :: stderr timedOut)
            = [js "Resolving dependencies"]) as <-
      by (vm_compute; reflexivity).
    apply last20NonBlank_total.
  - vm_compute. reflexivity.
Qed.

(** C8, amended: when a command closes with a code other than 0 and no
    error pattern matches the combined output [stdout + '\n' + stderr],
    the last 20 non-blank lines of that output are well defined, and, if
    the promise is still pending, the rejection message is: when there is
    a non-blank line, those lines joined by newlines, cut to 1500 code
    units, followed by the pointer to the [.error] log file; when there
    is none, "Build failed with code" and the code, cut likewise and
    followed by the same pointer. If the promise was settled before (by
    the inactivity timeout or a spawn error), the close leaves it as it
    is. *)
Theorem fallback_message_on_unmatched_failure (c : Call) (code : option Z)
    (p : Proc) :
  code <> Some 0 ->
  noPatternMatches (stdout p ++ 10%N :: stderr p) ->
  (exists kept, last20NonBlank (stdout p ++ 10%N :: stderr p) kept)
  /\ (forall kept,
       last20NonBlank (stdout p ++ 10%N :: stderr p) kept ->
       promise p = Pending ->
       (kept <> [] ->
        promise (onClose c code p)
        = Rejected (specFallbackMessage (logFile c) kept))
       /\ (kept = [] ->
           promise (onClose c code p)
           = Rejected
               (substring0 1500 (js "Build failed with code "
                                 ++ showCode code)
                ++ 10%N :: 10%N :: js "[Debug log: " ++ logFile c
                ++ js ".error]")))
  /\ (promise p <> Pending -> promise (onClose c code p) = promise p).
Proof.
  intros Hcode Hno. rewrite (close_settles c code p Hcode).
  split; [|split].
  - eexists. apply last20NonBlank_total.
  - intros kept Hkept Hp. apply last20NonBlank_lastLines in Hkept as ->.
    rewrite Hp. unfold errorMessage, specFallbackMessage.
    rewrite (collectMatches_none _ Hno).
    cbn [unique firstn length Nat.ltb Nat.leb]. split.
    + intros Hne. by rewrite (lastLines_joined _ Hne).
    + intros ->. done.
  - intros Hp. by destruct (promise p).
Qed.

(** C8, amended, on a run that printed two lines no pattern matches and
    exited with code 1. *)
Lemma fallback_message_on_unmatched_failure_witness :
  promise (onClose (mkCall true (js "logs/build_1.log")) (Some 1) twoLines)
  = Rejected (js "Downloading dependencies" ++ 10%N :: js "boom"
              ++ 10%N :: 10%N :: js "[Debug log: logs/build_1.log.error]").
Proof.
  destruct (fallback_message_on_unmatched_failure
              (mkCall true (js "logs/build_1.log")) (Some 1) twoLines)
    as (_ & H & _).
  - discriminate.
  - apply no_pattern_on;
    repeat (apply List.Forall_cons; [vm_compute; reflexivity|]);
    apply List.Forall_nil.
  - destruct (H (lastLines (stdout twoLines ++ 10%N :: stderr twoLines)))
      as [Hlines _].
    + apply last20NonBlank_total.
    + reflexivity.
    + exact (Hlines ltac:(vm_compute; discriminate)).
Defined.

End SupervisorFacts.

(** ** The pipeline: artifact search and cleanup *)

Section PipelineFacts.
Import Pipeline.

Lemma str_eqb_spec (s t : jsstring) : str_eqb s t = true <-> s = t.
Proof.
  revert t. induction s as [|a s IH]; intros [|b t]; simpl; try done.
  unfold cu_eqb. rewrite andb_true_iff, N.eqb_eq, IH. split.
  - by intros [-> ->].
  - by intros [= -> ->].
Qed.

Lemma descends_allowed (d : jsstring) : descends d = true <-> allowedDir d.
Proof.
  unfold descends, allowedDir. rewrite andb_true_iff, !negb_true_iff.
  rewrite <- (not_true_iff_false (str_eqb _ _)), str_eqb_spec. tauto.
Qed.

(** Whatever the search returns is a file with the extension, reached
    through directories it is allowed to enter, within the depth bound. *)
Lemma found_is_located (ext : jsstring) (maxDepth : nat) (n : Node) :
  forall (dir : Path) (depth : nat) (p : Path),
    findFileRecursive dir n ext maxDepth depth = Some p ->
    exists dirs file,
      p = dir ++ dirs ++ [file] /\ fileAt n (dirs ++ [file])
      /\ endsWith file ext = true /\ (depth + length dirs <= maxDepth)%nat
      /\ Forall allowedDir dirs.
Proof.
  induction n as [| | |r items IH] using Node_nested_ind;
    intros dir depth p; try (simpl; by destruct (_ <? _)%nat).
  cbn [findFileRecursive].
  destruct (Nat.ltb_spec maxDepth depth) as [|Hd]; [done|].
  destruct r; [|done].
  assert (forall item child, In (item, child) items ->
            In (item, child) items) as Hsub by auto.
  revert Hsub. generalize items at 1 3 as scanned.
  induction scanned as [|[item child] rest IHrest]; intros Hsub; [done|].
  assert (In (item, child) items) as Hin by (apply Hsub; by left).
  assert (forall i c, In (i, c) rest -> In (i, c) items) as Hrest
    by (intros i c Hic; apply Hsub; by right).
  destruct child as [| | |r' items'].
  - destruct (endsWith item ext) eqn:Hext; [|by apply IHrest].
    intros [= <-]. exists [], item. repeat split; simpl; auto.
    + by constructor.
    + lia.
  - by apply IHrest.
  - done.
  - destruct (descends item) eqn:Hdesc; [|by apply IHrest].
    destruct (findFileRecursive (pathJoin dir item) (Dir r' items') ext
                maxDepth (S depth)) as [found|] eqn:Hfound;
      [|by apply IHrest].
    intros [= <-].
    rewrite Forall_forall in IH.
    specialize (IH _ (proj2 (list_elem_of_In _ _) Hin)). simpl in IH.
    destruct (IH _ _ _ Hfound)
      as (dirs & file & -> & Hat & Hext & Hlen & Hall).
    exists (item :: dirs), file. repeat split; auto.
    + unfold pathJoin. by rewrite <- !app_assoc.
    + simpl. by eapply fileAt_sub.
    + simpl. lia.
    + constructor; [by apply descends_allowed | done].
Qed.








(** The scenarios of the claim, run: the file three directories down is
    the result, also through [findApk] since no probed path exists; five
    directories down is still within reach, six is not; nothing is found
    below a dot directory or [node_modules]. *)
Example search_scenarios :
  findFileRecursive [js "project"] threeDeep (js ".apk") 5 0
    = Some [js "project"; js "module"; js "out"; js "bin"; js "custom.apk"]
  /\ findApk [js "project"] threeDeep (js "release")
     = Some [js "project"; js "module"; js "out"; js "bin"; js "custom.apk"]
  /\ is_Some (findFileRecursive [js "project"]
                (Dir true (nest [js "a"; js "b"; js "c"; js "d"; js "e"]
                             [(js "edge.apk", File)]))
                (js ".apk") 5 0)
  /\ findFileRecursive [js "project"] sixDeep (js ".apk") 5 0 = None
  /\ findFileRecursive [js "project"] onlyExcluded (js ".apk") 5 0 = None.
Proof. vm_compute. eauto 10. Qed.

Lemma swallow_remove {R} (w : ZipRun) (path : jsstring) (log : list FsCall) :
  swallow (R := R) (fsRemove w path) log = (Normal tt, log ++ [Remove path]).
Proof.
  unfold swallow, tryCatch, fsRemove. by destruct (removeRejects w path).
Qed.

(** What a run returns and which removals it adds to the log, also when
    every removal is made to fail or succeed by [f]. *)
Lemma buildFromZip_outcomes (w : ZipRun) (zipPath projectType : jsstring) :
  (exists apkPath,
     forall f log,
       buildFromZip (withRemoveRejects f w) zipPath projectType log
       = (Return (Success apkPath (tempDir w)), log ++ [Remove zipPath]))
  \/ (exists error,
       forall f log,
         buildFromZip (withRemoveRejects f w) zipPath projectType log
         = (Return (Failure error),
            (log ++ [Remove (tempDir w)]) ++ [Remove zipPath])).
Proof.
  unfold buildFromZip, tryCatch, bind, await, throw, returnWith.
  cbn [withRemoveRejects extracting findProjectRoot detected buildFlutter
         buildAndroid tempDir].
  destruct (extracting w) as [[]|e1];
    [|right; exists e1; intros f log; by rewrite !swallow_remove].
  destruct (findProjectRoot w) as [[root|]|e2];
    [| right; eexists; intros f log; by rewrite !swallow_remove
     | right; exists e2; intros f log; by rewrite !swallow_remove].
  destruct (detected w) as [[]|e3];
    [|right; exists e3; intros f log; by rewrite !swallow_remove].
  destruct (str_eqb projectType (js "flutter")).
  - destruct (buildFlutter w) as [apk|e4];
      [left; exists apk | right; exists e4];
      intros f log; by rewrite !swallow_remove.
  - destruct (buildAndroid w) as [apk|e4];
      [left; exists apk | right; exists e4];
      intros f log; by rewrite !swallow_remove.
Qed.

Lemma withRemoveRejects_same (w : ZipRun) :
  withRemoveRejects (removeRejects w) w = w.
Proof. by destruct w. Qed.



End PipelineFacts.

(** ** The build handlers *)

Section HandlerFacts.
Import Handlers.

(** C1, at the input where the code departs from it: chat 42 uploads an
    archive, the slot is granted, the build succeeds and the artifact
    weighs 60 MiB, above the 50 MiB limit. [handleZipUpload] returns
    [true] from inside its [try] block, before the [release] that follows
    the block, and chat 42 still holds its slot; with a 10 MiB artifact the
    same call frees it. *)
Lemma oversize_upload_keeps_slot :
  fst (handleZipUpload (uploadOf (60 * 1024 * 1024) smoothRun (inl tt)) 42
         (js "uploads/app.zip") uploadWorld) = Return true
  /\ holdsSlot 42
       (after (handleZipUpload (uploadOf (60 * 1024 * 1024) smoothRun (inl tt))
                 42 (js "uploads/app.zip")) uploadWorld) = true
  /\ holdsSlot 42
       (after (handleZipUpload (uploadOf (10 * 1024 * 1024) smoothRun (inl tt))
                 42 (js "uploads/app.zip")) uploadWorld) = false.
Proof. vm_compute. auto. Qed.

(** Two more exits that keep the slot: the message of the [catch] block of
    [handleZipUpload] failing in its turn, and the first message of
    [confirmBuild], sent before its [try] block, failing. *)
Example other_exits_keep_slot :
  holdsSlot 42
    (after (handleZipUpload
              (uploadOf 0 brokenArchive (inr (js "ETELEGRAM: 400 Bad Request")))
              42 (js "uploads/app.zip")) uploadWorld) = true
  /\ holdsSlot 42 (after (confirmBuild startFails 42) uploadWorld) = true.
Proof. vm_compute. auto. Qed.

Lemma forEach_updateActivity (times : list Z) (s : World) :
  exists q,
    forEach (R := unit) updateActivity times s = (Normal tt, setQueue q s).
Proof.
  revert s. induction times as [|t times IH]; intros s.
  - exists (buildQueue s). by destruct s.
  - cbn [forEach]. unfold bind at 1. unfold updateActivity at 1, modify.
    destruct (IH (setQueue (Queue.updateActivity None t (buildQueue s)) s))
      as (q & ->).
    by exists q.
Qed.

Lemma release_frees (chatId : Z) (q : Queue.BuildQueue) :
  Queue.has (Queue.release chatId q) chatId = false.
Proof.
  unfold Queue.release, Queue.has.
  destruct (Queue.activeBuilds q !! chatId) eqn:E; simpl.
  - by rewrite lookup_delete_eq.
  - by rewrite E.
Qed.

(** X20: once [confirmBuild] has entered its [try] block, the [finally]
    block frees the slot: whatever the build returns or throws and
    whichever later message fails. *)
Lemma confirmBuild_releases (w : UrlRun) (chatId : Z) (s : World) :
  is_Some (sessions s !! chatId) ->
  Queue.has (buildQueue s) chatId = false ->
  Queue.isBusy (buildQueue s) = false ->
  startNotice w = inl tt ->
  holdsSlot chatId (after (confirmBuild w chatId) s) = false.
Proof.
  intros [session Hs] Hfree Hroom Hstart.
  unfold after, confirmBuild, bind at 1, get. rewrite Hs.
  unfold bind at 1, acquire, Queue.acquire. unfold Queue.isBusy in Hroom.
  rewrite Hfree, Hroom. cbn [negb].
  unfold bind at 1. rewrite Hstart. cbn [await].
  unfold tryFinally.
  match goal with
  | |- context [tryCatch ?b ?h ?s0] =>
      destruct (tryCatch b h s0) as [c s1] eqn:Hbody;
      assert (exists q, s1 = setQueue q s0) as [q ->]
  end.
  { unfold tryCatch, bind at 1 in Hbody.
    match type of Hbody with
    | context [forEach updateActivity ?l ?s0] =>
        destruct (forEach_updateActivity l s0) as (q & Hq)
    end.
    rewrite Hq in Hbody. exists q.
    unfold bind, await, throw in Hbody.
    destruct (buildApk w) as [[apk dir|err]|e];
      destruct (successNotice w) as [[]|], (urlSendDocument w) as [[]|],
        (againNotice w) as [[]|], (sendBuildReport w) as [[]|],
        (urlErrorNotice w) as [[]|];
      by injection Hbody as <- <-. }
  unfold holdsSlot, bind, removeIfSet, removeQuietly, release, modify, ret.
  destruct (apkPathOf _), (buildDirOf _), (iconPath session); cbn;
    apply release_frees.
Qed.

(** X21: [handleZipUpload] frees the slot when its first message and the
    message of its [catch] block go through and the artifact, if any, is
    within the size limit. *)
Lemma handleZipUpload_releases (w : ZipUpload) (chatId : Z)
    (filePath : jsstring) (s : World) (session : Session) :
  sessions s !! chatId = Some session ->
  step session = js "zip_upload" ->
  Queue.has (buildQueue s) chatId = false ->
  Queue.isBusy (buildQueue s) = false ->
  statusNotice w = inl tt ->
  zipErrorNotice w = inl tt ->
  (forall size, apkSize w = inl size -> size <= MAX_FILE_SIZE w) ->
  holdsSlot chatId (after (handleZipUpload w chatId filePath) s) = false.
Proof.
  intros Hs Hstep Hfree Hroom Hstatus Herr Hsize.
  unfold after, handleZipUpload, bind at 1, get. rewrite Hs, Hstep.
  change (str_eqb (js "zip_upload") (js "zip_upload")) with true.
  cbn [negb].
  unfold bind at 1, acquire, Queue.acquire. unfold Queue.isBusy in Hroom.
  rewrite Hfree, Hroom. cbn [negb].
  unfold bind at 1. rewrite Hstatus. cbn [await].
  unfold bind at 1.
  match goal with
  | |- context [tryCatch ?b ?h ?s0] =>
      destruct (tryCatch b h s0) as [c s1] eqn:Hbody;
      assert (exists l, c = Normal tt /\ s1 = setRemoved l s0)
        as (l & -> & ->)
  end.
  { unfold tryCatch, bind at 1, call, zoom in Hbody.
    rewrite <- (withRemoveRejects_same (zipRun w)) in Hbody.
    destruct (buildFromZip_outcomes (zipRun w) filePath (projectType session))
      as [[apk H] | [err H]]; rewrite H in Hbody.
    - unfold bind, await, returnWith in Hbody. rewrite Herr in Hbody.
      destruct (apkSize w) as [size|e] eqn:Hsz.
      + specialize (Hsize size eq_refl).
        destruct (Z.gtb_spec size (MAX_FILE_SIZE w)) as [|_]; [lia|].
        unfold removeQuietly, modify in Hbody. cbn in Hbody.
        destruct (sendingNotice w) as [[]|], (zipSendDocument w) as [[]|],
          (doneNotice w) as [[]|]; cbn in Hbody;
          injection Hbody as <- <-; eauto.
      + injection Hbody as <- <-; eauto.
    - unfold throw, await in Hbody. rewrite Herr in Hbody.
      injection Hbody as <- <-; eauto. }
  unfold holdsSlot, bind, release, modify, returnWith. cbn.
  apply release_frees.
Qed.

End HandlerFacts.

(** ** Further facts *)

Section MoreQueueFacts.
Import Queue.

Lemma withBuilds_same (q : BuildQueue) : withBuilds q (activeBuilds q) = q.
Proof. by destruct q. Qed.

(** X1: a granted [acquire] undone by [release] of the same chat gives
    back the queue as it was before the [acquire]: the slot map and the
    capacity are those of the start. *)
Theorem acquire_release_round_trip (id now : Z) (q q' : BuildQueue) :
  acquire id now q = (true, q') -> release id q' = q.
Proof.
  unfold acquire, has. destruct (activeBuilds q !! id) eqn:E; [done|].
  destruct (_ >=? _); [done|]. intros [= <-].
  unfold release. simpl. rewrite lookup_insert_eq.
  unfold withBuilds. simpl. rewrite delete_insert_id by done.
  by destruct q.
Qed.

Lemma acquire_release_round_trip_witness :
  release 9 (snd (acquire 9 100 (constructor (Some (js "3")))))
  = constructor (Some (js "3")).
Proof.
  apply (acquire_release_round_trip 9 100 (constructor (Some (js "3")))).
  reflexivity.
Defined.

(** X2: a chat that holds a slot in a queue within its capacity gets a
    slot again right after [release(id)], with [startTime] and
    [lastActivity] set to the new clock reading and every other slot as it
    was; the same holds after [forceRelease(id)] when the id is not 0. *)
Theorem slot_reusable_after_release (id now : Z) (q : BuildQueue) :
  has q id = true -> within q ->
  acquire id now (release id q)
  = (true, withBuilds q (<[id := mkSlot now now]> (activeBuilds q)))
  /\ (id <> 0 ->
      acquire id now (forceRelease (Some id) q)
      = (true, withBuilds q (<[id := mkSlot now now]> (activeBuilds q)))).
Proof.
  unfold within, has. intros Hin Hcap.
  destruct (activeBuilds q !! id) as [b|] eqn:E; [|done].
  assert (acquire id now (withBuilds q (delete id (activeBuilds q)))
          = (true, withBuilds q (<[id := mkSlot now now]> (activeBuilds q))))
    as Hacq.
  { unfold acquire, has. simpl. rewrite lookup_delete_eq.
    rewrite map_size_delete_Some by eauto.
    assert (size (activeBuilds q) <> 0%nat) as Hsz.
    { intros H0. apply map_size_empty_inv in H0. rewrite H0, lookup_empty in E.
      done. }
    destruct (Z.geb_spec (Z.of_nat (Nat.pred (size (activeBuilds q))))
                (maxConcurrent q)) as [Hge|_]; [lia|].
    unfold withBuilds. simpl. by rewrite insert_delete_eq. }
  split.
  - unfold release. by rewrite E.
  - intros Hid. unfold forceRelease, has. simpl. rewrite E.
    by destruct (Z.eqb_spec id 0).
Qed.

Lemma grants_from (requests : list (Z * Z)) (q : BuildQueue) :
  NoDup requests.*1 ->
  (forall id, In id requests.*1 -> has q id = false) ->
  grants requests q
  = List.map (fun i => Z.of_nat (size (activeBuilds q) + i) <? maxConcurrent q)
      (seq 0 (length requests)).
Proof.
  revert q. induction requests as [|[id now] rest IH]; intros q Hnd Hfresh;
    [done|].
  apply NoDup_cons in Hnd as [Hid Hnd].
  cbn [grants length seq List.map]. rewrite Nat.add_0_r.
  unfold acquire at 1 2. rewrite (Hfresh id) by (by left).
  rewrite <- seq_shift, List.map_map.
  destruct (Z.geb_spec (Z.of_nat (size (activeBuilds q))) (maxConcurrent q))
    as [Hfull|Hroom]; cbn [fst snd].
  - destruct (Z.ltb_spec (Z.of_nat (size (activeBuilds q))) (maxConcurrent q));
      [lia|]. f_equal.
    rewrite IH; [|done|intros i Hi; apply Hfresh; by right].
    apply List.map_ext. intros i.
    destruct (Z.ltb_spec (Z.of_nat (size (activeBuilds q) + i))
                (maxConcurrent q));
      destruct (Z.ltb_spec (Z.of_nat (size (activeBuilds q) + S i))
                  (maxConcurrent q));
      try done; lia.
  - destruct (Z.ltb_spec (Z.of_nat (size (activeBuilds q))) (maxConcurrent q));
      [|lia]. f_equal.
    rewrite IH; [|done|].
    + simpl. rewrite map_size_insert_None.
      * apply List.map_ext. intros i. do 2 f_equal. lia.
      * specialize (Hfresh id ltac:(by left)). unfold has in Hfresh.
        by destruct (activeBuilds q !! id).
    + intros i Hi. unfold has. simpl.
      rewrite lookup_insert_ne.
      * apply Hfresh. by right.
      * intros ->. apply Hid. by apply list_elem_of_In.
Qed.

(** X3: on a freshly constructed queue, [acquire] calls for pairwise
    distinct chats are granted exactly until [maxConcurrent] slots are
    taken: the i-th call (from 0) is granted if and only if
    [i < maxConcurrent]. *)
Theorem distinct_requests_fill_capacity (env : option jsstring)
    (requests : list (Z * Z)) :
  NoDup requests.*1 ->
  grants requests (constructor env)
  = List.map (fun i => Z.of_nat i <? maxConcurrent (constructor env))
      (seq 0 (length requests)).
Proof.
  intros Hnd. rewrite grants_from; [|done|].
  - unfold constructor at 1. simpl. by rewrite map_size_empty.
  - intros id _. unfold has, constructor. simpl. by rewrite lookup_empty.
Qed.

Lemma distinct_requests_fill_capacity_witness :
  grants [(11, 100); (12, 101); (13, 102)] (constructor (Some (js "2")))
  = [true; true; false].
Proof.
  rewrite (distinct_requests_fill_capacity (Some (js "2"))
             [(11, 100); (12, 101); (13, 102)]).
  - reflexivity.
  - compute_done.
Defined.

Lemma toRelease_nil (now : Z) (q : BuildQueue) :
  (forall id b, activeBuilds q !! id = Some b -> isStuck now b = false) ->
  toRelease now q = [].
Proof.
  intros H. unfold toRelease.
  assert (List.filter (fun kb : Z * BuildSlot => isStuck now kb.2)
            (map_to_list (activeBuilds q)) = []) as ->; [|done].
  assert (forall kb, In kb (map_to_list (activeBuilds q)) ->
            isStuck now kb.2 = false) as Hall.
  { intros [id b] Hin. apply list_elem_of_In, elem_of_map_to_list in Hin.
    by apply (H id b). }
  induction (map_to_list (activeBuilds q)) as [|kb l IH]; [done|].
  simpl. rewrite (Hall kb) by (by left). apply IH.
  intros kb' Hin. apply Hall. by right.
Qed.

Lemma checkStuckBuilds_nothing (now : Z) (q : BuildQueue) :
  (forall id b, activeBuilds q !! id = Some b -> isStuck now b = false) ->
  checkStuckBuilds now q = q.
Proof.
  intros H. unfold checkStuckBuilds. rewrite (toRelease_nil now q H).
  by destruct (_ =? _)%nat.
Qed.

Lemma survivors_not_stuck (now : Z) (q : BuildQueue) (id : Z) (b : BuildSlot) :
  activeBuilds (checkStuckBuilds now q) !! id = Some b ->
  activeBuilds q !! id = Some b /\ isStuck now b = false.
Proof.
  rewrite checkStuckBuilds_builds, releaseAll_lookup.
  destruct (existsb (Z.eqb 0) _); [done|].
  destruct (existsb (Z.eqb id) _) eqn:E; [done|].
  intros Hb. split; [done|].
  destruct (isStuck now b) eqn:Hst; [|done].
  assert (existsb (Z.eqb id) (toRelease now q) = true) as E'
    by (apply existsb_toRelease; eauto).
  congruence.
Qed.

(** X4: every slot that is still in the map after a watchdog pass at
    [now] was there before with the same record, is at most 45 minutes
    old and had activity (or, with a zero [lastActivity], its start) at
    most 10 minutes before; and a second pass at the same clock reading
    changes nothing. *)
Theorem watchdog_pass_settles (now : Z) (q : BuildQueue) :
  (forall id b,
     activeBuilds (checkStuckBuilds now q) !! id = Some b ->
     activeBuilds q !! id = Some b
     /\ now - startTime b <= MAX_BUILD_TIME
     /\ now - activityOf b <= INACTIVITY_TIMEOUT)
  /\ checkStuckBuilds now (checkStuckBuilds now q) = checkStuckBuilds now q.
Proof.
  split.
  - intros id b Hb. apply survivors_not_stuck in Hb as [Hb Hst].
    split; [done|]. unfold isStuck in Hst.
    destruct (Z.gtb_spec (now - startTime b) MAX_BUILD_TIME); [done|].
    destruct (Z.gtb_spec (now - activityOf b) INACTIVITY_TIMEOUT); [done|].
    lia.
  - apply checkStuckBuilds_nothing. intros id b Hb.
    by apply survivors_not_stuck in Hb as [_ Hst].
Qed.

Lemma watchdog_pass_settles_witness :
  activeBuilds oldAndFresh !! 7 = Some (mkSlot 9999000 9999000)
  /\ 10000000 - startTime (mkSlot 9999000 9999000) <= MAX_BUILD_TIME
  /\ 10000000 - activityOf (mkSlot 9999000 9999000) <= INACTIVITY_TIMEOUT.
Proof.
  destruct (watchdog_pass_settles 10000000 oldAndFresh) as [H _].
  apply (H 7). vm_compute. reflexivity.
Defined.

(** X5: after the broadcast [updateActivity()] at a non-zero clock
    reading [now], a watchdog pass at most 10 minutes later reclaims
    nothing, provided no slot is older than 45 minutes at that pass. *)
Theorem activity_update_prevents_reclaim (now now' : Z) (q : BuildQueue) :
  now <> 0 ->
  now' - now <= INACTIVITY_TIMEOUT ->
  (forall id b, activeBuilds q !! id = Some b ->
     now' - startTime b <= MAX_BUILD_TIME) ->
  checkStuckBuilds now' (updateActivity None now q)
  = updateActivity None now q.
Proof.
  intros Hnow Hidle Hyoung. apply checkStuckBuilds_nothing.
  intros id b. simpl. rewrite lookup_fmap.
  destruct (activeBuilds q !! id) as [b0|] eqn:E; [|done].
  intros [= <-]. unfold isStuck, activityOf, touch. simpl.
  specialize (Hyoung id b0 E).
  destruct (Z.gtb_spec (now' - startTime b0) MAX_BUILD_TIME); [lia|].
  destruct (Z.eqb_spec now 0); [done|].
  destruct (Z.gtb_spec (now' - now) INACTIVITY_TIMEOUT); [lia|done].
Qed.

Lemma activity_update_prevents_reclaim_witness :
  checkStuckBuilds 1000000
    (updateActivity None 500000
       (run [Acquire 3 1000; Acquire 7 2000] (constructor (Some (js "2")))))
  = updateActivity None 500000
      (run [Acquire 3 1000; Acquire 7 2000] (constructor (Some (js "2")))).
Proof.
  apply activity_update_prevents_reclaim.
  - lia.
  - unfold INACTIVITY_TIMEOUT. lia.
  - intros id b Hb. unfold MAX_BUILD_TIME.
    change (activeBuilds (run [Acquire 3 1000; Acquire 7 2000]
                            (constructor (Some (js "2")))))
      with (<[7 := mkSlot 2000 2000]>
              (<[3 := mkSlot 1000 1000]> (∅ : gmap Z BuildSlot))) in Hb.
    apply lookup_insert_Some in Hb as [[_ <-] | [_ Hb]]; [simpl; lia|].
    apply lookup_insert_Some in Hb as [[_ <-] | [_ Hb]]; [simpl; lia|].
    by rewrite lookup_empty in Hb.
Defined.

Lemma slot_reusable_after_release_witness :
  acquire 3 10000000 (release 3 oldAndFresh)
  = (true, withBuilds oldAndFresh
             (<[3 := mkSlot 10000000 10000000]> (activeBuilds oldAndFresh))).
Proof.
  destruct (slot_reusable_after_release 3 10000000 oldAndFresh) as [H _].
  - reflexivity.
  - unfold within. vm_compute. discriminate.
  - exact H.
Defined.

End MoreQueueFacts.

Section MoreSupervisorFacts.
Import Supervisor.

Lemma neverIdle_state (c : Call) (events : list Event) (p : Proc) :
  neverIdle (lastActivity p) events = true -> quiet p ->
  quiet (fold_left (handle c) events p)
  /\ stdout (fold_left (handle c) events p) = stdout p ++ stdoutOf events
  /\ errorLog (fold_left (handle c) events p) = errorLog p
  /\ lastActivity (fold_left (handle c) events p)
     = lastData (lastActivity p) events.
Proof.
  revert p. induction events as [|e events IH]; intros p Hev Hq.
  - simpl. by rewrite app_nil_r.
  - destruct e as [t text|t text|code|err|t]; try done;
      cbn [neverIdle] in Hev; cbn [fold_left handle].
    + destruct (IH (onStdout c t text p) Hev Hq) as (Hq' & -> & -> & ->).
      cbn [onStdout stdout errorLog stdoutOf flat_map].
      by rewrite <- app_assoc.
    + destruct (IH (onStderr c t text p) Hev Hq) as (Hq' & -> & -> & ->).
      by cbn [onStderr stdout errorLog stdoutOf flat_map app].
    + apply andb_prop in Hev as [Ht Hev]. apply Z.leb_le in Ht.
      assert (onTimer t p = p) as ->.
      { unfold onTimer. destruct (timeoutCheck p); [|done].
        by destruct (Z.gtb_spec (t - lastActivity p) TIMEOUT_MS); [lia|]. }
      exact (IH p Hev Hq).
Qed.

(** X6: when no poll finds the supervised command idle (every poll comes
    at most 30 minutes after the last chunk, or after the spawn) and the
    command then closes with exit code 0, [runCommand] resolves with the
    stdout chunks concatenated in arrival order (stderr is left out), the
    poll timer is cleared, the process is not signalled and no [.error]
    log is written. A poll that comes later than that rejects with the
    timeout message and signals the process, and a close with exit code 0
    after it does not undo the rejection. *)
Theorem exit_zero_resolves_with_stdout (c : Call) (start : Z)
    (events : list Event) :
  neverIdle start events = true ->
  (promise (runCommand c start (events ++ [Close (Some 0)]))
     = Resolved (stdoutOf events)
   /\ timeoutCheck (runCommand c start (events ++ [Close (Some 0)])) = false
   /\ killed (runCommand c start (events ++ [Close (Some 0)])) = None
   /\ errorLog (runCommand c start (events ++ [Close (Some 0)])) = None)
  /\ (forall now,
       now - lastData start events > TIMEOUT_MS ->
       promise (runCommand c start
                  (events ++ [TimerTick now; Close (Some 0)]))
       = Rejected (js "Build timeout (30 minutes of inactivity)")
       /\ killed (runCommand c start
                    (events ++ [TimerTick now; Close (Some 0)]))
          = Some SIGTERM).
Proof.
  intros Hev. unfold runCommand. rewrite !fold_left_app.
  destruct (neverIdle_state c events (spawn start) Hev)
    as ((Hp & Ht & Hk) & Hout & Hlog & Hlast); [done|].
  cbn [spawn lastActivity stdout errorLog app] in Hout, Hlog, Hlast.
  split.
  - cbn [fold_left handle]. unfold onClose, clearTimer, settle.
    rewrite Hp. cbn. by rewrite Hout, Hk, Hlog.
  - intros now Hnow. rewrite !fold_left_app. cbn [fold_left handle].
    unfold onTimer. rewrite Ht, Hlast.
    destruct (Z.gtb_spec (now - lastData start events) TIMEOUT_MS);
      [|lia].
    unfold onClose, clearTimer, settle. cbn. by rewrite Hp.
Qed.

Lemma exit_zero_resolves_with_stdout_witness :
  promise (runCommand (mkCall false (js "logs/build_1.log")) 0
             ([StdoutData 5 (js "Running "); TimerTick 60000;
               StderrData 70000 (js "warning"); TimerTick 120000;
               StdoutData 130000 (js "pub get")] ++ [Close (Some 0)]))
  = Resolved (js "Running pub get").
Proof.
  destruct (exit_zero_resolves_with_stdout
              (mkCall false (js "logs/build_1.log")) 0
              [StdoutData 5 (js "Running "); TimerTick 60000;
               StderrData 70000 (js "warning"); TimerTick 120000;
               StdoutData 130000 (js "pub get")] eq_refl) as [[H _] _].
  exact H.
Defined.

Lemma settle_forwarded (v : Promise) (p : Proc) :
  forwarded (settle v p) = forwarded p.
Proof. unfold settle. by destruct (promise p). Qed.

Lemma handle_boundedForward (c : Call) (p : Proc) (e : Event) :
  boundedForward c p -> boundedForward c (handle c p e).
Proof.
  intros [Hall Hnone]. destruct e as [t text|t text|code|err|t]; simpl.
  - split; cbn [forwarded onStdout].
    + destruct (onOutput c && _); [|done].
      apply Forall_app. split; [done|]. constructor; [|done].
      unfold substring0. rewrite length_firstn. lia.
    + intros Hc. rewrite Hc. simpl. auto.
  - split; cbn [forwarded onStderr].
    + destruct (onOutput c && _); [|done].
      apply Forall_app. split; [done|]. constructor; [|done].
      rewrite length_app. unfold substring0. rewrite length_firstn.
      change (length (js "[!] ")) with 4%nat. lia.
    + intros Hc. rewrite Hc. simpl. auto.
  - unfold onClose, clearTimer, boundedForward. cbn [forwarded].
    destruct code as [[| |]|]; rewrite settle_forwarded; done.
  - unfold onError, boundedForward. by rewrite settle_forwarded.
  - unfold onTimer, boundedForward.
    destruct (timeoutCheck p); [|done].
    destruct (_ >? _); [|done]. by rewrite settle_forwarded.
Qed.

(** X7: whatever the events, every string [runCommand] passes to the
    output callback has at most 154 code units (150 of a chunk, and the
    4 of the stderr mark), and without a callback nothing is
    forwarded. *)
Theorem forwarded_lines_bounded (c : Call) (start : Z) (events : list Event) :
  Forall (fun s => (length s <= 154)%nat)
    (forwarded (runCommand c start events))
  /\ (onOutput c = false -> forwarded (runCommand c start events) = []).
Proof.
  unfold runCommand.
  assert (boundedForward c (spawn start)) as H by (by split).
  revert H. generalize (spawn start).
  induction events as [|e events IH]; intros p Hp; [done|].
  simpl. by apply IH, handle_boundedForward.
Qed.

Lemma forwarded_lines_bounded_witness :
  forwarded (runCommand (mkCall false (js "logs/build_1.log")) 0
               [StderrData 5 (js "error: no pubspec.yaml"); Close (Some 1)])
  = [].
Proof.
  destruct (forwarded_lines_bounded (mkCall false (js "logs/build_1.log")) 0
              [StderrData 5 (js "error: no pubspec.yaml"); Close (Some 1)])
    as [_ H].
  apply H. reflexivity.
Defined.

(** X8: the rejection message of a failed command is bounded whatever
    the output: at most 1500 code units of error text, then the 21 code
    units around the log file name and the name itself. *)
Theorem error_message_bounded (logFile out err : jsstring) (code : option Z) :
  (length (errorMessage logFile out err code)
   <= 1521 + length logFile)%nat.
Proof.
  unfold errorMessage, substring0.
  rewrite length_app, length_firstn. cbn [length].
  rewrite !length_app.
  change (length (js "[Debug log: ")) with 12%nat.
  change (length (js ".error]")) with 7%nat. lia.
Qed.

Lemma restOfLine_prefix (s : jsstring) :
  exists post, s = restOfLine s ++ post.
Proof.
  induction s as [|c s [post IH]]; [by exists []|]. simpl.
  destruct (isLineTerminator c); [by exists (c :: s)|].
  exists post. simpl. by f_equal.
Qed.

Lemma lazyBody_prefix (s : jsstring) : exists post, s = lazyBody s ++ post.
Proof.
  induction s as [|c s [post IH]]; [by exists []|].
  cbn [lazyBody].
  destruct (_ || _); [by exists (c :: s)|].
  exists post. simpl. by f_equal.
Qed.

Lemma matchHere_prefix (p : Pattern) (s m : jsstring) :
  matchHere p s = Some m -> exists post, s = m ++ post.
Proof.
  unfold matchHere. destruct (startsWithBy _ _ _); [|done].
  intros [= <-].
  assert (exists post, skipn (length (literalOf p)) s
                       = tailOf p (skipn (length (literalOf p)) s) ++ post)
    as [post Hpost].
  { destruct p; [apply restOfLine_prefix | apply lazyBody_prefix]. }
  exists post. rewrite <- app_assoc, <- Hpost. by rewrite firstn_skipn.
Qed.

Lemma matchAll_fragments (p : Pattern) (s : jsstring) (k : nat) (m : jsstring) :
  In m (matchAll p s k) -> exists pre post, s = pre ++ m ++ post.
Proof.
  revert k. induction s as [|c s IH]; intros k; [done|].
  cbn [matchAll]. destruct k as [|k].
  - destruct (matchHere p (c :: s)) as [m'|] eqn:E.
    + intros [<- | Hin].
      * apply matchHere_prefix in E as [post E]. by exists [], post.
      * destruct (IH _ Hin) as (pre & post & ->). by exists (c :: pre), post.
    + intros Hin. destruct (IH _ Hin) as (pre & post & ->).
      by exists (c :: pre), post.
  - intros Hin. destruct (IH _ Hin) as (pre & post & ->).
    by exists (c :: pre), post.
Qed.

Lemma restOfLine_lineFree (s : jsstring) : lineFree (restOfLine s) = true.
Proof.
  induction s as [|c s IH]; [done|]. simpl.
  destruct (isLineTerminator c) eqn:E; [done|]. simpl. by rewrite E.
Qed.

Lemma lazyBody_lineFree (s : jsstring) : lineFree (lazyBody s) = true.
Proof.
  induction s as [|c s IH]; [done|]. cbn [lazyBody].
  destruct (startsWith (c :: s) (js "* Try:")
            || startsWith (c :: s) (js "* Get more help")) eqn:E1;
    [done|].
  cbn [orb atLineEnd]. destruct (isLineTerminator c) eqn:E; [done|].
  simpl. by rewrite E.
Qed.

Lemma matched_unit_not_terminator (ci : bool) (l c : N) :
  negb (isLineTerminator l) && negb (isLineTerminator (lowerAscii l)) = true ->
  (if ci then cu_eqb_ci l c else cu_eqb l c) = true ->
  isLineTerminator c = false.
Proof.
  intros Hsafe Heq. apply andb_prop in Hsafe as [Hl Hll].
  apply negb_true_iff in Hl, Hll. destruct ci.
  - unfold cu_eqb_ci in Heq. apply N.eqb_eq in Heq.
    destruct (isLineTerminator c) eqn:Ec; [|done].
    assert (lowerAscii c = c) as Hc.
    { unfold lowerAscii. unfold isLineTerminator in Ec.
      destruct (N.leb_spec 65 c); destruct (N.leb_spec c 90); simpl; try done.
      repeat (apply orb_prop in Ec as [Ec | Ec]);
        apply N.eqb_eq in Ec; lia. }
    rewrite Hc in Heq. congruence.
  - unfold cu_eqb in Heq. apply N.eqb_eq in Heq. congruence.
Qed.

Lemma literal_lineFree (ci : bool) (lit s : jsstring) :
  safeLiteral lit = true ->
  startsWithBy (if ci then cu_eqb_ci else cu_eqb) lit s = true ->
  lineFree (firstn (length lit) s) = true.
Proof.
  revert s. induction lit as [|l lit IH]; intros s Hsafe Hs; [done|].
  destruct s as [|c s]; [done|]. simpl in *.
  apply andb_prop in Hsafe as [Hl Hsafe]. apply andb_prop in Hs as [Hc Hs].
  rewrite (matched_unit_not_terminator ci l c Hl); [|by destruct ci].
  simpl. by apply IH.
Qed.

Lemma lineFree_app (a b : jsstring) :
  lineFree (a ++ b) = lineFree a && lineFree b.
Proof. apply forallb_app. Qed.

Lemma matchHere_lineFree (p : Pattern) (s m : jsstring) :
  safeLiteral (literalOf p) = true -> literalOf p <> [] ->
  matchHere p s = Some m -> lineFree m = true /\ m <> [].
Proof.
  intros Hsafe Hlit. unfold matchHere.
  destruct (startsWithBy (eqbOf p) (literalOf p) s) eqn:E; [|done].
  intros [= <-]. split.
  - rewrite lineFree_app. apply andb_true_intro. split.
    + destruct p as [lit [|]|].
      * by apply (literal_lineFree true).
      * by apply (literal_lineFree false).
      * by apply (literal_lineFree false).
    + destruct p; [apply restOfLine_lineFree | apply lazyBody_lineFree].
  - destruct (literalOf p) as [|l lit]; [done|].
    by destruct s.
Qed.

Lemma matchAll_lineFree (p : Pattern) (s : jsstring) (k : nat) (m : jsstring) :
  safeLiteral (literalOf p) = true -> literalOf p <> [] ->
  In m (matchAll p s k) -> lineFree m = true /\ m <> [].
Proof.
  intros Hsafe Hlit. revert k. induction s as [|c s IH]; intros k; [done|].
  cbn [matchAll]. destruct k as [|k]; [|apply IH].
  destruct (matchHere p (c :: s)) as [m'|] eqn:E; [|apply IH].
  intros [<- | Hin]; [by eapply matchHere_lineFree | by eapply IH].
Qed.

Lemma unique_incl (l : list jsstring) (m : jsstring) :
  In m (unique l) -> In m l.
Proof.
  induction l as [|x l IH]; [done|]. simpl.
  intros [-> | Hin]; [by left|]. right. apply IH.
  by apply filter_In in Hin as [Hin _].
Qed.

Lemma str_eqb_refl (s : jsstring) : str_eqb s s = true.
Proof.
  induction s as [|c s IH]; [done|]. simpl. unfold cu_eqb.
  by rewrite N.eqb_refl.
Qed.

Lemma unique_NoDup (l : list jsstring) : List.NoDup (unique l).
Proof.
  induction l as [|x l IH]; simpl; constructor.
  - intros Hin. apply filter_In in Hin as [_ Hne].
    by rewrite str_eqb_refl in Hne.
  - by apply List.NoDup_filter.
Qed.

Lemma NoDup_firstn {A} (n : nat) (l : list A) :
  List.NoDup l -> List.NoDup (firstn n l).
Proof.
  revert n. induction l as [|x l IH]; intros [|n] Hnd; simpl;
    try constructor.
  - apply List.NoDup_cons_iff in Hnd as [Hx _]. intros Hin. apply Hx.
    rewrite <- (firstn_skipn n l). apply in_or_app. by left.
  - apply IH. by apply List.NoDup_cons_iff in Hnd as [_ Hnd].
Qed.

Lemma firstn_incl {A} (n : nat) (l : list A) (x : A) :
  In x (firstn n l) -> In x l.
Proof.
  intros H. rewrite <- (firstn_skipn n l). apply in_or_app. by left.
Qed.

(** X9: the error lines reported on a failed command are pairwise
    distinct, at most 10, and each is a non-empty fragment of the combined
    output copied as it is, with no line terminator in it; when there is
    at least one, the rejection message is these lines joined by newlines,
    cut to 1500 code units, followed by the pointer to the [.error]
    log. *)
Theorem reported_lines_are_verbatim (logFile out err : jsstring)
    (code : option Z) :
  List.NoDup (reportedLines (out ++ 10%N :: err))
  /\ (length (reportedLines (out ++ 10%N :: err)) <= 10)%nat
  /\ (forall m, In m (reportedLines (out ++ 10%N :: err)) ->
        (exists pre post, out ++ 10%N :: err = pre ++ m ++ post)
        /\ lineFree m = true /\ m <> [])
  /\ (reportedLines (out ++ 10%N :: err) <> [] ->
      errorMessage logFile out err code
      = substring0 1500 (joinLines (reportedLines (out ++ 10%N :: err)))
          ++ 10%N :: 10%N :: js "[Debug log: " ++ logFile ++ js ".error]").
Proof.
  unfold reportedLines. split; [|split; [|split]].
  - apply NoDup_firstn, unique_NoDup.
  - rewrite length_firstn. lia.
  - intros m Hm. apply firstn_incl, unique_incl in Hm.
    unfold collectMatches in Hm. apply in_flat_map in Hm as (p & Hp & Hm).
    split; [by eapply matchAll_fragments|].
    apply (matchAll_lineFree p (out ++ 10%N :: err) 0%nat m); [..|done];
      clear Hm; simpl in Hp;
      repeat (destruct Hp as [<- | Hp]; [done|]); destruct Hp.
  - intros Hne. unfold errorMessage.
    destruct (firstn 10 (unique (collectMatches (out ++ 10%N :: err))));
      done.
Qed.

Lemma reported_lines_are_verbatim_witness :
  errorMessage (js "logs/b.log") (js "lib/a.dart:3: Error: oops") []
    (Some 1)
  = js "Error: oops" ++ 10%N :: 10%N :: js "[Debug log: logs/b.log.error]".
Proof.
  destruct (reported_lines_are_verbatim (js "logs/b.log")
              (js "lib/a.dart:3: Error: oops") [] (Some 1))
    as (_ & _ & _ & H).
  rewrite H; [reflexivity | vm_compute; discriminate].
Defined.

Lemma ticks_after_close (c : Call) (later : list Event) (p : Proc) :
  forallb isTick later = true -> timeoutCheck p = false ->
  fold_left (handle c) later p = p.
Proof.
  revert p. induction later as [|e later IH]; intros p Hl Ht; [done|].
  simpl in Hl. apply andb_prop in Hl as [He Hl].
  destruct e; try done. cbn [fold_left handle]. unfold onTimer.
  rewrite Ht. by apply IH.
Qed.

Lemma gradle_ticks_after_close (later : list Gradle.Event) (p : Gradle.Proc) :
  forallb isGradleTick later = true -> Gradle.timeoutCheck p = false ->
  fold_left Gradle.handle later p = p.
Proof.
  revert p. induction later as [|e later IH]; intros p Hl Ht; [done|].
  simpl in Hl. apply andb_prop in Hl as [He Hl].
  destruct e; try done. cbn [fold_left Gradle.handle]. unfold Gradle.onTimer.
  rewrite Ht. by apply IH.
Qed.

(** X10: once the process has closed, the ticks of the poll timer that
    still arrive change nothing, in [runCommand] and in [runGradle]: no
    signal is sent to the closed process and the settled promise keeps
    its value. *)
Theorem no_poll_after_exit (c : Call) (start : Z) (events later : list Event)
    (gradleEvents gradleLater : list Gradle.Event) (code : option Z) :
  forallb isTick later = true ->
  forallb isGradleTick gradleLater = true ->
  runCommand c start (events ++ Close code :: later)
  = runCommand c start (events ++ [Close code])
  /\ Gradle.runGradle start (gradleEvents ++ Gradle.Close code :: gradleLater)
     = Gradle.runGradle start (gradleEvents ++ [Gradle.Close code]).
Proof.
  intros Hl Hg. unfold runCommand, Gradle.runGradle.
  rewrite !fold_left_app. cbn [fold_left]. split.
  - by apply ticks_after_close.
  - by apply gradle_ticks_after_close.
Qed.

Lemma no_poll_after_exit_witness :
  killed (runCommand (mkCall false (js "logs/build_1.log")) 0
            ([StdoutData 5 (js "ok")]
               ++ Close (Some 0) :: [TimerTick 9000000])) = None.
Proof.
  destruct (no_poll_after_exit (mkCall false (js "logs/build_1.log")) 0
              [StdoutData 5 (js "ok")] [TimerTick 9000000]
              [] [] (Some 0) eq_refl eq_refl) as [H _].
  rewrite H. reflexivity.
Defined.

Lemma findIndex_bounds {A} (f : A -> bool) (l : list A) :
  -1 <= findIndex f l < Z.of_nat (length l)
  /\ (0 <= findIndex f l ->
      exists x, nth_error l (Z.to_nat (findIndex f l)) = Some x).
Proof.
  induction l as [|x l [IH1 IH2]]; [simpl; split; [lia|lia]|].
  cbn [findIndex length]. destruct (f x).
  - split; [lia|]. intros _. by exists x.
  - destruct (Z.ltb_spec (findIndex f l) 0).
    + split; [lia|lia].
    + split; [lia|]. intros _. destruct (IH2 ltac:(lia)) as [y Hy].
      exists y. replace (Z.to_nat (findIndex f l + 1))
        with (S (Z.to_nat (findIndex f l))) by lia. done.
Qed.

Lemma orText_nonempty (x : option jsstring) (d : jsstring) :
  d <> [] -> Gradle.orText x d <> [].
Proof. intros Hd. by destruct x as [[|c l]|]. Qed.

(** X11: the error text [runGradle] resolves with on a non-zero exit
    code is never the empty string, whatever the process wrote. *)
Theorem gradle_failure_has_message (out err : jsstring) :
  Gradle.errorMessage out err <> [].
Proof.
  unfold Gradle.errorMessage.
  destruct (includes _ (js "SDK location not found")); [done|].
  destruct (includes _ (js "JAVA_HOME")); [done|].
  destruct (includes _ (js "Could not find com.android.tools")); [done|].
  destruct (includes _ (js "error:")); [by apply orText_nonempty|].
  set (lines := List.filter nonBlank (splitLines (out ++ err))).
  set (i := findIndex _ lines).
  destruct (Z.gtb_spec i 0) as [Hi|_]; [|by apply orText_nonempty].
  destruct (findIndex_bounds (fun l => includes l (js "BUILD FAILED")) lines)
    as [Hb _]. fold i in Hb.
  unfold Gradle.at_ at 1.
  destruct (Z.ltb_spec (i - 1) 0); [lia|].
  destruct (nth_error lines (Z.to_nat (i - 1))) as [l|] eqn:E.
  - assert (In l lines) as Hin by (by eapply nth_error_In).
    unfold lines in Hin. apply filter_In in Hin as [_ Hnb].
    destruct l as [|ch l]; [done|]. done.
  - apply nth_error_None in E. lia.
Qed.
End MoreSupervisorFacts.

Section MorePipelineFacts.
Import Pipeline.

Lemma firstApk_sound (files : list jsstring) (apk : jsstring) :
  Apk.firstApk files = Some apk ->
  In apk files /\ endsWith apk (js ".apk") = true.
Proof.
  unfold Apk.firstApk.
  destruct (List.find _ files) as [[|c name]|] eqn:E; try done.
  intros [= <-]. by apply find_some in E.
Qed.

(** X12: [findApk] of the templated build only returns the first name
    ending in [.apk] among those [readdir] lists in the release output
    directory when that directory exists, and in the debug one otherwise;
    a release directory without such a name makes it return [null], the
    debug directory not being looked at. *)
Theorem apk_found_in_release_first (projectDir : Path) (n : Node) :
  (forall p,
     Apk.findApk projectDir n = inl (Some p) ->
     exists dir files apk,
       p = projectDir ++ dir ++ [apk]
       /\ Apk.readdir n dir = inl files /\ In apk files
       /\ endsWith apk (js ".apk") = true
       /\ (if pathExists n Apk.releaseDir then dir = Apk.releaseDir
           else dir = Apk.debugDir))
  /\ (forall files,
       pathExists n Apk.releaseDir = true ->
       Apk.readdir n Apk.releaseDir = inl files ->
       (forall f, In f files -> endsWith f (js ".apk") = false) ->
       Apk.findApk projectDir n = inl None).
Proof.
  unfold Apk.findApk. split.
  - intros p. destruct (pathExists n Apk.releaseDir); cbn [negb].
    + destruct (Apk.readdir n Apk.releaseDir) as [files|e] eqn:Hr; [|done].
      destruct (Apk.firstApk files) as [apk|] eqn:Hf; [|done].
      intros [= <-]. apply firstApk_sound in Hf as [Hin Hext].
      by exists Apk.releaseDir, files, apk.
    + destruct (pathExists n Apk.debugDir); [|done].
      destruct (Apk.readdir n Apk.debugDir) as [files|e] eqn:Hr; [|done].
      destruct (Apk.firstApk files) as [apk|] eqn:Hf; [|done].
      intros [= <-]. apply firstApk_sound in Hf as [Hin Hext].
      by exists Apk.debugDir, files, apk.
  - intros files -> -> Hnone. cbn [negb].
    destruct (Apk.firstApk files) as [apk|] eqn:Hf; [|done].
    apply firstApk_sound in Hf as [Hin Hext].
    rewrite (Hnone apk Hin) in Hext. done.
Qed.

Lemma apk_found_in_release_first_witness :
  exists dir files apk,
    [js "temp"; js "app"; js "build"; js "outputs"; js "apk"; js "debug";
     js "app-debug.apk"] = [js "temp"] ++ dir ++ [apk]
    /\ Apk.readdir debugOnly dir = inl files /\ In apk files
    /\ endsWith apk (js ".apk") = true
    /\ (if pathExists debugOnly Apk.releaseDir then dir = Apk.releaseDir
        else dir = Apk.debugDir).
Proof.
  destruct (apk_found_in_release_first [js "temp"] debugOnly) as [H _].
  apply H. reflexivity.
Defined.

Lemma apk_swallow_remove {R} (w : Apk.ApkRun) (path : jsstring)
    (log : list FsCall) :
  swallow (R := R) (Apk.fsRemove w path) log
  = (Normal tt, log ++ [Remove path]).
Proof.
  unfold swallow, tryCatch, Apk.fsRemove. by destruct (Apk.removeRejects w).
Qed.

Lemma buildApk_outcomes (w : Apk.ApkRun) :
  (exists apkPath,
     Apk.buildApk w [] = (Return (Success apkPath (Apk.buildDir w)), []))
  \/ (exists error,
       Apk.buildApk w []
       = (Return (Failure error), [Remove (Apk.buildDir w)])).
Proof.
  unfold Apk.buildApk, tryCatch, bind, await, throw, returnWith.
  destruct (Apk.preparing w) as [[]|e1];
    [|right; exists e1; by rewrite apk_swallow_remove].
  destruct (Apk.compiling w) as [[]|e2];
    [|right; exists e2; by rewrite apk_swallow_remove].
  destruct (Apk.gradle w) as [|e3];
    [|right; exists e3; by rewrite apk_swallow_remove].
  destruct (Apk.located w) as [[apk|]|e4];
    [| right; eexists; by rewrite apk_swallow_remove
     | right; exists e4; by rewrite apk_swallow_remove].
  destruct (Apk.copied w) as [final|e5];
    [|right; exists e5; by rewrite apk_swallow_remove].
  destruct (Apk.finished w) as [[]|e6];
    [|right; exists e6; by rewrite apk_swallow_remove].
  left. by exists final.
Qed.

(** X13: [buildApk] never throws and returns one of two results: a
    success that carries the build directory, no removal having been
    attempted, or a failure after exactly one attempt to remove the build
    directory, whether or not that removal fails. A failed Gradle run
    gives a failure with Gradle's error text, and a build after which no
    APK is found gives the failure [APK tidak ditemukan setelah build]. *)
Theorem buildApk_cleanup (w : Apk.ApkRun) :
  ((exists apkPath,
      Apk.buildApk w [] = (Return (Success apkPath (Apk.buildDir w)), []))
   \/ (exists error,
        Apk.buildApk w []
        = (Return (Failure error), [Remove (Apk.buildDir w)])))
  /\ (forall error,
       Apk.preparing w = inl tt -> Apk.compiling w = inl tt ->
       Apk.gradle w = Gradle.Failed error ->
       fst (Apk.buildApk w []) = Return (Failure error))
  /\ (Apk.preparing w = inl tt -> Apk.compiling w = inl tt ->
      Apk.gradle w = Gradle.Built -> Apk.located w = inl None ->
      fst (Apk.buildApk w [])
      = Return (Failure (js "APK tidak ditemukan setelah build"))).
Proof.
  split; [apply buildApk_outcomes|].
  unfold Apk.buildApk, tryCatch, bind, await, throw, returnWith. split.
  - intros error -> -> ->. by rewrite apk_swallow_remove.
  - intros -> -> -> ->. by rewrite apk_swallow_remove.
Qed.

Lemma buildApk_cleanup_witness :
  fst (Apk.buildApk gradleFailed []) = Return (Failure (js "Build gagal")).
Proof.
  destruct (buildApk_cleanup gradleFailed) as (_ & H & _).
  apply H; reflexivity.
Defined.

Lemma scanSubdirs_sound (dir : Path) (target : jsstring)
    (items : list (jsstring * Node)) (p : Path) :
  Detect.scanSubdirs dir target items = inl (Some p) ->
  exists item r entries,
    In (item, Dir r entries) items /\ p = dir ++ [item]
    /\ pathExists (Dir r entries) [target] = true.
Proof.
  induction items as [|[item child] rest IH]; [done|].
  cbn [Detect.scanSubdirs].
  destruct child as [| | |r entries].
  - intros H. destruct (IH H) as (i & r & es & Hin & ? & ?).
    exists i, r, es. split; [by right | done].
  - intros H. destruct (IH H) as (i & r & es & Hin & ? & ?).
    exists i, r, es. split; [by right | done].
  - done.
  - destruct (pathExists (Dir r entries) [target]) eqn:E.
    + intros [= <-]. exists item, r, entries. split; [by left | done].
    + intros H. destruct (IH H) as (i & r' & es & Hin & ? & ?).
      exists i, r', es. split; [by right | done].
Qed.

(** X14: [findProjectRoot] only returns the extraction directory itself,
    when the marker file ([pubspec.yaml] for flutter, [build.gradle]
    otherwise) is in it, or one of its immediate sub-directories holding
    the marker file: a project nested deeper is not found. When it
    returns [null], [buildFromZip] returns the failure [Invalid <type>
    project. Required files not found.] after attempting to remove the
    extraction directory and the uploaded archive. *)
Theorem project_root_within_one_level (w : ZipRun) (n : Node)
    (zipPath projectType : jsstring) :
  (forall p,
     Detect.findProjectRoot [tempDir w] n projectType = inl (Some p) ->
     (p = [tempDir w]
      /\ pathExists n [Detect.targetFile projectType] = true)
     \/ (exists item r entries items,
           n = Dir true items /\ In (item, Dir r entries) items
           /\ p = [tempDir w; item]
           /\ pathExists (Dir r entries) [Detect.targetFile projectType]
              = true))
  /\ (extracting w = inl tt ->
      Detect.findProjectRoot [tempDir w] n projectType = inl None ->
      buildFromZip (Detect.onTree w n projectType) zipPath projectType []
      = (Return (Failure (js "Invalid " ++ projectType
                          ++ js " project. Required files not found.")),
         [Remove (tempDir w); Remove zipPath])).
Proof.
  split.
  - intros p. unfold Detect.findProjectRoot.
    destruct (pathExists n [Detect.targetFile projectType]) eqn:E.
    + intros [= <-]. by left.
    + destruct n as [| | |[|] items]; try done.
      intros H. apply scanSubdirs_sound in H as (i & r & es & Hin & -> & ?).
      right. by exists i, r, es, items.
  - intros Hex Hnone.
    unfold buildFromZip, tryCatch, bind, await, throw, returnWith.
    cbn [Detect.onTree extracting Pipeline.findProjectRoot tempDir].
    rewrite Hex, Hnone. cbn [option_map].
    change (swallow (fsRemove (Detect.onTree w n projectType) (tempDir w)))
      with (swallow (R := BuildResult)
              (fsRemove (Detect.onTree w n projectType)
                 (tempDir (Detect.onTree w n projectType)))).
    by rewrite !swallow_remove.
Qed.

Lemma project_root_within_one_level_witness :
  buildFromZip (Detect.onTree smoothRun nestedTwice (js "flutter"))
    (js "uploads/app.zip") (js "flutter") []
  = (Return (Failure (js "Invalid flutter project. Required files not found.")),
     [Remove (js "temp/job-1"); Remove (js "uploads/app.zip")]).
Proof.
  destruct (project_root_within_one_level smoothRun nestedTwice
              (js "uploads/app.zip") (js "flutter")) as [_ H].
  apply H; reflexivity.
Defined.

Example detection_scenarios :
  Detect.findProjectRoot [js "temp"] nestedTwice (js "flutter") = inl None
  /\ Detect.findProjectRoot [js "temp"]
       (Dir true [(js "my_app", Dir true [(js "pubspec.yaml", File)])])
       (js "flutter") = inl (Some [js "temp"; js "my_app"])
  /\ Detect.findProjectRoot [js "temp"]
       (Dir true [(js "build.gradle.kts", File)]) (js "android") = inl None
  /\ Apk.findApk [js "temp"] staleRelease = inl None.
Proof. vm_compute. auto. Qed.
End MorePipelineFacts.

Section MoreHandlerFacts.
Import Handlers.

Lemma trimStart_blank_prefix (w s : jsstring) (c : N) :
  forallb isWhiteSpace w = true -> isWhiteSpace c = false ->
  trimStart (w ++ c :: s) = c :: s.
Proof.
  intros Hw Hc. induction w as [|x w IH]; simpl.
  - by rewrite Hc.
  - simpl in Hw. apply andb_prop in Hw as [-> Hw]. by apply IH.
Qed.

Lemma trim_core (w1 w2 core : jsstring) (first last : N) (mid : jsstring) :
  forallb isWhiteSpace w1 = true -> forallb isWhiteSpace w2 = true ->
  isWhiteSpace first = false -> isWhiteSpace last = false ->
  core = first :: mid ++ [last] ->
  Progress.trim (w1 ++ core ++ w2) = core.
Proof.
  intros H1 H2 Hf Hl ->. unfold Progress.trim.
  cbn [app]. rewrite (trimStart_blank_prefix w1 _ first H1 Hf).
  change (first :: (mid ++ [last]) ++ w2)
    with ((first :: mid ++ [last]) ++ w2).
  rewrite rev_app_distr.
  change (first :: mid ++ [last]) with ((first :: mid) ++ [last]).
  rewrite (rev_app_distr (first :: mid) [last]). cbn [rev app].
  rewrite (trimStart_blank_prefix (List.rev w2) _ last); [|  |done].
  - change (last :: List.rev mid ++ [first])
      with ([last] ++ List.rev (first :: mid)).
    rewrite rev_app_distr, rev_involutive. done.
  - rewrite forallb_forall in *. intros x Hx. apply H2.
    by apply in_rev.
Qed.

(** X19: [formatErrorMessage] returns the fixed head, the error text and
    the fixed tail, the white space around the template being trimmed
    away and none of the error text with it; the error text is cut to 500
    code units plus three dots, so the whole message has at most 618 code
    units, and an error of at most 500 code units is shown in full. *)
Theorem error_message_shape (error : jsstring) :
  Progress.formatErrorMessage error
  = Progress.errorHead ++ Progress.truncatedError error ++ Progress.errorTail
  /\ (length (Progress.truncatedError error) <= 503)%nat
  /\ (length (Progress.formatErrorMessage error) <= 618)%nat
  /\ ((length error <= 500)%nat -> Progress.truncatedError error = error).
Proof.
  assert (Progress.formatErrorMessage error
          = Progress.errorHead ++ Progress.truncatedError error
              ++ Progress.errorTail) as Hshape.
  { unfold Progress.formatErrorMessage.
    replace (10%N :: Progress.errorHead ++ Progress.truncatedError error
               ++ Progress.errorTail ++ 10%N :: js "    ")
      with ([10%N] ++ (Progress.errorHead ++ Progress.truncatedError error
                         ++ Progress.errorTail) ++ 10%N :: js "    ")
      by (cbn [app]; by rewrite <- !app_assoc).
    apply (trim_core [10%N] (10%N :: js "    ") _ 10060%N 62%N
             (List.tl Progress.errorHead ++ Progress.truncatedError error
                ++ removelast Progress.errorTail)); try done.
    change Progress.errorHead with (10060%N :: List.tl Progress.errorHead).
    change Progress.errorTail
      with (removelast Progress.errorTail ++ [62%N]) at 1.
    cbn [app]. by rewrite <- !app_assoc. }
  assert (length (Progress.truncatedError error) <= 503)%nat as Hlen.
  { unfold Progress.truncatedError, substring0.
    destruct (Nat.ltb_spec 500 (length error)); [|lia].
    rewrite length_app, length_firstn.
    change (length (js "...")) with 3%nat. lia. }
  split; [done|]. split; [done|]. split.
  - rewrite Hshape, !length_app.
    change (length Progress.errorHead) with 61%nat.
    change (length Progress.errorTail) with 54%nat. lia.
  - intros H. unfold Progress.truncatedError.
    by destruct (Nat.ltb_spec 500 (length error)); [lia|].
Qed.

Lemma error_message_shape_witness :
  Progress.truncatedError (js "SDK location not found")
  = js "SDK location not found".
Proof.
  destruct (error_message_shape (js "SDK location not found"))
    as (_ & _ & _ & H).
  apply H. vm_compute. lia.
Defined.

Lemma urlProgress_range (p : Z) (status : jsstring) :
  0 <= p <= 100 /\ p mod 5 = 0 ->
  0 <= Progress.urlProgress p status <= 100
  /\ Progress.urlProgress p status mod 5 = 0.
Proof.
  intros [Hr Hm]. unfold Progress.urlProgress.
  repeat (destruct (_ : bool); [split; [lia | reflexivity]|]).
  destruct (Z.min_spec (p + 5) 95) as [[? ->] | [? ->]];
    (split; [lia|]); [|reflexivity].
  rewrite Z.add_mod, Hm by lia. reflexivity.
Qed.

Lemma zipProgress_range (p : Z) (status : jsstring) :
  0 <= p <= 95 /\ p mod 5 = 0 ->
  0 <= Progress.zipProgress p status <= 95
  /\ Progress.zipProgress p status mod 5 = 0.
Proof.
  intros [Hr Hm]. unfold Progress.zipProgress.
  repeat (destruct (_ : bool); [split; [lia | reflexivity]|]).
  destruct (Z.min_spec (p + 5) 95) as [[? ->] | [? ->]];
    (split; [lia|]); [|reflexivity].
  rewrite Z.add_mod, Hm by lia. reflexivity.
Qed.

Lemma fold_progress (P : Z -> Prop) (f : Z -> jsstring -> Z)
    (statuses : list jsstring) (p : Z) :
  (forall q status, P q -> P (f q status)) -> P p ->
  P (fold_left f statuses p).
Proof.
  intros Hstep. revert p.
  induction statuses as [|s statuses IH]; intros p Hp; [done|].
  simpl. by apply IH, Hstep.
Qed.

(** X18: whatever status texts the build reports, and in whatever order,
    the percentage shown by the progress callback of [confirmBuild] stays
    a multiple of 5 between 0 and 100, and that of [handleZipUpload] a
    multiple of 5 between 0 and 95. *)
Theorem progress_stays_in_range (statuses : list jsstring) :
  (0 <= fold_left Progress.urlProgress statuses 0 <= 100
   /\ fold_left Progress.urlProgress statuses 0 mod 5 = 0)
  /\ (0 <= fold_left Progress.zipProgress statuses 0 <= 95
      /\ fold_left Progress.zipProgress statuses 0 mod 5 = 0).
Proof.
  split.
  - apply (fold_progress (fun p => 0 <= p <= 100 /\ p mod 5 = 0)).
    + intros q status. apply urlProgress_range.
    + split; [lia | reflexivity].
  - apply (fold_progress (fun p => 0 <= p <= 95 /\ p mod 5 = 0)).
    + intros q status. apply zipProgress_range.
    + split; [lia | reflexivity].
Qed.

Lemma acquire_refused (chatId now : Z) (q : Queue.BuildQueue) :
  Queue.has q chatId = true \/ Queue.isBusy q = true ->
  Queue.acquire chatId now q = (false, q).
Proof.
  unfold Queue.acquire, Queue.isBusy. intros [-> | Hb]; [done|].
  rewrite Hb. by destruct (Queue.has q chatId).
Qed.

Lemma setQueue_same (s : World) : setQueue (buildQueue s) s = s.
Proof. by destruct s. Qed.

(** X17: when the chat already holds a slot or the queue is full, neither
    [handleZipUpload] nor [confirmBuild] changes the queue: no slot is
    taken, released or refreshed. Once the busy notice is sent,
    [handleZipUpload] returns [true] after one attempt to remove the
    uploaded archive and the deletion of the session, and [confirmBuild]
    deletes the session as well. *)
Theorem refused_admission_leaves_queue (wz : ZipUpload) (wu : UrlRun)
    (chatId : Z) (filePath : jsstring) (s : World) :
  Queue.has (buildQueue s) chatId = true
  \/ Queue.isBusy (buildQueue s) = true ->
  buildQueue (after (handleZipUpload wz chatId filePath) s) = buildQueue s
  /\ buildQueue (after (confirmBuild wu chatId) s) = buildQueue s
  /\ (forall session,
        sessions s !! chatId = Some session ->
        step session = js "zip_upload" -> zipBusyNotice wz = inl tt ->
        handleZipUpload wz chatId filePath s
        = (Return true,
           deleteSession chatId
             (setRemoved (removed s ++ [Pipeline.Remove filePath]) s)))
  /\ (forall session,
        sessions s !! chatId = Some session -> urlBusyNotice wu = inl tt ->
        sessions (after (confirmBuild wu chatId) s)
        = delete chatId (sessions s)).
Proof.
  intros Hrefused.
  pose proof (acquire_refused chatId (zipClock wz) _ Hrefused) as Hz.
  pose proof (acquire_refused chatId (urlClock wu) _ Hrefused) as Hu.
  split; [|split; [|split]].
  - unfold after, handleZipUpload, bind at 1, get.
    destruct (sessions s !! chatId) as [session|]; [|done].
    destruct (negb (str_eqb (step session) (js "zip_upload"))); [done|].
    unfold bind at 1, acquire. rewrite Hz, setQueue_same. cbn [negb].
    unfold bind, await, removeQuietly, modify, returnWith.
    by destruct (zipBusyNotice wz) as [[]|].
  - unfold after, confirmBuild, bind at 1, get.
    destruct (sessions s !! chatId) as [session|]; [|done].
    unfold bind at 1, acquire. rewrite Hu, setQueue_same. cbn [negb].
    unfold bind, await, removeIfSet, removeQuietly, modify, returnWith, ret.
    by destruct (urlBusyNotice wu) as [[]|], (iconPath session).
  - intros session Hs Hstep Hnotice.
    unfold handleZipUpload, bind at 1, get. rewrite Hs, Hstep.
    change (str_eqb (js "zip_upload") (js "zip_upload")) with true.
    cbn [negb]. unfold bind at 1, acquire. rewrite Hz, setQueue_same.
    cbn [negb]. unfold bind, await, removeQuietly, modify, returnWith.
    by rewrite Hnotice.
  - intros session Hs Hnotice.
    unfold after, confirmBuild, bind at 1, get. rewrite Hs.
    unfold bind at 1, acquire. rewrite Hu, setQueue_same. cbn [negb].
    unfold bind, await, removeIfSet, removeQuietly, modify, returnWith, ret.
    rewrite Hnotice. by destruct (iconPath session).
Qed.

Lemma refused_admission_leaves_queue_witness :
  buildQueue (after (handleZipUpload (uploadOf 1000 smoothRun (inl tt)) 42
                       (js "uploads/app.zip")) fullWorld)
  = buildQueue fullWorld.
Proof.
  destruct (refused_admission_leaves_queue (uploadOf 1000 smoothRun (inl tt))
              startFails 42 (js "uploads/app.zip") fullWorld) as [H _].
  - right. reflexivity.
  - exact H.
Defined.

End MoreHandlerFacts.

Section FlutterFacts.
Import Flutter.

Lemma startsWith_app (s l : jsstring) :
  startsWith s l = true <-> exists t, s = l ++ t.
Proof. apply startsWith_spec. Qed.

Lemma atLineEnd_app (t x : jsstring) :
  Supervisor.atLineEnd t = true -> x = [] \/ Supervisor.atLineEnd x = true ->
  Supervisor.atLineEnd (t ++ x) = true.
Proof. destruct t; simpl; [|done]. by intros _ [-> | H]. Qed.

Lemma lineAt_spec (l s : jsstring) :
  lineAt l s = true
  <-> exists t, s = l ++ t /\ Supervisor.atLineEnd t = true.
Proof.
  unfold lineAt. rewrite andb_true_iff, startsWith_app. split.
  - intros [[t ->] H]. exists t. split; [done|].
    by rewrite skipn_app, Nat.sub_diag, skipn_all in H.
  - intros (t & -> & H). split; [by exists t|].
    by rewrite skipn_app, Nat.sub_diag, skipn_all.
Qed.

Lemma hasLineFrom_mono (l s : jsstring) :
  hasLineFrom l false s = true -> hasLineFrom l true s = true.
Proof. destruct s; simpl; [done|]. intros ->. apply orb_true_r. Qed.

Lemma hasLineFrom_here (l s : jsstring) :
  lineAt l s = true -> hasLineFrom l true s = true.
Proof. destruct s; cbn [hasLineFrom andb]; by intros ->. Qed.

Lemma hasLineFrom_skip (l u rest : jsstring) :
  lineFree u = true ->
  hasLineFrom l false (u ++ rest) = hasLineFrom l false rest.
Proof.
  induction u as [|c u IH]; [done|]. simpl. intros H.
  apply andb_prop in H as [Hc Hu]. apply negb_true_iff in Hc.
  rewrite Hc. rewrite IH by done. by destruct rest.
Qed.

Lemma lineEnd_split (r : jsstring) :
  r = Supervisor.restOfLine r ++ lineEnd r
  /\ Supervisor.atLineEnd (lineEnd r) = true.
Proof.
  induction r as [|c r [IH1 IH2]]; [done|]. simpl.
  destruct (isLineTerminator c) eqn:E; simpl.
  - by rewrite E.
  - split; [by f_equal | done].
Qed.

Lemma matchKey_split (key s t : jsstring) :
  lineFree key = true -> matchKey key s = Some t ->
  exists u, s = u ++ t /\ lineFree u = true /\ length u = length key.
Proof.
  revert s. induction key as [|k key IH]; intros s Hkey.
  - intros [= ->]. by exists [].
  - simpl in Hkey. apply andb_prop in Hkey as [Hk Hkey].
    apply negb_true_iff in Hk. destruct s as [|c s]; [done|]. simpl.
    destruct (if (k =? 46)%N then negb (isLineTerminator c) else (c =? k)%N)
      eqn:E; [|done].
    intros H. destruct (IH s Hkey H) as (u & -> & Hu & Hlen).
    exists (c :: u). split; [done|]. split; [|by simpl; f_equal].
    simpl. rewrite Hu, andb_true_r.
    destruct (k =? 46)%N; [done|]. apply N.eqb_eq in E as ->.
    by rewrite Hk.
Qed.

Lemma matchLine_split (key s rest : jsstring) :
  lineFree key = true -> matchLine key s = Some rest ->
  exists u, s = u ++ rest /\ lineFree u = true /\ u <> []
            /\ Supervisor.atLineEnd rest = true.
Proof.
  intros Hkey. unfold matchLine.
  destruct (matchKey key s) as [[|c r]|] eqn:E; try done.
  destruct (N.eqb_spec c 61) as [->|]; [|done]. intros [= <-].
  destruct (matchKey_split key s _ Hkey E) as (u & -> & Hu & _).
  destruct (lineEnd_split r) as [Hr Hend].
  exists (u ++ 61%N :: Supervisor.restOfLine r). split; [|split; [|split]].
  - rewrite <- app_assoc. simpl. by rewrite <- Hr.
  - rewrite lineFree_app, Hu. simpl. apply restOfLine_lineFree.
  - by destruct u.
  - done.
Qed.

(** A key that matches at a place where the line [l] sits matches [l]
    itself. *)
Lemma matchKey_within_line (key l t r : jsstring) :
  lineFree key = true -> Supervisor.atLineEnd t = true ->
  matchKey key (l ++ t) = Some (61%N :: r) ->
  exists r', matchKey key l = Some (61%N :: r').
Proof.
  intros Hkey Ht. revert l. induction key as [|k key IH]; intros l.
  - simpl. destruct l as [|c l]; simpl.
    + intros [= ->]. done.
    + intros [= -> _]. by exists l.
  - simpl in Hkey. apply andb_prop in Hkey as [Hk Hkey].
    apply negb_true_iff in Hk. destruct l as [|c l].
    + simpl. destruct t as [|c t]; [done|]. simpl in Ht. rewrite Ht. simpl.
      destruct (N.eqb_spec k 46); [done|].
      destruct (N.eqb_spec c k) as [->|]; [congruence | done].
    + simpl. destruct (if (k =? 46)%N then _ else _); [|done].
      by apply IH.
Qed.

Lemma matchLine_within_line (key l s rest : jsstring) :
  lineFree key = true -> lineAt l s = true ->
  matchLine key s = Some rest -> matchLine key l <> None.
Proof.
  intros Hkey Hat. apply lineAt_spec in Hat as (t & -> & Ht).
  unfold matchLine.
  destruct (matchKey key (l ++ t)) as [[|c r]|] eqn:E; try done.
  destruct (N.eqb_spec c 61) as [->|]; [|done]. intros _.
  destruct (matchKey_within_line key l t r Hkey Ht E) as [r' ->].
  done.
Qed.

Lemma matchLine_nil (key : jsstring) : matchLine key [] = None.
Proof. by destruct key. Qed.

Lemma replaced_line_present (key line s s' : jsstring) (lineStart : bool) :
  lineFree key = true ->
  replaceFirst key line lineStart s = Some s' ->
  hasLineFrom line lineStart s' = true.
Proof.
  intros Hkey. revert lineStart s'.
  induction s as [|c s IH]; intros lineStart s'; cbn [replaceFirst].
  - destruct lineStart; [|done].
    by rewrite matchLine_nil.
  - destruct (if lineStart then matchLine key (c :: s) else None)
      as [rest|] eqn:E.
    + destruct lineStart; [|done]. intros [= <-].
      apply matchLine_split in E as (u & _ & _ & _ & Hend); [|done].
      apply hasLineFrom_here, lineAt_spec. eauto.
    + destruct (replaceFirst key line (isLineTerminator c) s) as [s0|] eqn:Er;
        [|done].
      intros [= <-]. simpl. rewrite (IH _ _ Er). apply orb_true_r.
Qed.

(** A replacement that starts after the line [a] leaves it in place. *)
Lemma replaceFirst_after (key line a t s' : jsstring) :
  lineFree a = true ->
  replaceFirst key line false (a ++ t) = Some s' ->
  exists t', s' = a ++ t'
             /\ (Supervisor.atLineEnd t = true
                 -> Supervisor.atLineEnd t' = true).
Proof.
  revert s'. induction a as [|x a IH]; intros s' Ha.
  - simpl. intros H. exists s'. split; [done|].
    destruct t as [|c t]; [done|]. cbn [replaceFirst] in H.
    destruct (replaceFirst key line (isLineTerminator c) t); [|done].
    by injection H as <-.
  - simpl in Ha. apply andb_prop in Ha as [Hx Ha].
    apply negb_true_iff in Hx. cbn [app replaceFirst]. rewrite Hx.
    destruct (replaceFirst key line false (a ++ t)) as [s0|] eqn:E; [|done].
    intros [= <-]. destruct (IH s0 Ha eq_refl) as (t' & -> & Ht').
    by exists t'.
Qed.

Lemma other_line_kept (key line l s s' : jsstring) (lineStart : bool) :
  lineFree key = true -> lineFree line = true -> line <> [] ->
  lineFree l = true -> l <> [] -> matchLine key l = None ->
  hasLineFrom l lineStart s = true ->
  replaceFirst key line lineStart s = Some s' ->
  hasLineFrom l lineStart s' = true.
Proof.
  intros Hkey Hline Hne Hl Hlne Hno. revert lineStart s'.
  induction s as [|c s IH]; intros lineStart s' Hhas; cbn [replaceFirst].
  - destruct lineStart; [|done].
    by rewrite matchLine_nil.
  - destruct (if lineStart then matchLine key (c :: s) else None)
      as [rest|] eqn:E.
    + destruct lineStart; [|done]. intros [= <-].
      cbn [hasLineFrom andb] in Hhas. apply orb_prop in Hhas as [Hat|Hlater].
      { by destruct (matchLine_within_line key l (c :: s) rest Hkey Hat E). }
      apply matchLine_split in E as (u & Hs & Hu & Hune & Hend); [|done].
      destruct u as [|c' u]; [done|]. injection Hs as <- ->.
      simpl in Hu. apply andb_prop in Hu as [Hc Hu].
      apply negb_true_iff in Hc. rewrite Hc in Hlater.
      rewrite hasLineFrom_skip in Hlater by done.
      destruct line as [|x line]; [done|]. simpl in Hline.
      apply andb_prop in Hline as [Hx Hline]. apply negb_true_iff in Hx.
      cbn [app hasLineFrom]. rewrite Hx.
      rewrite (hasLineFrom_skip l line rest Hline), Hlater.
      apply orb_true_r.
    + destruct (replaceFirst key line (isLineTerminator c) s) as [s0|] eqn:Er;
        [|done].
      intros [= <-]. cbn [hasLineFrom] in *.
      apply orb_prop in Hhas as [Hat|Hlater].
      * apply andb_prop in Hat as [-> Hat]. simpl in E.
        apply lineAt_spec in Hat as (t & Hs & Ht).
        destruct l as [|x l]; [done|]. injection Hs as <- ->.
        simpl in Hl. apply andb_prop in Hl as [Hx Hl].
        apply negb_true_iff in Hx. rewrite Hx in Er.
        destruct (replaceFirst_after key line l t s0 Hl Er) as (t' & -> & Ht').
        apply (hasLineFrom_here (c :: l) (c :: l ++ t')), lineAt_spec.
        exists t'. auto.
      * rewrite (IH _ _ Hlater Er). apply orb_true_r.
Qed.

Lemma line_kept_by_append (l s x : jsstring) (lineStart : bool) :
  hasLineFrom l lineStart s = true ->
  hasLineFrom l lineStart (s ++ 10%N :: x) = true.
Proof.
  revert lineStart. induction s as [|c s IH]; intros lineStart.
  - simpl. destruct lineStart; simpl; [|done]. rewrite orb_false_r.
    intros Hat. apply lineAt_spec in Hat as (t & Ht & _).
    destruct l; [|done]. by destruct t.
  - cbn [app hasLineFrom]. intros H. apply orb_prop in H as [Hat | Hlater].
    + apply andb_prop in Hat as [-> Hat]. simpl.
      apply lineAt_spec in Hat as (t & Hs & Ht).
      apply (hasLineFrom_here l ((c :: s) ++ 10%N :: x)), lineAt_spec.
      exists (t ++ 10%N :: x). split.
      * by rewrite Hs, <- app_assoc.
      * apply atLineEnd_app; [done | by right].
    + rewrite (IH _ Hlater). apply orb_true_r.
Qed.

Lemma appended_line_present (line s : jsstring) (lineStart : bool) :
  hasLineFrom line lineStart (s ++ 10%N :: line) = true.
Proof.
  revert lineStart. induction s as [|c s IH]; intros lineStart.
  - cbn [app hasLineFrom]. change (isLineTerminator 10) with true.
    rewrite (hasLineFrom_here line line); [apply orb_true_r|].
    apply lineAt_spec. exists []. by rewrite app_nil_r.
  - cbn [app hasLineFrom]. rewrite IH. apply orb_true_r.
Qed.

Lemma trimStart_split (s : jsstring) :
  exists w, s = w ++ trimStart s /\ forallb isWhiteSpace w = true.
Proof.
  induction s as [|c s (w & Hs & Hw)]; [by exists []|]. simpl.
  destruct (isWhiteSpace c) eqn:E.
  - exists (c :: w). simpl. rewrite E, Hw. split; [by f_equal | done].
  - by exists [].
Qed.

Lemma trim_split (s : jsstring) :
  exists w, trimStart s = Progress.trim s ++ w
            /\ forallb isWhiteSpace w = true.
Proof.
  unfold Progress.trim.
  destruct (trimStart_split (List.rev (trimStart s))) as (w & Hs & Hw).
  exists (List.rev w). split.
  - rewrite <- rev_app_distr, <- Hs. by rewrite rev_involutive.
  - rewrite forallb_forall in *. intros x Hx. apply Hw. by apply in_rev.
Qed.

Lemma solid_parts (l : jsstring) :
  solid l = true ->
  lineFree l = true
  /\ (exists c m, l = c :: m /\ isWhiteSpace c = false)
  /\ (exists m c, l = m ++ [c] /\ isWhiteSpace c = false).
Proof.
  unfold solid. intros H. apply andb_prop in H as [H Hlast].
  apply andb_prop in H as [Hfree Hfirst]. split; [done|].
  destruct l as [|c m]; [done|]. apply negb_true_iff in Hfirst, Hlast.
  split; [by exists c, m|].
  destruct (exists_last (l := c :: m)) as (m' & x & Hx); [done|].
  exists m', x. split; [done|]. by rewrite Hx, last_last in Hlast.
Qed.

Lemma line_kept_by_trimStart (l s : jsstring) :
  solid l = true -> hasLineFrom l true s = true ->
  hasLineFrom l true (trimStart s) = true.
Proof.
  intros Hl. destruct (solid_parts l Hl) as (_ & (x & m & -> & Hx) & _).
  induction s as [|c s IH]; [done|]. cbn [hasLineFrom trimStart andb].
  destruct (isWhiteSpace c) eqn:E; [|done].
  intros H. apply orb_prop in H as [Hat | Hlater].
  - apply lineAt_spec in Hat as (t & [= -> _] & _). congruence.
  - apply IH. destruct (isLineTerminator c); [done|].
    by apply hasLineFrom_mono.
Qed.

Lemma no_line_in_blank (l w : jsstring) (lineStart : bool) :
  solid l = true -> forallb isWhiteSpace w = true ->
  hasLineFrom l lineStart w = false.
Proof.
  intros Hl. destruct (solid_parts l Hl) as (_ & (x & m & -> & Hx) & _).
  revert lineStart. induction w as [|c w IH]; intros lineStart Hw.
  - simpl. by rewrite andb_false_r.
  - simpl in Hw. apply andb_prop in Hw as [Hc Hw].
    cbn [hasLineFrom]. rewrite IH by done.
    destruct (lineAt (x :: m) (c :: w)) eqn:Hat;
      [|by rewrite andb_false_r].
    apply lineAt_spec in Hat as (t & [= -> _] & _). congruence.
Qed.

Lemma lineAt_before_blank (l t w : jsstring) :
  solid l = true -> forallb isWhiteSpace w = true ->
  lineAt l (t ++ w) = true -> lineAt l t = true.
Proof.
  intros Hl Hw Hat. destruct (solid_parts l Hl) as (_ & _ & (m & x & -> & Hx)).
  apply lineAt_spec in Hat as (post & Heq & Hend). symmetry in Heq.
  apply app_eq_app in Heq as [y [[Hm Hpost] | [Ht Hpost]]].
  - destruct y as [|y0 y] using rev_ind.
    + rewrite app_nil_r in Hm. subst t. apply lineAt_spec. exists [].
      by rewrite app_nil_r.
    + clear IHy. rewrite app_assoc in Hm. apply app_inj_tail in Hm as [_ ->].
      rewrite Hpost, <- app_assoc, forallb_app in Hw. simpl in Hw.
      apply andb_prop in Hw as [_ Hw]. apply andb_prop in Hw as [Hw _].
      congruence.
  - apply lineAt_spec. exists y. split; [done|]. subst post.
    by destruct y.
Qed.

Lemma line_kept_before_blank (l t w : jsstring) (lineStart : bool) :
  solid l = true -> forallb isWhiteSpace w = true ->
  hasLineFrom l lineStart (t ++ w) = true ->
  hasLineFrom l lineStart t = true.
Proof.
  intros Hl Hw. revert lineStart. induction t as [|c t IH]; intros lineStart.
  - simpl app. by rewrite no_line_in_blank.
  - cbn [app hasLineFrom]. intros H. apply orb_prop in H as [Hat | Hlater].
    + apply andb_prop in Hat as [-> Hat]. simpl.
      apply (lineAt_before_blank l (c :: t) w Hl Hw) in Hat.
      by rewrite Hat.
    + rewrite (IH _ Hlater). apply orb_true_r.
Qed.

Lemma line_kept_by_trim (l s : jsstring) :
  solid l = true -> hasLine l s = true ->
  hasLine l (Progress.trim s ++ [10%N]) = true.
Proof.
  intros Hl Hs. apply (line_kept_by_append l _ []).
  destruct (trim_split s) as (w & Hsplit & Hw).
  apply (line_kept_before_blank l _ w true Hl Hw). rewrite <- Hsplit.
  by apply line_kept_by_trimStart.
Qed.

Lemma solid_lineFree (l : jsstring) : solid l = true -> lineFree l = true.
Proof. intros H. by destruct (solid_parts l H). Qed.

Lemma solid_nonempty (l : jsstring) : solid l = true -> l <> [].
Proof.
  intros H. by destruct (solid_parts l H) as (_ & (? & ? & -> & _) & _).
Qed.

Lemma key_lineFree (kv : jsstring * jsstring) :
  wellFormed kv = true -> lineFree (fst kv) = true.
Proof.
  intros H. apply solid_lineFree in H. unfold lineOf in H.
  rewrite lineFree_app in H. by apply andb_prop in H as [H _].
Qed.

Lemma setProp_adds (s : jsstring) (kv : jsstring * jsstring) :
  wellFormed kv = true -> hasLine (lineOf kv) (setProp s kv) = true.
Proof.
  intros Hkv. unfold setProp, hasLine.
  destruct (replaceFirst (fst kv) (lineOf kv) true s) as [s'|] eqn:E.
  - apply (replaced_line_present (fst kv) _ s); [by apply key_lineFree | done].
  - apply appended_line_present.
Qed.

Lemma setProp_keeps (s l : jsstring) (kv : jsstring * jsstring) :
  wellFormed kv = true -> solid l = true ->
  matchLine (fst kv) l = None ->
  hasLine l s = true -> hasLine l (setProp s kv) = true.
Proof.
  intros Hkv Hl Hno Hs. unfold setProp, hasLine.
  destruct (replaceFirst (fst kv) (lineOf kv) true s) as [s'|] eqn:E.
  - apply (other_line_kept (fst kv) (lineOf kv) l s); try done.
    + by apply key_lineFree.
    + by apply solid_lineFree.
    + by apply solid_nonempty.
    + by apply solid_lineFree.
    + by apply solid_nonempty.
  - by apply line_kept_by_append.
Qed.

Lemma fold_setProp_keeps (ps : list (jsstring * jsstring)) (s l : jsstring) :
  forallb wellFormed ps = true -> solid l = true ->
  untouched ps l = true -> hasLine l s = true ->
  hasLine l (fold_left setProp ps s) = true.
Proof.
  intros Hps Hl. revert s. induction ps as [|kv ps IH]; intros s Hun Hs.
  - done.
  - simpl in Hps, Hun. apply andb_prop in Hps as [Hkv Hps].
    apply andb_prop in Hun as [Hno Hun]. simpl. apply IH; try done.
    apply setProp_keeps; try done. by destruct (matchLine (fst kv) l).
Qed.

Lemma compatible_wellFormed (ps : list (jsstring * jsstring)) :
  compatible ps = true -> forallb wellFormed ps = true.
Proof.
  induction ps as [|kv ps IH]; [done|]. simpl. intros H.
  apply andb_prop in H as [H Hps]. apply andb_prop in H as [-> _].
  by apply IH.
Qed.

Lemma fold_setProp_sets (ps : list (jsstring * jsstring)) (s : jsstring)
    (kv : jsstring * jsstring) :
  compatible ps = true -> In kv ps ->
  hasLine (lineOf kv) (fold_left setProp ps s) = true.
Proof.
  revert s. induction ps as [|kv' ps IH]; intros s Hps Hin; [done|].
  simpl in Hps. apply andb_prop in Hps as [H Hrest].
  apply andb_prop in H as [Hkv Hun]. simpl.
  destruct Hin as [-> | Hin]; [|by apply IH].
  apply fold_setProp_keeps; try done.
  - by apply compatible_wellFormed.
  - by apply setProp_adds.
Qed.

Lemma hasLine_isLineOf (l s : jsstring) :
  hasLine l s = true <-> isLineOf l s.
Proof.
  unfold hasLine, isLineOf. split.
  - assert (forall b, hasLineFrom l b s = true ->
      exists pre post, s = pre ++ l ++ post
        /\ ((b = true /\ pre = [])
            \/ exists pre' c, pre = pre' ++ [c] /\ isLineTerminator c = true)
        /\ Supervisor.atLineEnd post = true) as Hgen.
    { induction s as [|c s IH]; intros b; cbn [hasLineFrom].
      - rewrite orb_false_r. intros H. apply andb_prop in H as [-> Hat].
        apply lineAt_spec in Hat as (t & Heq & Ht). exists [], t. auto.
      - intros H. apply orb_prop in H as [H | H].
        + apply andb_prop in H as [-> Hat].
          apply lineAt_spec in Hat as (t & Heq & Ht). exists [], t. auto.
        + destruct (IH _ H) as (pre & post & -> & Hpre & Hpost).
          exists (c :: pre), post. split; [done|]. split; [|done]. right.
          destruct Hpre as [[Hc ->] | (pre' & x & -> & Hx)].
          * by exists [], c.
          * by exists (c :: pre'), x. }
    intros H. destruct (Hgen true H) as (pre & post & -> & Hpre & Hpost).
    exists pre, post. split; [done|]. split; [|done].
    destruct Hpre as [[_ ->] | Hpre]; auto.
  - intros (pre & post & -> & Hpre & Hpost).
    assert (forall b, (b = true /\ pre = []
        \/ exists pre' c, pre = pre' ++ [c] /\ isLineTerminator c = true) ->
      hasLineFrom l b (pre ++ l ++ post) = true) as Hgen.
    { clear Hpre. induction pre as [|c pre IH]; intros b Hb.
      - destruct Hb as [[-> _] | (pre' & x & Hx & _)];
          [|by destruct pre'].
        apply hasLineFrom_here, lineAt_spec. eauto.
      - cbn [app hasLineFrom]. rewrite IH; [apply orb_true_r|].
        destruct Hb as [[_ ?] | (pre' & x & Hx & Hlt)]; [done|].
        destruct pre' as [|c' pre'].
        + injection Hx as -> ->. by left.
        + injection Hx as -> ->. right. by exists pre', x. }
    apply Hgen. destruct Hpre as [-> | Hpre]; auto.
Qed.

(** X15: whatever [android/gradle.properties] held before, and when it
    did not exist, the text [buildFlutter] writes there has each of the
    six settings of [propsToSet] as a whole line [key=value]; so
    [android.enableJetifier=false] is always a line of the file. *)
Theorem gradle_properties_settings (existing : option jsstring) :
  Forall (fun kv => isLineOf (lineOf kv) (gradleProperties existing))
    propsToSet.
Proof.
  apply Forall_forall. intros kv Hin. apply hasLine_isLineOf.
  unfold gradleProperties. apply line_kept_by_trim.
  - assert (forallb wellFormed propsToSet = true) as Hwf by done.
    rewrite forallb_forall in Hwf. apply Hwf.
    by apply list_elem_of_In.
  - apply fold_setProp_sets; [done|]. by apply list_elem_of_In.
Qed.

(** X16: a line of the existing [gradle.properties] that none of the six
    keys matches as a pattern, and that has no white space at either end,
    is still a line of the rewritten file. *)
Theorem gradle_properties_keeps_other_lines (existing l : jsstring) :
  solid l = true -> untouched propsToSet l = true ->
  isLineOf l existing ->
  isLineOf l (gradleProperties (Some existing)).
Proof.
  intros Hl Hun Hin. apply hasLine_isLineOf. apply hasLine_isLineOf in Hin.
  unfold gradleProperties. apply line_kept_by_trim; [done|].
  by apply fold_setProp_keeps.
Qed.

Lemma gradle_properties_keeps_other_lines_witness :
  isLineOf (js "kotlin.code.style=official")
    (gradleProperties (Some userProperties)).
Proof.
  apply (gradle_properties_keeps_other_lines userProperties
           (js "kotlin.code.style=official")).
  - reflexivity.
  - reflexivity.
  - apply hasLine_isLineOf. reflexivity.
Defined.

(** The rewrite on [userProperties]: the first line of a key is replaced
    where it stands, a later line of the same key stays as it is, and the
    settings that were missing are appended. *)
Example gradle_properties_scenario :
  gradleProperties (Some userProperties)
  = joinLines
      [ js "# Project-wide Gradle settings.";
        js "android.enableJetifier=false";
        js "kotlin.code.style=official";
        js "android.enableJetifier=true";
        [];
        Flutter.lineOf (js "org.gradle.jvmargs",
                        js "-Xmx2048m -XX:MaxMetaspaceSize=512m"
                          ++ js " -Dfile.encoding=UTF-8");
        js "android.useAndroidX=true";
        js "org.gradle.daemon=false";
        js "org.gradle.parallel=true";
        js "org.gradle.caching=false";
        [] ].
Proof. vm_compute. reflexivity. Qed.
End FlutterFacts.

Section HandlerRunFacts.
Import Handlers.

Lemma confirmBuild_releases_witness :
  holdsSlot 42 (after (confirmBuild gradleBreaks 42) uploadWorld) = false.
Proof.
  apply (confirmBuild_releases gradleBreaks 42 uploadWorld).
  - eexists. reflexivity.
  - reflexivity.
  - reflexivity.
  - reflexivity.
Defined.

Lemma handleZipUpload_releases_witness :
  holdsSlot 42
    (after (handleZipUpload (uploadOf 0 brokenArchive (inl tt)) 42
              (js "uploads/app.zip")) uploadWorld) = false.
Proof.
  apply (handleZipUpload_releases (uploadOf 0 brokenArchive (inl tt)) 42
           (js "uploads/app.zip") uploadWorld
           (mkSession (js "zip_upload") (js "flutter") None)).
  - reflexivity.
  - reflexivity.
  - reflexivity.
  - reflexivity.
  - reflexivity.
  - reflexivity.
  - intros size [= <-]. unfold MAX_FILE_SIZE. simpl. lia.
Defined.

End HandlerRunFacts.

Section PipelinesInHandlersFacts.
Import Handlers.

(** X22: a [confirmBuild] call that is granted a slot and sends its first
    message removes what the build left: when [buildApk] succeeded, the
    handler attempts to remove the APK, then the build directory, then the
    uploaded icon if there is one; when [buildApk] failed, [buildApk]
    itself has attempted to remove the build directory and the handler
    attempts to remove the icon only. Either way the session is deleted.
    Paths are not empty, as [path.join] gives them. *)
Theorem url_build_removes_its_files (w : UrlRun) (a : Apk.ApkRun)
    (chatId : Z) (s : World) (session : Session) :
  sessions s !! chatId = Some session ->
  Queue.has (buildQueue s) chatId = false ->
  Queue.isBusy (buildQueue s) = false ->
  startNotice w = inl tt ->
  Apk.buildDir a <> [] -> Apk.copied a <> inl [] ->
  iconPath session <> Some [] ->
  ((exists apkPath,
      Apk.buildApk a []
      = (Return (Pipeline.Success apkPath (Apk.buildDir a)), [])
      /\ removed (after (confirmBuild (withBuild w a) chatId) s)
         = removed s
             ++ [Pipeline.Remove apkPath; Pipeline.Remove (Apk.buildDir a)]
             ++ iconRemoval session)
   \/ (exists error,
        Apk.buildApk a []
        = (Return (Pipeline.Failure error),
           [Pipeline.Remove (Apk.buildDir a)])
        /\ removed (after (confirmBuild (withBuild w a) chatId) s)
           = removed s ++ iconRemoval session))
  /\ sessions (after (confirmBuild (withBuild w a) chatId) s) !! chatId
     = None.
Proof.
  intros Hs Hfree Hroom Hstart _ _ _.
  remember (after (confirmBuild (withBuild w a) chatId) s) as s' eqn:E.
  unfold after, confirmBuild, bind at 1, get in E. rewrite Hs in E.
  unfold bind at 1, acquire, Queue.acquire in E.
  unfold Queue.isBusy in Hroom. rewrite Hfree, Hroom in E. cbn [negb] in E.
  unfold bind at 1 in E. cbn [withBuild startNotice] in E.
  rewrite Hstart in E. cbn [await] in E. unfold tryFinally in E.
  match type of E with
  | context [tryCatch ?b ?h ?s0] =>
      destruct (tryCatch b h s0) as [c s1] eqn:Hbody;
      assert (exists q, s1 = setQueue q s0) as [q ->]
  end.
  { unfold tryCatch, bind at 1 in Hbody.
    match type of Hbody with
    | context [forEach updateActivity ?l ?s0] =>
        destruct (forEach_updateActivity l s0) as (q & Hq)
    end.
    rewrite Hq in Hbody. exists q.
    unfold bind, await, throw in Hbody.
    cbn [withBuild buildApk successNotice urlSendDocument againNotice
           sendBuildReport urlErrorNotice] in Hbody.
    destruct (resultOf a) as [[apk dir|err]|e];
      destruct (successNotice w) as [[]|], (urlSendDocument w) as [[]|],
        (againNotice w) as [[]|], (sendBuildReport w) as [[]|],
        (urlErrorNotice w) as [[]|];
      by injection Hbody as <- <-. }
  cbn [withBuild buildApk] in E. unfold resultOf, iconRemoval in *.
  destruct (buildApk_outcomes a) as [[apk Hb] | [err Hb]];
    rewrite Hb in E |- *; cbn [fst apkPathOf buildDirOf] in E;
    unfold bind, removeIfSet, removeQuietly, release, modify, ret in E;
    destruct (iconPath session) as [icon|]; cbn in E; subst s'; cbn;
    (split; [|by rewrite lookup_delete_eq]).
  - left. exists apk. split; [done|]. by rewrite <- !app_assoc.
  - left. exists apk. split; [done|]. by rewrite <- !app_assoc.
  - right. by exists err.
  - right. exists err. by rewrite app_nil_r.
Qed.

Lemma url_build_removes_its_files_witness :
  removed (after (confirmBuild (withBuild gradleBreaks apkBuilt) 42)
             uploadWorld)
  = [Pipeline.Remove (js "output/My_App_1700000000000.apk");
     Pipeline.Remove (js "temp/4f1c")].
Proof.
  destruct (url_build_removes_its_files gradleBreaks apkBuilt 42 uploadWorld
              (mkSession (js "zip_upload") (js "flutter") None))
    as [[(apk & Hb & H) | (err & Hb & H)] _]; done.
Defined.

(** X23: a [handleZipUpload] call that is granted a slot and sends its
    status message attempts these removals and no other, counting those
    of the handler and of [buildFromZip] themselves (the clean-up of
    caches inside [buildFlutter] is not part of the account): when the build
    failed, the working directory and the uploaded archive (by
    [buildFromZip]); when it succeeded, the archive, and then the APK and
    the working directory if and only if the APK was sent to the chat. An
    APK that is too large, or whose sending fails, stays on disk with its
    working directory. Paths are not empty, as [path.join] gives them. *)
Theorem upload_removes_its_files (w : ZipUpload) (chatId : Z)
    (filePath : jsstring) (s : World) (session : Session) :
  sessions s !! chatId = Some session ->
  step session = js "zip_upload" ->
  Queue.has (buildQueue s) chatId = false ->
  Queue.isBusy (buildQueue s) = false ->
  statusNotice w = inl tt ->
  filePath <> [] -> Pipeline.tempDir (zipRun w) <> [] ->
  Pipeline.buildFlutter (zipRun w) <> inl [] ->
  Pipeline.buildAndroid (zipRun w) <> inl [] ->
  (exists error,
     fst (Pipeline.buildFromZip (zipRun w) filePath (projectType session) [])
     = Return (Pipeline.Failure error)
     /\ removed (after (handleZipUpload w chatId filePath) s)
        = removed s
            ++ [Pipeline.Remove (Pipeline.tempDir (zipRun w));
                Pipeline.Remove filePath])
  \/ (exists apkPath,
       fst (Pipeline.buildFromZip (zipRun w) filePath (projectType session) [])
       = Return (Pipeline.Success apkPath (Pipeline.tempDir (zipRun w)))
       /\ removed (after (handleZipUpload w chatId filePath) s)
          = removed s
              ++ Pipeline.Remove filePath
                 :: (if delivered w
                     then [Pipeline.Remove apkPath;
                           Pipeline.Remove (Pipeline.tempDir (zipRun w))]
                     else [])).
Proof.
  intros Hs Hstep Hfree Hroom Hstatus _ _ _ _.
  remember (after (handleZipUpload w chatId filePath) s) as s' eqn:E.
  unfold after, handleZipUpload, bind at 1, get in E.
  rewrite Hs, Hstep in E.
  change (str_eqb (js "zip_upload") (js "zip_upload")) with true in E.
  cbn [negb] in E.
  unfold bind at 1, acquire, Queue.acquire in E.
  unfold Queue.isBusy in Hroom. rewrite Hfree, Hroom in E. cbn [negb] in E.
  unfold bind at 1 in E. rewrite Hstatus in E. cbn [await] in E.
  unfold bind at 1, tryCatch, bind at 1, call, zoom in E.
  rewrite <- (withRemoveRejects_same (zipRun w)) in E |- *.
  destruct (buildFromZip_outcomes (zipRun w) filePath (projectType session))
    as [[apk H] | [err H]]; rewrite !H in E |- *; cbn [fst].
  - right. exists apk. split; [done|]. unfold delivered.
    rewrite !(withRemoveRejects_same (zipRun w)).
    unfold bind, await, returnWith, removeQuietly, release, modify in E.
    destruct (apkSize w) as [size|e]; cbn in E;
      [|destruct (zipErrorNotice w) as [[]|]; by subst s'].
    destruct (size >? MAX_FILE_SIZE w); cbn in E |- *.
    + destruct (registerBuildForDownload w) as [[]|]; cbn in E;
        [destruct (linkNotice w) as [[]|]; cbn in E|];
        destruct (sendingNotice w) as [[]|], (zipSendDocument w) as [[]|],
          (zipErrorNotice w) as [[]|];
        by subst s'.
    + destruct (sendingNotice w) as [[]|]; cbn in E;
        [|destruct (zipErrorNotice w) as [[]|]; by subst s'].
      destruct (zipSendDocument w) as [[]|]; cbn in E;
        [|destruct (zipErrorNotice w) as [[]|]; by subst s'].
      destruct (doneNotice w) as [[]|]; cbn in E;
        [|destruct (zipErrorNotice w) as [[]|]; cbn in E];
        subst s'; cbn; by rewrite <- !app_assoc.
  - left. exists err. split; [done|].
    unfold bind, throw, await, returnWith, release, modify in E. cbn in E.
    destruct (zipErrorNotice w) as [[]|]; cbn in E; subst s'; cbn;
      by rewrite <- !app_assoc.
Qed.

Lemma upload_removes_its_files_witness :
  removed (after (handleZipUpload sendFails 42 (js "uploads/app.zip"))
             uploadWorld)
  = [Pipeline.Remove (js "uploads/app.zip")].
Proof.
  destruct (upload_removes_its_files sendFails 42 (js "uploads/app.zip")
              uploadWorld (mkSession (js "zip_upload") (js "flutter") None))
    as [(err & Hb & H) | (apk & Hb & H)]; done.
Defined.
End PipelinesInHandlersFacts.

Section BarFacts.

Lemma steps_spec (p : Z) : 0 <= p <= 100 -> p mod 5 = 0 -> In p steps.
Proof.
  intros Hr Hm. unfold steps. apply in_map_iff.
  exists (Z.to_nat (p / 5)). split.
  - rewrite Z2Nat.id by (apply Z.div_pos; lia).
    rewrite (Z.div_mod p 5) at 2 by lia. lia.
  - apply in_seq. split; [lia|]. simpl.
    assert (p / 5 <= 20) by (apply Z.div_le_upper_bound; lia).
    assert (0 <= p / 5) by (apply Z.div_pos; lia). lia.
Qed.

Lemma bar_on_steps (p : Z) :
  In p steps ->
  exists bar, Bar.progressBar p 15 = inl bar /\ length bar = 15%nat.
Proof.
  intros H. vm_compute in H.
  repeat (destruct H as [<- | H];
          [eexists; split; [vm_compute; reflexivity | reflexivity]|]).
  destruct H.
Qed.

(** X24: whatever status texts the build reports, [progressBar] draws the
    percentage the progress callback of [confirmBuild] or of
    [handleZipUpload] has reached without throwing, and the bar has
    exactly 15 cells: the number of empty cells passed to [repeat] is
    never negative. *)
Theorem progress_bar_always_drawn (statuses : list jsstring) :
  (exists bar,
     Bar.progressBar (fold_left Progress.urlProgress statuses 0) 15 = inl bar
     /\ length bar = 15%nat)
  /\ (exists bar,
       Bar.progressBar (fold_left Progress.zipProgress statuses 0) 15
       = inl bar
       /\ length bar = 15%nat).
Proof.
  split; apply bar_on_steps.
  - destruct (fold_progress (fun p => 0 <= p <= 100 /\ p mod 5 = 0)
                Progress.urlProgress statuses 0) as [Hr Hm].
    + intros q status. apply urlProgress_range.
    + split; [lia | reflexivity].
    + by apply steps_spec.
  - destruct (fold_progress (fun p => 0 <= p <= 95 /\ p mod 5 = 0)
                Progress.zipProgress statuses 0) as [Hr Hm].
    + intros q status. apply zipProgress_range.
    + split; [lia | reflexivity].
    + apply steps_spec; [lia | done].
Qed.

(** The bar at 10, 30 and 100 percent, and what a percentage above 100
    would do: [repeat] throws on the negative number of empty cells. *)
Example progress_bar_scenarios :
  Bar.progressBar 10 15 = inl (repeat 9608%N 2 ++ repeat 9617%N 13)
  /\ Bar.progressBar 30 15 = inl (repeat 9608%N 5 ++ repeat 9617%N 10)
  /\ Bar.progressBar 100 15 = inl (repeat 9608%N 15)
  /\ Bar.progressBar 105 15 = inr (js "RangeError: Invalid count value").
Proof. vm_compute. auto. Qed.

End BarFacts.

Section FindApkFacts.
Import Pipeline.

Lemma endsWith_app (s p : jsstring) : endsWith (s ++ p) p = true.
Proof.
  unfold endsWith, startsWith. apply startsWith_spec.
  exists (List.rev s). by rewrite rev_app_distr.
Qed.

Lemma possiblePaths_apk (buildType : jsstring) (rel : Path) :
  In rel (possiblePaths buildType) ->
  endsWith (List.last rel []) (js ".apk") = true.
Proof.
  intros H. simpl in H.
  destruct H as [<- | [<- | [<- | [<- | []]]]]; cbn [List.last];
    try reflexivity;
    apply (endsWith_app (js "app-" ++ buildType) (js ".apk")).
Qed.

(** X25: whatever [findApk] of the ZIP pipeline returns has a last
    component ending in [.apk] and is either one of its four standard
    places, which exists, or, when none of the four exists, a file at most
    5 directories below the project root found by the recursive search.
    When the first standard place exists, it is the answer, whatever else
    the tree holds. *)
Theorem findApk_prefers_standard_paths (projectDir : Path) (n : Node)
    (buildType : jsstring) :
  (forall p,
     findApk projectDir n buildType = Some p ->
     exists rel,
       p = projectDir ++ rel
       /\ endsWith (List.last rel []) (js ".apk") = true
       /\ ((In rel (possiblePaths buildType) /\ pathExists n rel = true)
           \/ ((forall q, In q (possiblePaths buildType) ->
                          pathExists n q = false)
               /\ fileAt n rel /\ (length rel <= 6)%nat)))
  /\ (pathExists n (standardApk buildType) = true ->
      findApk projectDir n buildType
      = Some (projectDir ++ standardApk buildType)).
Proof.
  unfold findApk. split.
  - intros p.
    destruct (List.find (pathExists n) (possiblePaths buildType))
      as [rel|] eqn:E.
    + intros [= <-]. apply find_some in E as [Hin Hex].
      exists rel. split; [done|]. split; [by eapply possiblePaths_apk|].
      by left.
    + intros Hp.
      destruct (found_is_located (js ".apk") 5 n projectDir 0%nat p Hp)
        as (dirs & file & -> & Hat & Hext & Hlen & _).
      exists (dirs ++ [file]). split; [done|].
      split; [by rewrite last_last|]. right. split; [|split].
      * intros q Hq. by apply (find_none _ _ E).
      * done.
      * rewrite length_app. simpl in *. lia.
  - intros Hex. unfold standardApk in Hex. cbn [possiblePaths List.find].
    by rewrite Hex.
Qed.

Lemma findApk_prefers_standard_paths_witness :
  findApk [js "temp"; js "job-1"] strayAndBuilt (js "release")
  = Some ([js "temp"; js "job-1"] ++ standardApk (js "release")).
Proof.
  destruct (findApk_prefers_standard_paths [js "temp"; js "job-1"]
              strayAndBuilt (js "release")) as [_ H].
  apply H. reflexivity.
Defined.

End FindApkFacts.

Section WizardFacts.
Import Wizard.

Lemma trimStart_head (s : jsstring) (c : N) (rest : jsstring) :
  trimStart s = c :: rest -> isWhiteSpace c = false.
Proof.
  induction s as [|x s IH]; [done|]. simpl.
  destruct (isWhiteSpace x) eqn:E; [done|]. by intros [= <- _].
Qed.

Lemma last_default (l : jsstring) (d d' : N) :
  l <> [] -> List.last l d = List.last l d'.
Proof.
  induction l as [|x l IH]; [done|]. intros _. cbn [List.last].
  destruct l; [done|]. by apply IH.
Qed.

Lemma trim_ends (s : jsstring) (c : N) (rest : jsstring) :
  Progress.trim s = c :: rest ->
  isWhiteSpace c = false /\ isWhiteSpace (List.last (c :: rest) c) = false.
Proof.
  unfold Progress.trim. intros H.
  destruct (trimStart_split (List.rev (trimStart s))) as (w & Hsplit & _).
  set (u := trimStart (List.rev (trimStart s))) in *.
  assert (u = List.rev (c :: rest)) as Hu
    by (by rewrite <- H, rev_involutive).
  split.
  - apply (f_equal (@List.rev N)) in Hsplit.
    rewrite rev_involutive, rev_app_distr, Hu, rev_involutive in Hsplit.
    simpl in Hsplit. by apply trimStart_head in Hsplit.
  - rewrite <- H. destruct u as [|x u'] eqn:Eu; [by destruct rest|].
    change (List.rev (x :: u')) with (List.rev u' ++ [x]).
    destruct (List.rev u' ++ [x]) as [|y l] eqn:El;
      [by destruct (List.rev u')|].
    rewrite <- El, last_last. by apply (trimStart_head _ x u') in Eu.
Qed.

(** X26: when [handleNameInput] accepts a message, the name it stores is
    the trimmed text, has 2 to 30 code units and no white space at either
    end, the step becomes [icon] and the rest of the session is kept; the
    file name [buildApk] derives from that name has the same length and
    only letters, digits and underscores. When it answers that the name is
    invalid, the session is left as it was. *)
Theorem accepted_name_is_trimmed_and_bounded (text : option jsstring)
    (session : Session) :
  (forall name u,
     snd (handleNameInput text session) = AskIcon u name ->
     (exists t, text = Some t /\ name = Progress.trim t)
     /\ (2 <= length name <= 30)%nat
     /\ isWhiteSpace (List.hd 32%N name) = false
     /\ isWhiteSpace (List.last name 32%N) = false
     /\ fst (handleNameInput text session)
        = {| step := js "icon";
             data := {| url := url (data session); appName := Some name;
                        iconPath := iconPath (data session) |} |}
     /\ length (sanitizedName name) = length name
     /\ forallb (fun c => isAlnum c || N.eqb c 95) (sanitizedName name)
        = true)
  /\ (snd (handleNameInput text session) = InvalidName ->
      fst (handleNameInput text session) = session).
Proof.
  unfold handleNameInput.
  destruct text as [t|]; cbn [option_map]; [|by split].
  destruct (Progress.trim t) as [|c rest] eqn:E; [by split|].
  destruct (Nat.ltb_spec (length (c :: rest)) 2) as [|Hlo]; [by split|].
  destruct (Nat.ltb_spec 30 (length (c :: rest))) as [|Hhi]; [by split|].
  cbn [orb fst snd]. split; [|done].
  intros name u [= _ <-]. destruct (trim_ends t c rest E) as [Hc Hlast].
  split; [by exists t|]. split; [lia|]. split; [done|].
  split.
  { by rewrite (last_default (c :: rest) 32%N c). }
  split; [done|]. unfold sanitizedName. split; [apply length_map|].
  rewrite forallb_forall. intros x Hx. apply in_map_iff in Hx as (y & <- & _).
  destruct (isAlnum y) eqn:Ey; [by rewrite Ey | done].
Qed.

Lemma accepted_name_is_trimmed_and_bounded_witness :
  fst (handleNameInput (Some (js "  My App! "))
         (mkSession (js "name")
            (mkData (Some (js "https://example.com")) None None)))
  = mkSession (js "icon")
      (mkData (Some (js "https://example.com")) (Some (js "My App!")) None)
  /\ sanitizedName (js "My App!") = js "My_App_".
Proof.
  destruct (accepted_name_is_trimmed_and_bounded (Some (js "  My App! "))
              (mkSession (js "name")
                 (mkData (Some (js "https://example.com")) None None)))
    as [H _].
  destruct (H (js "My App!") (Some (js "https://example.com")) eq_refl)
    as (_ & _ & _ & _ & Hs & _).
  split; [exact Hs | reflexivity].
Defined.

End WizardFacts.
